(** * td-audio-bridge: audio analyzer and transient detector

    A shallow embedding of [scripts/audio_analyzer.py] (class [AudioAnalyzer])
    and [scripts/transient_detector.py] (class [TransientDetector]), with the
    properties of the design document stated and settled against it.

    Numbers.  Python floats are modelled as exact rationals ([Q]); Python ints
    that are used as sizes, counters or indices are [Z].  Every statement
    below is therefore about the arithmetic the program writes down, not
    about IEEE rounding, with one exception: where a float is turned into an
    integer, in [set_attack_release], the result depends on the last bit of
    the product, and the product is computed as Python computes it, rounded
    to the nearest double after each operation ([Py.to_double]).  Division
    by zero, which raises [ZeroDivisionError] in Python, is written out
    wherever the source does not guard it. *)

From Stdlib Require Import QArith Qround Qpower ZArith List Bool Lia Lqa.
From Stdlib Require String DecimalString.
Import ListNotations.
Import String.StringSyntax.
Delimit Scope string_scope with string.

Open Scope Q_scope.

(** ** Python built-ins used by the two modules *)

Module Py.

(** [a < b] on floats. *)
Definition ltb (a b : Q) : bool :=
  match a ?= b with Lt => true | _ => false end.

(** [max(a, b)]: the first argument wins ties. *)
Definition max (a b : Q) : Q := if ltb a b then b else a.

(** [min(a, b)]: the first argument wins ties. *)
Definition min (a b : Q) : Q := if ltb b a then b else a.

(** [abs(x)]. *)
Definition abs (x : Q) : Q := if ltb x 0 then - x else x.

(** [int(x)] on a float: truncation toward zero. *)
Definition int (x : Q) : Z := Z.quot (Qnum x) (Zpos (Qden x)).

(** [round(x)] on a float: to the nearest integer, ties to even.  The
    analyzer does not call it; the design document names it. *)
Definition round (x : Q) : Z :=
  let f := Qfloor x in
  match Qcompare (x - inject_Z f) (1 # 2) with
  | Lt => f
  | Gt => (f + 1)%Z
  | Eq => if Z.even f then f else (f + 1)%Z
  end.

(** Dropping the fractional part, said with floor and ceiling. *)
Definition truncate (x : Q) : Z :=
  if Qle_bool 0 x then Qfloor x else Qceiling x.

(** [floor(log2(a))] for a positive [a]. *)
Definition exponent (a : Q) : Z :=
  let e := (Z.log2 (Qnum a) - Z.log2 (Zpos (Qden a)) - 1)%Z in
  if Qle_bool (2 ^ (e + 1)) a then (e + 1)%Z else e.

(** The double nearest to [q], ties to even: 53 significant bits, and no
    step finer than [2^-1074].  Values that round to [2^1024] or beyond are
    infinite as doubles; see [finite]. *)
Definition to_double (q : Q) : Q :=
  if Qeq_bool q 0 then 0
  else
    let a := abs q in
    let quantum := 2 ^ (Z.max (exponent a - 52) (-1074)) in
    let v := inject_Z (round (a / quantum)) * quantum in
    if ltb q 0 then - v else v.

(** [x / y] and [x * y] on doubles: the exact result, rounded. *)
Definition fdiv (x y : Q) : Q := to_double (x / y).

Definition fmul (x y : Q) : Q := to_double (x * y).

(** The rounded value is a finite double (not [inf]). *)
Definition finite (x : Q) : Prop := abs x < 2 ^ 1024.

(** [sum(xs)]: left fold starting from 0. *)
Definition sum (xs : list Q) : Q := fold_left Qplus xs 0.

(** [len(xs)] as a number. *)
Definition len {A} (xs : list A) : Z := Z.of_nat (length xs).

(** [[x] * n]: empty when [n <= 0]. *)
Definition replicate {A} (x : A) (n : Z) : list A := repeat x (Z.to_nat n).

(** Normalisation of a slice bound against a list of length [n]. *)
Definition clamp_index (n i : Z) : Z :=
  if (i <? 0)%Z then Z.max 0 (i + n) else Z.min i n.

(** [xs[start:stop]]. *)
Definition slice {A} (xs : list A) (start stop : Z) : list A :=
  let a := clamp_index (len xs) start in
  let b := clamp_index (len xs) stop in
  firstn (Z.to_nat (b - a)) (skipn (Z.to_nat a) xs).

(** [xs[start:]]. *)
Definition slice_from {A} (xs : list A) (start : Z) : list A :=
  skipn (Z.to_nat (clamp_index (len xs) start)) xs.

(** [xs[i]]: negative indices count from the end; [None] is [IndexError]. *)
Definition index {A} (xs : list A) (i : Z) : option A :=
  if (i <? 0)%Z
  then if (i + len xs <? 0)%Z then None else nth_error xs (Z.to_nat (i + len xs))
  else nth_error xs (Z.to_nat i).

(** [range(n)]. *)
Definition range (n : Z) : list Z := map Z.of_nat (seq 0 (Z.to_nat n)).

End Py.

(** [collections.deque(maxlen=...)]: a bounded queue.  [append] evicts the
    oldest entry when the deque is full; [clear] keeps the bound. *)
Record deque := {
  maxlen : nat;
  items : list Q
}.

Module Deque.

Definition new (maxlen : nat) : deque := {| maxlen := maxlen; items := [] |}.

Definition append (d : deque) (x : Q) : deque :=
  let xs := items d ++ [x] in
  {| maxlen := maxlen d; items := skipn (length xs - maxlen d) xs |}.

Definition clear (d : deque) : deque := {| maxlen := maxlen d; items := [] |}.

Definition len (d : deque) : Z := Py.len (items d).

Definition sum (d : deque) : Q := Py.sum (items d).

End Deque.

(** ** The host's CHOP operator, as the analyzer observes it

    A CHOP is read only through [numSamples], [numChans] and [chop[c][i]]. *)

Record CHOP := {
  numSamples : Z;
  numChans : Z;
  sample : Z -> Z -> Q   (* chop[channel][index] *)
}.

(** ** audio_analyzer.py *)

Record Bands := {
  band8 : list Q;
  band16 : list Q;
  band32 : list Q
}.

Record Analysis := {
  a_frequency_data : list Q;
  a_rms : Q;
  a_peak : Q;
  a_envelope : Q;
  a_bands : Bands
}.

Record AudioAnalyzer := {
  fft_size : Z;
  smoothing_time_constant : Q;
  frequency_bin_count : Z;
  frequency_data : list Q;
  time_domain_data : list Q;
  rms_level : Q;
  peak_level : Q;
  history_size : nat;
  rms_history : deque;
  peak_history : deque;
  attack_frames : Z;
  release_frames : Z;
  envelope_value : Q
}.

Module Analyzer.

(** [AudioAnalyzer.__init__]. *)
Definition init (fft_size : Z) (smoothing_time_constant : Q) : AudioAnalyzer :=
  {| fft_size := fft_size;
     smoothing_time_constant := smoothing_time_constant;
     frequency_bin_count := (fft_size / 2)%Z;
     frequency_data := Py.replicate 0 (fft_size / 2)%Z;
     time_domain_data := Py.replicate 0 fft_size;
     rms_level := 0;
     peak_level := 0;
     history_size := 60;
     rms_history := Deque.new 60;
     peak_history := Deque.new 60;
     attack_frames := 1;
     release_frames := 30;
     envelope_value := 0 |}.

(** [AudioAnalyzer._get_empty_analysis]. *)
Definition _get_empty_analysis (self : AudioAnalyzer) : Analysis :=
  {| a_frequency_data := Py.replicate 0 (frequency_bin_count self);
     a_rms := 0;
     a_peak := 0;
     a_envelope := 0;
     a_bands := {| band8 := Py.replicate 0 8;
                   band16 := Py.replicate 0 16;
                   band32 := Py.replicate 0 32 |} |}.

(** The band loop of [_calculate_bands], on the spectrum itself:
    [bin_count / num_bands], then [int((bin_count / num_bands) * band)]. *)
Definition bins_per_band (bin_count num_bands : Z) : Q :=
  inject_Z bin_count / inject_Z num_bands.

Definition band_boundary (bin_count num_bands band : Z) : Z :=
  Py.int (bins_per_band bin_count num_bands * inject_Z band).

Definition band_value (spectrum : list Q) (num_bands band : Z) : Q :=
  let bin_count := Py.len spectrum in
  let start_bin := band_boundary bin_count num_bands band in
  let end_bin := band_boundary bin_count num_bands (band + 1) in
  let band_sum := Py.sum (Py.slice spectrum start_bin end_bin) in
  if (start_bin <? end_bin)%Z
  then band_sum / inject_Z (end_bin - start_bin)
  else 0.

(** [AudioAnalyzer._calculate_bands]. *)
Definition _calculate_bands (self : AudioAnalyzer) (num_bands : Z) : list Q :=
  map (band_value (frequency_data self) num_bands) (Py.range num_bands).

(** [AudioAnalyzer._extract_frequency_bands]. *)
Definition _extract_frequency_bands (self : AudioAnalyzer) : Bands :=
  {| band8 := _calculate_bands self 8;
     band16 := _calculate_bands self 16;
     band32 := _calculate_bands self 32 |}.

(** [AudioAnalyzer.get_frequency_range]; [None] is [ZeroDivisionError]. *)
Definition get_frequency_range (self : AudioAnalyzer)
    (min_freq max_freq sample_rate : Q) : option Q :=
  if (fft_size self =? 0)%Z then None else
  let freq_per_bin := sample_rate / inject_Z (fft_size self) in
  if Qeq_bool freq_per_bin 0 then None else
  let start_bin := Py.int (min_freq / freq_per_bin) in
  let end_bin := Py.int (max_freq / freq_per_bin) in
  let start_bin := Z.max 0 (Z.min start_bin (Py.len (frequency_data self) - 1)) in
  let end_bin := Z.max 0 (Z.min end_bin (Py.len (frequency_data self))) in
  if (end_bin <=? start_bin)%Z then Some 0 else
  let range_sum := Py.sum (Py.slice (frequency_data self) start_bin end_bin) in
  Some (range_sum / inject_Z (end_bin - start_bin)).

(** [(ms / 1000.0) * fps] as Python computes it: the arguments as doubles,
    the quotient rounded, the product rounded. *)
Definition double_product (ms fps : Q) : Q :=
  Py.fmul (Py.fdiv (Py.to_double ms) 1000) (Py.to_double fps).

(** The arguments and the product are finite doubles; otherwise [int()], or
    the conversion of an int argument, raises [OverflowError]. *)
Definition representable (ms fps : Q) : Prop :=
  Py.finite (Py.to_double ms) /\ Py.finite (Py.to_double fps)
  /\ Py.finite (double_product ms fps).

(** [AudioAnalyzer.set_attack_release], for arguments that are
    [representable]. *)
Definition set_attack_release (self : AudioAnalyzer) (attack_ms release_ms fps : Q)
    : AudioAnalyzer :=
  {| fft_size := fft_size self;
     smoothing_time_constant := smoothing_time_constant self;
     frequency_bin_count := frequency_bin_count self;
     frequency_data := frequency_data self;
     time_domain_data := time_domain_data self;
     rms_level := rms_level self;
     peak_level := peak_level self;
     history_size := history_size self;
     rms_history := rms_history self;
     peak_history := peak_history self;
     attack_frames := Z.max 1 (Py.int (double_product attack_ms fps));
     release_frames := Z.max 1 (Py.int (double_product release_ms fps));
     envelope_value := envelope_value self |}.

(** [AudioAnalyzer.reset]. *)
Definition reset (self : AudioAnalyzer) : AudioAnalyzer :=
  {| fft_size := fft_size self;
     smoothing_time_constant := smoothing_time_constant self;
     frequency_bin_count := frequency_bin_count self;
     frequency_data := Py.replicate 0 (frequency_bin_count self);
     time_domain_data := Py.replicate 0 (fft_size self);
     rms_level := 0;
     peak_level := 0;
     history_size := history_size self;
     rms_history := Deque.clear (rms_history self);
     peak_history := Deque.clear (peak_history self);
     attack_frames := attack_frames self;
     release_frames := release_frames self;
     envelope_value := 0 |}.

Section Analyze.

(** [math.sqrt] is the host library's; the analyzer is stated for any
    function in its place. *)
Variable sqrt : Q -> Q.

(** The smoothing loop of [analyze_chop]: bins beyond the shorter of the two
    lists keep their value. *)
Fixpoint smooth (c : Q) (frequency_data raw : list Q) : list Q :=
  match frequency_data, raw with
  | f :: frequency_data', r :: raw' =>
      (c * f + (1 - c) * r) :: smooth c frequency_data' raw'
  | _, _ => frequency_data
  end.

(** [max(...)] over a generator: the first maximal element wins.  The
    empty case raises in Python; [_update_levels] guards it with
    [num_samples > 0]. *)
Definition max_of (xs : list Q) : Q :=
  match xs with
  | [] => 0
  | x :: xs' => fold_left Py.max xs' x
  end.

(** [AudioAnalyzer._update_levels]. *)
Definition _update_levels (self : AudioAnalyzer) (chop_reference : CHOP)
    : AudioAnalyzer :=
  let num_samples := numSamples chop_reference in
  let sum_squares :=
    fold_left (fun acc i => acc + sample chop_reference 0 i * sample chop_reference 0 i)
              (Py.range num_samples) 0 in
  let current_rms :=
    if (0 <? num_samples)%Z then sqrt (sum_squares / inject_Z num_samples) else 0 in
  let current_peak :=
    if (0 <? num_samples)%Z
    then max_of (map (fun i => Py.abs (sample chop_reference 0 i)) (Py.range num_samples))
    else 0 in
  let envelope :=
    if Py.ltb (envelope_value self) current_peak
    then envelope_value self
         + (current_peak - envelope_value self) / inject_Z (attack_frames self)
    else envelope_value self
         - (envelope_value self - current_peak) / inject_Z (release_frames self) in
  {| fft_size := fft_size self;
     smoothing_time_constant := smoothing_time_constant self;
     frequency_bin_count := frequency_bin_count self;
     frequency_data := frequency_data self;
     time_domain_data := time_domain_data self;
     rms_level := current_rms;
     peak_level := current_peak;
     history_size := history_size self;
     rms_history := Deque.append (rms_history self) current_rms;
     peak_history := Deque.append (peak_history self) current_peak;
     attack_frames := attack_frames self;
     release_frames := release_frames self;
     envelope_value := Py.max 0 (Py.min 1 envelope) |}.

(** The assignment [self.frequency_data[i] = ...] of the smoothing loop. *)
Definition with_frequency_data (self : AudioAnalyzer) (fd : list Q) : AudioAnalyzer :=
  {| fft_size := fft_size self;
     smoothing_time_constant := smoothing_time_constant self;
     frequency_bin_count := frequency_bin_count self;
     frequency_data := fd;
     time_domain_data := time_domain_data self;
     rms_level := rms_level self;
     peak_level := peak_level self;
     history_size := history_size self;
     rms_history := rms_history self;
     peak_history := peak_history self;
     attack_frames := attack_frames self;
     release_frames := release_frames self;
     envelope_value := envelope_value self |}.

(** [AudioAnalyzer.analyze_chop]: the analyzer after the call and the
    returned frame.  [None] is Python's [None] reference. *)
Definition analyze_chop (self : AudioAnalyzer) (chop_reference : option CHOP)
    : AudioAnalyzer * Analysis :=
  match chop_reference with
  | None => (self, _get_empty_analysis self)
  | Some chop =>
      let num_samples := numSamples chop in
      let num_channels := numChans chop in
      if ((num_samples =? 0) || (num_channels =? 0))%Z
      then (self, _get_empty_analysis self)
      else
        let raw_frequency_data :=
          map (sample chop 0)
              (Py.range (Z.min num_samples (frequency_bin_count self))) in
        let self1 :=
          with_frequency_data self
            (smooth (smoothing_time_constant self) (frequency_data self)
                    raw_frequency_data) in
        let self2 := _update_levels self1 chop in
        (self2,
         {| a_frequency_data := frequency_data self2;
            a_rms := rms_level self2;
            a_peak := peak_level self2;
            a_envelope := envelope_value self2;
            a_bands := _extract_frequency_bands self2 |})
  end.

(** The analyzers a program can hold: built by the constructor and changed
    only through the class's methods. *)
Inductive reachable (fft : Z) (smoothing : Q) : AudioAnalyzer -> Prop :=
| reach_init : reachable fft smoothing (init fft smoothing)
| reach_analyze self chop :
    reachable fft smoothing self ->
    reachable fft smoothing (fst (analyze_chop self chop))
| reach_set_attack_release self attack_ms release_ms fps :
    reachable fft smoothing self ->
    reachable fft smoothing (set_attack_release self attack_ms release_ms fps)
| reach_reset self :
    reachable fft smoothing self ->
    reachable fft smoothing (reset self).

End Analyze.

(** The input the guards of [analyze_chop] turn away. *)
Definition absent_or_empty (chop_reference : option CHOP) : Prop :=
  match chop_reference with
  | None => True
  | Some chop => numSamples chop = 0%Z \/ numChans chop = 0%Z
  end.

(** A freshly constructed analyzer whose envelope tick counts have been set
    to [attack] and [release]. *)
Definition fresh_with_frames (fft : Z) (smoothing : Q) (attack release : Z)
    : AudioAnalyzer :=
  {| fft_size := fft;
     smoothing_time_constant := smoothing;
     frequency_bin_count := (fft / 2)%Z;
     frequency_data := Py.replicate 0 (fft / 2)%Z;
     time_domain_data := Py.replicate 0 fft;
     rms_level := 0;
     peak_level := 0;
     history_size := 60;
     rms_history := Deque.new 60;
     peak_history := Deque.new 60;
     attack_frames := attack;
     release_frames := release;
     envelope_value := 0 |}.

(** A CHOP with one channel holding [xs]. *)
Definition chop_of (xs : list Q) : CHOP :=
  {| numSamples := Py.len xs;
     numChans := 1;
     sample := fun _ i => nth (Z.to_nat i) xs 0 |}.

(** [list(history)[-frames:]]: the last [frames] entries, all of them when
    [frames] is 0 (as [-0] is [0]), and the entries from index [-frames] on
    when [frames] is negative. *)
Definition recent (history : deque) (frames : Z) : list Q :=
  Py.slice_from (items history) (- frames).

(** [AudioAnalyzer.get_history_average]; [None] is the [ZeroDivisionError]
    of [sum(recent) / len(recent)] on an empty [recent]. *)
Definition get_history_average (self : AudioAnalyzer) (frames : Z) : option Q :=
  if (Deque.len (rms_history self) =? 0)%Z then Some 0
  else
    let recent := recent (rms_history self) frames in
    if (Py.len recent =? 0)%Z then None
    else Some (Py.sum recent / inject_Z (Py.len recent)).

(** [AudioAnalyzer.get_peak_history_max]; [None] is the [ValueError] of
    [max(recent)] on an empty [recent]. *)
Definition get_peak_history_max (self : AudioAnalyzer) (frames : Z) : option Q :=
  if (Deque.len (peak_history self) =? 0)%Z then Some 0
  else
    match recent (peak_history self) frames with
    | [] => None
    | x :: xs => Some (max_of (x :: xs))
    end.

(** A concrete stand-in for [math.sqrt], to six decimals, for running the
    analyzer on examples. *)
Definition sqrt_approx (x : Q) : Q :=
  Z.sqrt (Qfloor (x * 1000000000000)) # 1000000.

End Analyzer.

(** ** transient_detector.py *)

(** A registered callback is identified by its function object. *)
Definition callback := nat.

(** One call [callback(strength, detection_type)] made by [_fire_callbacks]. *)
Record Invocation := {
  inv_callback : callback;
  inv_strength : Q;
  inv_detection_type : String.string
}.

Record DetectionResult := {
  triggered : bool;
  strength : Q;
  time : Q;
  r_threshold : Q
}.

Record Statistics := {
  st_total_triggers : Z;
  st_last_trigger_strength : Q;
  current_threshold : Q;
  avg_energy : Q
}.

Record TransientDetector := {
  threshold : Q;
  sensitivity : Q;
  min_interval_ms : Q;
  last_trigger_time : Q;
  is_triggered : bool;
  current_energy : Q;
  energy_history : deque;
  adaptive_threshold : Q;
  previous_spectrum : list Q;
  spectral_flux : Q;
  flux_history : deque;
  on_transient_callbacks : list callback;
  total_triggers : Z;
  last_trigger_strength : Q
}.

Module Detector.

(** [TransientDetector.__init__]. *)
Definition init (threshold sensitivity min_interval_ms : Q) : TransientDetector :=
  {| threshold := threshold;
     sensitivity := sensitivity;
     min_interval_ms := min_interval_ms;
     last_trigger_time := 0;
     is_triggered := false;
     current_energy := 0;
     energy_history := Deque.new 60;
     adaptive_threshold := threshold;
     previous_spectrum := [];
     spectral_flux := 0;
     flux_history := Deque.new 60;
     on_transient_callbacks := [];
     total_triggers := 0;
     last_trigger_strength := 0 |}.

(** *** Attribute assignments *)

(** [self.current_energy = e; self.energy_history.append(e)]. *)
Definition record_energy (self : TransientDetector) (e : Q) : TransientDetector :=
  {| threshold := threshold self;
     sensitivity := sensitivity self;
     min_interval_ms := min_interval_ms self;
     last_trigger_time := last_trigger_time self;
     is_triggered := is_triggered self;
     current_energy := e;
     energy_history := Deque.append (energy_history self) e;
     adaptive_threshold := adaptive_threshold self;
     previous_spectrum := previous_spectrum self;
     spectral_flux := spectral_flux self;
     flux_history := flux_history self;
     on_transient_callbacks := on_transient_callbacks self;
     total_triggers := total_triggers self;
     last_trigger_strength := last_trigger_strength self |}.

(** [self.energy_history.append(e)]. *)
Definition append_energy (self : TransientDetector) (e : Q) : TransientDetector :=
  {| threshold := threshold self;
     sensitivity := sensitivity self;
     min_interval_ms := min_interval_ms self;
     last_trigger_time := last_trigger_time self;
     is_triggered := is_triggered self;
     current_energy := current_energy self;
     energy_history := Deque.append (energy_history self) e;
     adaptive_threshold := adaptive_threshold self;
     previous_spectrum := previous_spectrum self;
     spectral_flux := spectral_flux self;
     flux_history := flux_history self;
     on_transient_callbacks := on_transient_callbacks self;
     total_triggers := total_triggers self;
     last_trigger_strength := last_trigger_strength self |}.

(** [self.adaptive_threshold = t]. *)
Definition with_adaptive_threshold (self : TransientDetector) (t : Q)
    : TransientDetector :=
  {| threshold := threshold self;
     sensitivity := sensitivity self;
     min_interval_ms := min_interval_ms self;
     last_trigger_time := last_trigger_time self;
     is_triggered := is_triggered self;
     current_energy := current_energy self;
     energy_history := energy_history self;
     adaptive_threshold := t;
     previous_spectrum := previous_spectrum self;
     spectral_flux := spectral_flux self;
     flux_history := flux_history self;
     on_transient_callbacks := on_transient_callbacks self;
     total_triggers := total_triggers self;
     last_trigger_strength := last_trigger_strength self |}.

(** [self.spectral_flux = flux; self.flux_history.append(flux)]. *)
Definition record_flux (self : TransientDetector) (flux : Q) : TransientDetector :=
  {| threshold := threshold self;
     sensitivity := sensitivity self;
     min_interval_ms := min_interval_ms self;
     last_trigger_time := last_trigger_time self;
     is_triggered := is_triggered self;
     current_energy := current_energy self;
     energy_history := energy_history self;
     adaptive_threshold := adaptive_threshold self;
     previous_spectrum := previous_spectrum self;
     spectral_flux := flux;
     flux_history := Deque.append (flux_history self) flux;
     on_transient_callbacks := on_transient_callbacks self;
     total_triggers := total_triggers self;
     last_trigger_strength := last_trigger_strength self |}.

(** [self.previous_spectrum = frequency_data.copy()]. *)
Definition with_previous_spectrum (self : TransientDetector) (spectrum : list Q)
    : TransientDetector :=
  {| threshold := threshold self;
     sensitivity := sensitivity self;
     min_interval_ms := min_interval_ms self;
     last_trigger_time := last_trigger_time self;
     is_triggered := is_triggered self;
     current_energy := current_energy self;
     energy_history := energy_history self;
     adaptive_threshold := adaptive_threshold self;
     previous_spectrum := spectrum;
     spectral_flux := spectral_flux self;
     flux_history := flux_history self;
     on_transient_callbacks := on_transient_callbacks self;
     total_triggers := total_triggers self;
     last_trigger_strength := last_trigger_strength self |}.

(** The three assignments of every [if triggered:] block:
    [self.last_trigger_time = current_time; self.total_triggers += 1;
     self.last_trigger_strength = strength]. *)
Definition record_trigger (self : TransientDetector) (current_time strength : Q)
    : TransientDetector :=
  {| threshold := threshold self;
     sensitivity := sensitivity self;
     min_interval_ms := min_interval_ms self;
     last_trigger_time := current_time;
     is_triggered := is_triggered self;
     current_energy := current_energy self;
     energy_history := energy_history self;
     adaptive_threshold := adaptive_threshold self;
     previous_spectrum := previous_spectrum self;
     spectral_flux := spectral_flux self;
     flux_history := flux_history self;
     on_transient_callbacks := on_transient_callbacks self;
     total_triggers := total_triggers self + 1;
     last_trigger_strength := strength |}.

(** [self.on_transient_callbacks = cbs] (in place, by [append]/[remove]). *)
Definition with_callbacks (self : TransientDetector) (cbs : list callback)
    : TransientDetector :=
  {| threshold := threshold self;
     sensitivity := sensitivity self;
     min_interval_ms := min_interval_ms self;
     last_trigger_time := last_trigger_time self;
     is_triggered := is_triggered self;
     current_energy := current_energy self;
     energy_history := energy_history self;
     adaptive_threshold := adaptive_threshold self;
     previous_spectrum := previous_spectrum self;
     spectral_flux := spectral_flux self;
     flux_history := flux_history self;
     on_transient_callbacks := cbs;
     total_triggers := total_triggers self;
     last_trigger_strength := last_trigger_strength self |}.

(** The three configuration fields, assigned by the setters. *)
Definition with_config (self : TransientDetector) (t s m : Q) : TransientDetector :=
  {| threshold := t;
     sensitivity := s;
     min_interval_ms := m;
     last_trigger_time := last_trigger_time self;
     is_triggered := is_triggered self;
     current_energy := current_energy self;
     energy_history := energy_history self;
     adaptive_threshold := adaptive_threshold self;
     previous_spectrum := previous_spectrum self;
     spectral_flux := spectral_flux self;
     flux_history := flux_history self;
     on_transient_callbacks := on_transient_callbacks self;
     total_triggers := total_triggers self;
     last_trigger_strength := last_trigger_strength self |}.

(** *** Results and callbacks *)

(** [TransientDetector._get_detection_result]; [stamp] is the reading of
    [time.time()] taken while the result is formatted. *)
Definition _get_detection_result (self : TransientDetector)
    (triggered : bool) (strength stamp : Q) : DetectionResult :=
  {| triggered := triggered;
     strength := strength;
     time := stamp;
     r_threshold := adaptive_threshold self |}.

(** [TransientDetector._fire_callbacks]: every registered callback is called
    once per list entry, in list order; an exception raised by one of them is
    caught and printed.  The calls are returned as a log. *)
Definition _fire_callbacks (self : TransientDetector) (strength : Q)
    (detection_type : String.string) : list Invocation :=
  map (fun cb => {| inv_callback := cb;
                    inv_strength := strength;
                    inv_detection_type := detection_type |})
      (on_transient_callbacks self).

(** What one detection call yields: the detector after the call, the
    returned result and the callbacks fired during it. *)
Definition Outcome : Type := TransientDetector * DetectionResult * list Invocation.

(** [return self._get_detection_result(False, 0.0)] with nothing changed. *)
Definition not_triggered (self : TransientDetector) (stamp : Q) : Outcome :=
  (self, _get_detection_result self false 0 stamp, []).

(** The tail shared by all variants: [if triggered: ...] followed by
    [return self._get_detection_result(triggered, strength)]. *)
Definition finish (self : TransientDetector) (triggered : bool)
    (strength current_time stamp : Q) (detection_type : String.string) : Outcome :=
  if triggered
  then let self' := record_trigger self current_time strength in
       (self', _get_detection_result self' triggered strength stamp,
        _fire_callbacks self' strength detection_type)
  else (self, _get_detection_result self triggered strength stamp, []).

(** [sum(history) / len(history)]. *)
Definition mean (d : deque) : Q := Deque.sum d / inject_Z (Deque.len d).

(** The threshold rule written out in the band, kick, snare and hi-hat
    variants, on the history after the append. *)
Definition band_rule (self : TransientDetector) : Q :=
  if (10 <? Deque.len (energy_history self))%Z
  then mean (energy_history self) + threshold self * sensitivity self
  else threshold self.

(** [x / max(0.01, t) if triggered else 0.0]. *)
Definition strength_of (triggered : bool) (x t : Q) : Q :=
  if triggered then x / Py.max (1 # 100) t else 0.

(** In every variant [now] is the reading of [time.time()] (seconds) from
    which [current_time] is computed and [stamp] the later reading stored in
    the result. *)

(** [TransientDetector.detect_energy_based]. *)
Definition detect_energy_based (self : TransientDetector)
    (rms_level peak_level : Q) (now stamp : Q) : Outcome :=
  let current_time := now * 1000 in
  let time_since_last := current_time - last_trigger_time self in
  if Py.ltb time_since_last (min_interval_ms self) then not_triggered self stamp
  else
    let self := record_energy self peak_level in
    let self :=
      if (10 <? Deque.len (energy_history self))%Z
      then let avg_energy := mean (energy_history self) in
           with_adaptive_threshold self
             (avg_energy + threshold self * sensitivity self)
      else self in
    let triggered := Py.ltb (adaptive_threshold self) peak_level in
    let strength := strength_of triggered peak_level (adaptive_threshold self) in
    finish self triggered strength current_time stamp "energy"%string.

(** The flux loop: sum of the positive differences over the common prefix. *)
Fixpoint flux_loop (flux : Q) (frequency_data previous_spectrum : list Q) : Q :=
  match frequency_data, previous_spectrum with
  | x :: frequency_data', p :: previous_spectrum' =>
      let diff := x - p in
      flux_loop (if Py.ltb 0 diff then flux + diff else flux)
                frequency_data' previous_spectrum'
  | _, _ => flux
  end.

(** [TransientDetector.detect_spectral_flux]. *)
Definition detect_spectral_flux (self : TransientDetector)
    (frequency_data : list Q) (now stamp : Q) : Outcome :=
  let current_time := now * 1000 in
  let time_since_last := current_time - last_trigger_time self in
  if Py.ltb time_since_last (min_interval_ms self) then not_triggered self stamp
  else
    match previous_spectrum self with
    | [] => not_triggered (with_previous_spectrum self frequency_data) stamp
    | _ :: _ =>
        let flux := flux_loop 0 frequency_data (previous_spectrum self) in
        let self := record_flux self flux in
        let flux_threshold :=
          if (10 <? Deque.len (flux_history self))%Z
          then let avg_flux := mean (flux_history self) in
               avg_flux * (1 + sensitivity self)
          else threshold self in
        let triggered := Py.ltb flux_threshold flux in
        let strength := strength_of triggered flux flux_threshold in
        let '(self, _, fired) :=
          finish self triggered strength current_time stamp "spectral_flux"%string in
        let self := with_previous_spectrum self frequency_data in
        (self, _get_detection_result self triggered strength stamp, fired)
    end.

(** The label [f'band_{band_index}']. *)
Definition band_label (band_index : Z) : String.string :=
  String.append "band_"%string (DecimalString.NilZero.string_of_int (Z.to_int band_index)).

(** [TransientDetector.detect_band_transient]; [None] is the [IndexError]
    of [band_data[band_index]], raised before anything is assigned. *)
Definition detect_band_transient (self : TransientDetector)
    (band_data : list Q) (band_index : Z) (now stamp : Q) : option Outcome :=
  let current_time := now * 1000 in
  let time_since_last := current_time - last_trigger_time self in
  if Py.ltb time_since_last (min_interval_ms self)
  then Some (not_triggered self stamp)
  else if (Py.len band_data <=? band_index)%Z
  then Some (not_triggered self stamp)
  else
    match Py.index band_data band_index with
    | None => None
    | Some band_energy =>
        let self := append_energy self band_energy in
        let band_threshold := band_rule self in
        let triggered := Py.ltb band_threshold band_energy in
        let strength := strength_of triggered band_energy band_threshold in
        Some (finish self triggered strength current_time stamp
                     (band_label band_index))
    end.

(** The signals of the three presets: [(band_data[0] + band_data[1]) / 2.0],
    [(band_data[2] + band_data[3]) / 2.0] and [sum(band_data[-2:]) / 2.0].
    Each is read only after the length guard of its variant. *)
Definition kick_energy_of (band_data : list Q) : Q :=
  (nth 0 band_data 0 + nth 1 band_data 0) / 2.

Definition snare_energy_of (band_data : list Q) : Q :=
  (nth 2 band_data 0 + nth 3 band_data 0) / 2.

Definition hihat_energy_of (band_data : list Q) : Q :=
  Py.sum (Py.slice_from band_data (-2)) / 2.

(** [TransientDetector.detect_kick]. *)
Definition detect_kick (self : TransientDetector)
    (band_data : list Q) (now stamp : Q) : Outcome :=
  if (Py.len band_data <? 2)%Z then not_triggered self stamp
  else
    let kick_energy := kick_energy_of band_data in
    let current_time := now * 1000 in
    let time_since_last := current_time - last_trigger_time self in
    if Py.ltb time_since_last (min_interval_ms self) then not_triggered self stamp
    else
      let self := append_energy self kick_energy in
      let kick_threshold := band_rule self in
      let triggered := Py.ltb kick_threshold kick_energy in
      let strength := strength_of triggered kick_energy kick_threshold in
      finish self triggered strength current_time stamp "kick"%string.

(** [TransientDetector.detect_snare]. *)
Definition detect_snare (self : TransientDetector)
    (band_data : list Q) (now stamp : Q) : Outcome :=
  if (Py.len band_data <? 4)%Z then not_triggered self stamp
  else
    let snare_energy := snare_energy_of band_data in
    let current_time := now * 1000 in
    let time_since_last := current_time - last_trigger_time self in
    if Py.ltb time_since_last (min_interval_ms self) then not_triggered self stamp
    else
      let self := append_energy self snare_energy in
      let snare_threshold := band_rule self in
      let triggered := Py.ltb snare_threshold snare_energy in
      let strength := strength_of triggered snare_energy snare_threshold in
      finish self triggered strength current_time stamp "snare"%string.

(** [TransientDetector.detect_hihat]. *)
Definition detect_hihat (self : TransientDetector)
    (band_data : list Q) (now stamp : Q) : Outcome :=
  if (Py.len band_data <? 6)%Z then not_triggered self stamp
  else
    let hihat_energy := hihat_energy_of band_data in
    let current_time := now * 1000 in
    let time_since_last := current_time - last_trigger_time self in
    if Py.ltb time_since_last (min_interval_ms self) then not_triggered self stamp
    else
      let self := append_energy self hihat_energy in
      let hihat_threshold := band_rule self in
      let triggered := Py.ltb hihat_threshold hihat_energy in
      let strength := strength_of triggered hihat_energy hihat_threshold in
      finish self triggered strength current_time stamp "hihat"%string.

(** *** Callback registration *)

(** [callback_func in self.on_transient_callbacks]. *)
Definition registered (self : TransientDetector) (cb : callback) : bool :=
  existsb (Nat.eqb cb) (on_transient_callbacks self).

(** [list.remove]: drops the first occurrence. *)
Fixpoint list_remove (cb : callback) (cbs : list callback) : list callback :=
  match cbs with
  | [] => []
  | c :: cbs' => if Nat.eqb cb c then cbs' else c :: list_remove cb cbs'
  end.

(** [TransientDetector.add_callback]. *)
Definition add_callback (self : TransientDetector) (callback_func : callback)
    : TransientDetector :=
  if negb (registered self callback_func)
  then with_callbacks self (on_transient_callbacks self ++ [callback_func])
  else self.

(** [TransientDetector.remove_callback]. *)
Definition remove_callback (self : TransientDetector) (callback_func : callback)
    : TransientDetector :=
  if registered self callback_func
  then with_callbacks self (list_remove callback_func (on_transient_callbacks self))
  else self.

(** *** Configuration, reset, statistics *)

(** [TransientDetector.set_threshold]. *)
Definition set_threshold (self : TransientDetector) (t : Q) : TransientDetector :=
  with_config self (Py.max 0 (Py.min 1 t)) (sensitivity self) (min_interval_ms self).

(** [TransientDetector.set_sensitivity]. *)
Definition set_sensitivity (self : TransientDetector) (s : Q) : TransientDetector :=
  with_config self (threshold self) (Py.max 0 (Py.min 1 s)) (min_interval_ms self).

(** [TransientDetector.set_min_interval]. *)
Definition set_min_interval (self : TransientDetector) (interval_ms : Q)
    : TransientDetector :=
  with_config self (threshold self) (sensitivity self) (Py.max 0 interval_ms).

(** [TransientDetector.reset]: the adaptive threshold and the callbacks are
    not among the fields it assigns. *)
Definition reset (self : TransientDetector) : TransientDetector :=
  {| threshold := threshold self;
     sensitivity := sensitivity self;
     min_interval_ms := min_interval_ms self;
     last_trigger_time := 0;
     is_triggered := false;
     current_energy := 0;
     energy_history := Deque.clear (energy_history self);
     adaptive_threshold := adaptive_threshold self;
     previous_spectrum := [];
     spectral_flux := spectral_flux self;
     flux_history := Deque.clear (flux_history self);
     on_transient_callbacks := on_transient_callbacks self;
     total_triggers := 0;
     last_trigger_strength := 0 |}.

(** [TransientDetector.get_statistics]. *)
Definition get_statistics (self : TransientDetector) : Statistics :=
  {| st_total_triggers := total_triggers self;
     st_last_trigger_strength := last_trigger_strength self;
     current_threshold := adaptive_threshold self;
     avg_energy :=
       match items (energy_history self) with
       | [] => 0
       | _ :: _ => mean (energy_history self)
       end |}.

(** *** Detection calls as data *)

(** One evaluation request: the variant and its arguments. *)
Inductive call :=
| Energy (rms_level peak_level : Q)
| SpectralFlux (frequency_data : list Q)
| Band (band_data : list Q) (band_index : Z)
| Kick (band_data : list Q)
| Snare (band_data : list Q)
| Hihat (band_data : list Q).

(** Run the method a [call] names. *)
Definition evaluate (self : TransientDetector) (c : call) (now stamp : Q)
    : option Outcome :=
  match c with
  | Energy rms_level peak_level =>
      Some (detect_energy_based self rms_level peak_level now stamp)
  | SpectralFlux frequency_data =>
      Some (detect_spectral_flux self frequency_data now stamp)
  | Band band_data band_index =>
      detect_band_transient self band_data band_index now stamp
  | Kick band_data => Some (detect_kick self band_data now stamp)
  | Snare band_data => Some (detect_snare self band_data now stamp)
  | Hihat band_data => Some (detect_hihat self band_data now stamp)
  end.

(** *** Vocabulary for the statements *)

(** The debounce test of every variant: [time_since_last < min_interval_ms]
    at the clock reading [now]. *)
Definition debounced (self : TransientDetector) (now : Q) : bool :=
  Py.ltb (now * 1000 - last_trigger_time self) (min_interval_ms self).

(** The variant monitors the flux history (the others share the energy
    history). *)
Definition on_flux (c : call) : bool :=
  match c with SpectralFlux _ => true | _ => false end.

Definition history_of (self : TransientDetector) (c : call) : deque :=
  if on_flux c then flux_history self else energy_history self.

(** The call gets past the guards on its input: the band vector is long
    enough, the band index denotes an entry and, for spectral flux, a
    previous spectrum is held. *)
Definition admitted (self : TransientDetector) (c : call) : bool :=
  match c with
  | Energy _ _ => true
  | SpectralFlux _ => match previous_spectrum self with [] => false | _ => true end
  | Band band_data band_index =>
      (band_index <? Py.len band_data)%Z && (- Py.len band_data <=? band_index)%Z
  | Kick band_data => (2 <=? Py.len band_data)%Z
  | Snare band_data => (4 <=? Py.len band_data)%Z
  | Hihat band_data => (6 <=? Py.len band_data)%Z
  end.

(** The signal the variant monitors. *)
Definition signal (self : TransientDetector) (c : call) : Q :=
  match c with
  | Energy _ peak_level => peak_level
  | SpectralFlux frequency_data => flux_loop 0 frequency_data (previous_spectrum self)
  | Band band_data band_index =>
      match Py.index band_data band_index with Some x => x | None => 0 end
  | Kick band_data => kick_energy_of band_data
  | Snare band_data => snare_energy_of band_data
  | Hihat band_data => hihat_energy_of band_data
  end.

(** An evaluation that reaches the history: not debounced and admitted. *)
Definition effective (self : TransientDetector) (c : call) (now : Q) : bool :=
  negb (debounced self now) && admitted self c.

(** The threshold a variant compares its signal with, given the history
    [h] it holds after the append. *)
Definition threshold_used (self : TransientDetector) (c : call) (h : deque) : Q :=
  match c with
  | Energy _ _ =>
      if (10 <? Deque.len h)%Z
      then mean h + threshold self * sensitivity self
      else adaptive_threshold self
  | SpectralFlux _ =>
      if (10 <? Deque.len h)%Z
      then mean h * (1 + sensitivity self)
      else threshold self
  | _ =>
      if (10 <? Deque.len h)%Z
      then mean h + threshold self * sensitivity self
      else threshold self
  end.

(** The mean of the design document, written out: the entries added up
    from the oldest on, over their number. *)
Definition arithmetic_mean (xs : list Q) : Q :=
  fold_left Qplus xs 0 / inject_Z (Z.of_nat (List.length xs)).

(** The rule of the design document for a detector configured with base
    threshold [T] and sensitivity [S], on a history [h]. *)
Definition spec_threshold (T S : Q) (c : call) (h : deque) : Q :=
  if (List.length (items h) <=? 10)%nat then T
  else if on_flux c then arithmetic_mean (items h) * (1 + S)
  else arithmetic_mean (items h) + T * S.

(** A sequence of evaluations, each with its two clock readings; the results
    are collected in order. *)
Fixpoint run (self : TransientDetector) (cs : list (call * Q * Q))
    : option (TransientDetector * list DetectionResult) :=
  match cs with
  | [] => Some (self, [])
  | (c, now, stamp) :: cs' =>
      match evaluate self c now stamp with
      | None => None
      | Some (self', r, _) =>
          match run self' cs' with
          | None => None
          | Some (self'', rs) => Some (self'', r :: rs)
          end
      end
  end.

(** A cold detector and what evaluations alone make of it.  [ne] and [nf]
    count the effective evaluations so far on the energy history and on the
    flux history. *)
Inductive cold_run (T S M : Q) : nat -> nat -> TransientDetector -> Prop :=
| cold_init : cold_run T S M 0 0 (init T S M)
| cold_eval ne nf self c now stamp self' r fired :
    cold_run T S M ne nf self ->
    evaluate self c now stamp = Some (self', r, fired) ->
    cold_run T S M
      (ne + (if effective self c now && negb (on_flux c) then 1 else 0))
      (nf + (if effective self c now && on_flux c then 1 else 0))
      self'.

(** The detector after the evaluations [cs], none of which raises. *)
Definition after (self : TransientDetector) (cs : list (call * Q * Q))
    : TransientDetector :=
  match run self cs with
  | Some (self', _) => self'
  | None => self
  end.

(** The detectors a program can hold. *)
Inductive reachable : TransientDetector -> Prop :=
| reach_init T S M : reachable (init T S M)
| reach_eval self c now stamp self' r fired :
    reachable self ->
    evaluate self c now stamp = Some (self', r, fired) ->
    reachable self'
| reach_add self cb : reachable self -> reachable (add_callback self cb)
| reach_remove self cb : reachable self -> reachable (remove_callback self cb)
| reach_set_threshold self t : reachable self -> reachable (set_threshold self t)
| reach_set_sensitivity self x : reachable self -> reachable (set_sensitivity self x)
| reach_set_min_interval self m : reachable self -> reachable (set_min_interval self m)
| reach_reset self : reachable self -> reachable (reset self).

(** How often [cb] was called in a log of [_fire_callbacks]. *)
Definition calls_of (cb : callback) (fired : list Invocation) : nat :=
  List.length (filter (fun i => Nat.eqb (inv_callback i) cb) fired).

End Detector.

(** *** MultiTransientDetector

    The bank holds its detectors by reference: [add_detector] stores the
    object it is given and [get_detector] hands the stored object out, so
    two names can denote one detector.  The detector objects of the program
    live in [heap], addressed by position; [detectors] is the dict
    [self.detectors], in insertion order. *)

Record MultiTransientDetector := {
  heap : list TransientDetector;
  detectors : list (String.string * nat)
}.

(** The dict returned by [detect_all]. *)
Record AllResults := {
  kick : DetectionResult;
  snare : DetectionResult;
  hihat : DetectionResult;
  general : DetectionResult
}.

Module Multi.

(** [d.get(name)]. *)
Fixpoint dict_get (name : String.string) (d : list (String.string * nat))
    : option nat :=
  match d with
  | [] => None
  | (k, v) :: d' => if String.eqb name k then Some v else dict_get name d'
  end.

(** [d[name] = v]: an existing key keeps its place, a new one goes last. *)
Fixpoint dict_set (name : String.string) (v : nat) (d : list (String.string * nat))
    : list (String.string * nat) :=
  match d with
  | [] => [(name, v)]
  | (k, w) :: d' =>
      if String.eqb name k then (k, v) :: d' else (k, w) :: dict_set name v d'
  end.

(** The object a reference denotes, and a write through a reference. *)
Definition deref (h : list TransientDetector) (r : nat) : option TransientDetector :=
  nth_error h r.

Fixpoint assign (h : list TransientDetector) (r : nat) (d : TransientDetector)
    : list TransientDetector :=
  match h, r with
  | [], _ => []
  | _ :: h', O => d :: h'
  | x :: h', S r' => x :: assign h' r' d
  end.

(** [MultiTransientDetector.__init__]: four fresh detectors. *)
Definition init : MultiTransientDetector :=
  {| heap := [Detector.init (3 # 10) (5 # 10) 100;
              Detector.init (35 # 100) (6 # 10) 80;
              Detector.init (25 # 100) (7 # 10) 50;
              Detector.init (3 # 10) (5 # 10) 100];
     detectors := [("kick"%string, 0%nat); ("snare"%string, 1%nat);
                   ("hihat"%string, 2%nat); ("general"%string, 3%nat)] |}.

(** [MultiTransientDetector.get_detector]: the detector object, or [None]. *)
Definition get_detector (self : MultiTransientDetector) (name : String.string)
    : option nat :=
  dict_get name (detectors self).

(** [MultiTransientDetector.add_detector]. *)
Definition add_detector (self : MultiTransientDetector) (name : String.string)
    (detector : nat) : MultiTransientDetector :=
  {| heap := heap self; detectors := dict_set name detector (detectors self) |}.

(** [detector.reset()] on the object [r] denotes. *)
Definition reset_object (h : list TransientDetector) (r : nat)
    : list TransientDetector :=
  match deref h r with
  | Some d => assign h r (Detector.reset d)
  | None => h
  end.

(** [MultiTransientDetector.reset_all]: [reset] on every value of the dict,
    in order. *)
Definition reset_all (self : MultiTransientDetector) : MultiTransientDetector :=
  {| heap := fold_left reset_object (map snd (detectors self)) (heap self);
     detectors := detectors self |}.

(** [self.detectors[name].<variant>(...)]: the call on the named detector,
    written back through its reference.  [None] is the [KeyError] of a name
    that is not in the dict. *)
Definition call_on (self : MultiTransientDetector) (name : String.string)
    (c : Detector.call) (clock : Q * Q)
    : option (MultiTransientDetector * DetectionResult * list Invocation) :=
  match dict_get name (detectors self) with
  | None => None
  | Some r =>
      match deref (heap self) r with
      | None => None
      | Some d =>
          match Detector.evaluate d c (fst clock) (snd clock) with
          | None => None
          | Some (d', result, fired) =>
              Some ({| heap := assign (heap self) r d';
                       detectors := detectors self |}, result, fired)
          end
      end
  end.

(** [MultiTransientDetector.detect_all]: the four calls in the order of the
    dict display, each with its own two clock readings. *)
Definition detect_all (self : MultiTransientDetector) (band_data : list Q)
    (t_kick t_snare t_hihat t_general : Q * Q)
    : option (MultiTransientDetector * AllResults * list Invocation) :=
  match call_on self "kick"%string (Detector.Kick band_data) t_kick with
  | None => None
  | Some (self1, r_kick, f_kick) =>
  match call_on self1 "snare"%string (Detector.Snare band_data) t_snare with
  | None => None
  | Some (self2, r_snare, f_snare) =>
  match call_on self2 "hihat"%string (Detector.Hihat band_data) t_hihat with
  | None => None
  | Some (self3, r_hihat, f_hihat) =>
  match call_on self3 "general"%string (Detector.Band band_data 0) t_general with
  | None => None
  | Some (self4, r_general, f_general) =>
      Some (self4,
            {| kick := r_kick; snare := r_snare;
               hihat := r_hihat; general := r_general |},
            f_kick ++ f_snare ++ f_hihat ++ f_general)
  end end end end.

End Multi.

(** * Properties *)

(** ** Facts about the Python built-ins *)

Lemma ltb_lt (a b : Q) : Py.ltb a b = true <-> a < b.
Proof.
  unfold Py.ltb. rewrite Qlt_alt.
  destruct (a ?= b); split; congruence.
Qed.

(** ** What one evaluation does *)

Section Eval.

Import Detector.

(** The shared tail touches the trigger fields only. *)
Lemma finish_config self tr st ct stamp lab s r f :
  finish self tr st ct stamp lab = (s, r, f) ->
  min_interval_ms s = min_interval_ms self
  /\ threshold s = threshold self
  /\ sensitivity s = sensitivity self
  /\ on_transient_callbacks s = on_transient_callbacks self
  /\ adaptive_threshold s = adaptive_threshold self
  /\ energy_history s = energy_history self
  /\ flux_history s = flux_history self
  /\ triggered r = tr /\ strength r = st
  /\ r_threshold r = adaptive_threshold self
  /\ previous_spectrum s = previous_spectrum self
  /\ last_trigger_time s = (if tr then ct else last_trigger_time self)
  /\ f = (if tr then _fire_callbacks self st lab else []).
Proof.
  unfold finish. destruct tr; intros H; inversion H; subst; cbn;
    repeat split; auto.
Qed.

Local Ltac finish_facts H :=
  apply finish_config in H; unfold band_rule, _fire_callbacks in *; cbn in H;
  decompose [and] H; clear H; subst;
  repeat split; auto; try congruence;
  repeat match goal with
         | E : triggered _ = _ |- _ => rewrite E; clear E
         | E : strength _ = _ |- _ => rewrite E; clear E
         end;
  auto; try congruence.

(** A debounced evaluation returns at once, whatever the variant. *)
Lemma evaluate_debounced self c now stamp :
  debounced self now = true ->
  evaluate self c now stamp = Some (not_triggered self stamp).
Proof.
  unfold debounced. intros D.
  destruct c; cbn [evaluate];
    unfold detect_energy_based, detect_spectral_flux, detect_band_transient,
           detect_kick, detect_snare, detect_hihat;
    rewrite ?D; try reflexivity;
    match goal with |- context [if ?b then _ else _] => destruct b end;
    reflexivity.
Qed.

(** An effective evaluation appends its signal, compares it with the
    variant's threshold and, if it triggers, stamps the trigger time and
    fires the callbacks. *)
Lemma evaluate_effective self c now stamp s r f :
  effective self c now = true ->
  evaluate self c now stamp = Some (s, r, f) ->
  let x := signal self c in
  let h := Deque.append (history_of self c) x in
  let t := threshold_used self c h in
  history_of s c = h
  /\ (if on_flux c
      then energy_history s = energy_history self
      else flux_history s = flux_history self)
  /\ triggered r = Py.ltb t x
  /\ strength r = strength_of (Py.ltb t x) x t
  /\ adaptive_threshold s
     = match c with Energy _ _ => t | _ => adaptive_threshold self end
  /\ r_threshold r = adaptive_threshold s
  /\ last_trigger_time s
     = (if triggered r then now * 1000 else last_trigger_time self)
  /\ min_interval_ms s = min_interval_ms self
  /\ threshold s = threshold self
  /\ sensitivity s = sensitivity self
  /\ on_transient_callbacks s = on_transient_callbacks self
  /\ f = (if triggered r
          then _fire_callbacks self (strength r)
                 match c with
                 | Energy _ _ => "energy"%string
                 | SpectralFlux _ => "spectral_flux"%string
                 | Band _ band_index => band_label band_index
                 | Kick _ => "kick"%string
                 | Snare _ => "snare"%string
                 | Hihat _ => "hihat"%string
                 end
          else []).
Proof.
  unfold effective, debounced. intros E.
  apply andb_true_iff in E. destruct E as [D A].
  apply negb_true_iff in D.
  destruct c as [rms peak|fd|band_data band_index|band_data|band_data|band_data];
    cbn [evaluate admitted signal history_of on_flux threshold_used] in *.
  - unfold detect_energy_based. rewrite D. cbn zeta.
    intros H. injection H as H.
    cbn [record_energy energy_history] in H.
    destruct (10 <? Deque.len (Deque.append (energy_history self) peak))%Z eqn:L;
      cbn [with_adaptive_threshold adaptive_threshold record_energy threshold sensitivity energy_history] in H;
      finish_facts H.
  - unfold detect_spectral_flux. rewrite D.
    destruct (previous_spectrum self) as [|p ps] eqn:P; [discriminate|].
    cbn zeta. cbn [record_flux flux_history threshold sensitivity].
    destruct (finish _ _ _ _ _ _) as [[s1 r1] f1] eqn:F.
    intros H. injection H as <- <- <-.
    cbn. finish_facts F.
  - unfold detect_band_transient. rewrite D.
    apply andb_true_iff in A. destruct A as [A1 A2].
    apply Z.ltb_lt in A1. apply Z.leb_le in A2.
    destruct (Py.len band_data <=? band_index)%Z eqn:G; [apply Z.leb_le in G; lia|].
    destruct (Py.index band_data band_index) as [e|]; [|discriminate].
    cbn zeta. intros H. injection H as H.
    finish_facts H.
  - unfold detect_kick. apply Z.leb_le in A.
    destruct (Py.len band_data <? 2)%Z eqn:G; [apply Z.ltb_lt in G; lia|].
    cbn zeta. rewrite D. intros H. injection H as H.
    finish_facts H.
  - unfold detect_snare. apply Z.leb_le in A.
    destruct (Py.len band_data <? 4)%Z eqn:G; [apply Z.ltb_lt in G; lia|].
    cbn zeta. rewrite D. intros H. injection H as H.
    finish_facts H.
  - unfold detect_hihat. apply Z.leb_le in A.
    destruct (Py.len band_data <? 6)%Z eqn:G; [apply Z.ltb_lt in G; lia|].
    cbn zeta. rewrite D. intros H. injection H as H.
    finish_facts H.
Qed.

(** An evaluation that is not effective returns the non-triggered result and
    changes nothing, except that the first spectral-flux call stores its
    spectrum. *)
Lemma evaluate_not_effective self c now stamp s r f :
  effective self c now = false ->
  evaluate self c now stamp = Some (s, r, f) ->
  r = _get_detection_result self false 0 stamp
  /\ f = []
  /\ (s = self
      \/ exists fd, c = SpectralFlux fd
                    /\ debounced self now = false
                    /\ previous_spectrum self = []
                    /\ s = with_previous_spectrum self fd).
Proof.
  intros E H.
  destruct (debounced self now) eqn:D.
  { rewrite (evaluate_debounced _ _ _ _ D) in H.
    injection H as <- <- <-. auto. }
  unfold effective in E. rewrite D in E. cbn in E. unfold debounced in D.
  destruct c as [rms peak|fd|band_data band_index|band_data|band_data|band_data];
    cbn [evaluate admitted] in *; try discriminate.
  - unfold detect_spectral_flux in H. rewrite D in H.
    destruct (previous_spectrum self) eqn:P; [|discriminate].
    injection H as <- <- <-. repeat split; eauto 10.
  - unfold detect_band_transient in H. rewrite D in H.
    destruct (Py.len band_data <=? band_index)%Z eqn:G.
    { injection H as <- <- <-. auto. }
    apply Z.leb_gt in G. apply andb_false_iff in E.
    destruct E as [E|E]; [apply Z.ltb_ge in E; lia|].
    apply Z.leb_gt in E.
    unfold Py.index in H.
    destruct (band_index <? 0)%Z eqn:N; [|apply Z.ltb_ge in N; unfold Py.len in *; lia].
    destruct (band_index + Py.len band_data <? 0)%Z eqn:N2; [discriminate|].
    apply Z.ltb_ge in N2. lia.
  - unfold detect_kick in H. apply Z.leb_gt in E.
    destruct (Py.len band_data <? 2)%Z eqn:G; [|apply Z.ltb_ge in G; lia].
    injection H as <- <- <-. auto.
  - unfold detect_snare in H. apply Z.leb_gt in E.
    destruct (Py.len band_data <? 4)%Z eqn:G; [|apply Z.ltb_ge in G; lia].
    injection H as <- <- <-. auto.
  - unfold detect_hihat in H. apply Z.leb_gt in E.
    destruct (Py.len band_data <? 6)%Z eqn:G; [|apply Z.ltb_ge in G; lia].
    injection H as <- <- <-. auto.
Qed.

(** Every evaluation leaves the configuration and the callback list alone. *)
Lemma evaluate_config self c now stamp s r f :
  evaluate self c now stamp = Some (s, r, f) ->
  min_interval_ms s = min_interval_ms self
  /\ threshold s = threshold self
  /\ sensitivity s = sensitivity self
  /\ on_transient_callbacks s = on_transient_callbacks self.
Proof.
  intros H. destruct (effective self c now) eqn:E.
  - pose proof (evaluate_effective _ _ _ _ _ _ _ E H) as F. cbv zeta in F.
    decompose [and] F. auto.
  - destruct (evaluate_not_effective _ _ _ _ _ _ _ E H) as (_ & _ & [->|(fd & _ & _ & _ & ->)]);
      auto.
Qed.

(** The callbacks fired are exactly the registered ones when the evaluation
    triggers, and none otherwise. *)
Lemma evaluate_fired self c now stamp s r f :
  evaluate self c now stamp = Some (s, r, f) ->
  map inv_callback f = if triggered r then on_transient_callbacks self else [].
Proof.
  intros H. destruct (effective self c now) eqn:E.
  - pose proof (evaluate_effective _ _ _ _ _ _ _ E H) as F. cbv zeta in F.
    decompose [and] F. subst f. destruct (triggered r); [|reflexivity].
    unfold _fire_callbacks. rewrite map_map. cbn. apply map_id.
  - destruct (evaluate_not_effective _ _ _ _ _ _ _ E H) as (-> & -> & _).
    reflexivity.
Qed.

(** After a triggering evaluation the trigger time is the evaluation's. *)
Lemma evaluate_triggered self c now stamp s r f :
  evaluate self c now stamp = Some (s, r, f) ->
  triggered r = true ->
  last_trigger_time s = now * 1000.
Proof.
  intros H T. destruct (effective self c now) eqn:E.
  - pose proof (evaluate_effective _ _ _ _ _ _ _ E H) as F. cbv zeta in F.
    decompose [and] F. rewrite T in *. assumption.
  - destruct (evaluate_not_effective _ _ _ _ _ _ _ E H) as (-> & _).
    discriminate.
Qed.

End Eval.

(** ** Debounce (C1) and input guards (C10) *)

Section Debounce.

Import Detector.

Lemma run_debounced self t cs :
  last_trigger_time self = t ->
  Forall (fun '(_, now, _) => now * 1000 - t < min_interval_ms self) cs ->
  exists rs,
    run self cs = Some (self, rs)
    /\ Forall (fun r => triggered r = false /\ strength r = 0) rs
    /\ List.length rs = List.length cs.
Proof.
  intros Ht. induction 1 as [|[[c now] stamp] cs Hc _ IH].
  - exists []. cbn. auto.
  - destruct IH as (rs & Hrun & Hrs & Hlen).
    assert (D : debounced self now = true).
    { unfold debounced. rewrite Ht. apply ltb_lt. exact Hc. }
    exists (_get_detection_result self false 0 stamp :: rs).
    cbn [run]. rewrite (evaluate_debounced _ c _ stamp D).
    unfold not_triggered. rewrite Hrun. cbn.
    repeat split; auto.
Qed.

(** C1.  Debounce: once an evaluation has triggered at clock reading [now]
    (time [now * 1000] ms), every evaluation of the same detector, whatever
    its variant and input, whose time is less than [min_interval_ms] past
    that one returns [triggered = False] with strength 0, fires no callback
    and returns the detector exactly as it was: histories, adaptive
    threshold, trigger count, last trigger time and previous spectrum
    included.  The same holds for any run of such evaluations, so no two
    evaluations less than the interval apart both report a trigger. *)
Theorem debounce_freezes_detector :
  forall self c now stamp self1 r1 fired1,
    evaluate self c now stamp = Some (self1, r1, fired1) ->
    triggered r1 = true ->
    (forall c' now' stamp',
        now' * 1000 - now * 1000 < min_interval_ms self ->
        evaluate self1 c' now' stamp'
        = Some (self1,
                {| triggered := false; strength := 0; time := stamp';
                   r_threshold := adaptive_threshold self1 |},
                []))
    /\ (forall cs,
          Forall (fun '(_, now', _) =>
                    now' * 1000 - now * 1000 < min_interval_ms self) cs ->
          exists rs,
            run self1 cs = Some (self1, rs)
            /\ Forall (fun r => triggered r = false /\ strength r = 0) rs
            /\ List.length rs = List.length cs)
    /\ (forall c' now' stamp' self2 r2 fired2,
          now' * 1000 - now * 1000 < min_interval_ms self ->
          evaluate self1 c' now' stamp' = Some (self2, r2, fired2) ->
          triggered r1 && triggered r2 = false).
Proof.
  intros self c now stamp self1 r1 fired1 H T.
  pose proof (evaluate_triggered _ _ _ _ _ _ _ H T) as Lt.
  destruct (evaluate_config _ _ _ _ _ _ _ H) as (M & _).
  assert (Step : forall c' now' stamp',
             now' * 1000 - now * 1000 < min_interval_ms self ->
             evaluate self1 c' now' stamp' = Some (not_triggered self1 stamp')).
  { intros c' now' stamp' W. apply evaluate_debounced.
    unfold debounced. rewrite Lt, M. apply ltb_lt. exact W. }
  split; [|split].
  - intros c' now' stamp' W. rewrite (Step _ _ _ W). reflexivity.
  - intros cs W. apply run_debounced with (t := now * 1000); auto.
    rewrite M. exact W.
  - intros c' now' stamp' self2 r2 fired2 W H2.
    rewrite (Step _ _ _ W) in H2. injection H2 as <- <- <-.
    cbn. apply andb_false_r.
Qed.

(** C1 at a kick that fires at 1000 s on a cold detector (threshold 0.3,
    sensitivity 0.5, interval 100 ms). *)
Lemma debounce_freezes_detector_witness :
  let self := init (3 # 10) (5 # 10) 100 in
  let self1 := fst (fst (detect_kick self [1; 1] 1000 1000)) in
  evaluate self1 (Energy 1 1) (100005 # 100) 1001
  = Some (self1,
          {| triggered := false; strength := 0; time := 1001;
             r_threshold := adaptive_threshold self1 |},
          []).
Proof.
  intros self self1.
  refine (proj1 (debounce_freezes_detector self (Kick [1; 1]) 1000 1000 self1
                   (snd (fst (detect_kick self [1; 1] 1000 1000)))
                   (snd (detect_kick self [1; 1] 1000 1000)) eq_refl eq_refl)
            _ _ _ _).
  reflexivity.
Defined.

(** C10.  Out-of-shape band input is rejected without side effects: a band
    vector shorter than 2 (kick), 4 (snare) or 6 (hi-hat) entries, or a band
    index at or past the end of the vector (generic band), yields
    [triggered = False] with strength 0, fires nothing and returns the
    detector unchanged. *)
Theorem out_of_shape_rejected :
  forall self band_data now stamp,
    let rejected := (self, {| triggered := false; strength := 0; time := stamp;
                              r_threshold := adaptive_threshold self |}, []) in
    ((List.length band_data < 2)%nat ->
       detect_kick self band_data now stamp = rejected)
    /\ ((List.length band_data < 4)%nat ->
          detect_snare self band_data now stamp = rejected)
    /\ ((List.length band_data < 6)%nat ->
          detect_hihat self band_data now stamp = rejected)
    /\ (forall band_index,
          (Z.of_nat (List.length band_data) <= band_index)%Z ->
          detect_band_transient self band_data band_index now stamp
          = Some rejected).
Proof.
  intros self band_data now stamp rejected. subst rejected.
  unfold detect_kick, detect_snare, detect_hihat, detect_band_transient, Py.len.
  repeat split.
  - intros L. destruct (Z.ltb_spec (Z.of_nat (List.length band_data)) 2); [reflexivity|lia].
  - intros L. destruct (Z.ltb_spec (Z.of_nat (List.length band_data)) 4); [reflexivity|lia].
  - intros L. destruct (Z.ltb_spec (Z.of_nat (List.length band_data)) 6); [reflexivity|lia].
  - intros band_index L.
    destruct (Py.ltb _ _); [reflexivity|].
    destruct (Z.leb_spec (Z.of_nat (List.length band_data)) band_index); [reflexivity|lia].
Qed.

(** C10 on a one-entry band vector, index 1. *)
Lemma out_of_shape_rejected_witness :
  let self := init (3 # 10) (5 # 10) 100 in
  let rejected := (self, {| triggered := false; strength := 0; time := 7;
                            r_threshold := 3 # 10 |}, []) in
  detect_kick self [1] 5 7 = rejected
  /\ detect_snare self [1] 5 7 = rejected
  /\ detect_hihat self [1] 5 7 = rejected
  /\ detect_band_transient self [1] 1 5 7 = Some rejected.
Proof.
  intros self rejected.
  destruct (out_of_shape_rejected self [1] 5 7) as (K & S & H & B).
  split; [|split; [|split]].
  - apply K. cbn. lia.
  - apply S. cbn. lia.
  - apply H. cbn. lia.
  - apply B. cbn. lia.
Defined.

End Debounce.

(** ** Callback registration (C9) *)

Section Callbacks.

Import Detector.

Lemma registered_In self cb :
  registered self cb = true <-> In cb (on_transient_callbacks self).
Proof.
  unfold registered. rewrite existsb_exists. split.
  - intros (c & Hin & E). apply Nat.eqb_eq in E. now subst.
  - intros Hin. exists cb. split; [assumption|apply Nat.eqb_refl].
Qed.

Lemma list_remove_In cb c cbs : In c (list_remove cb cbs) -> In c cbs.
Proof.
  induction cbs as [|x cbs IH]; cbn; [tauto|].
  destruct (Nat.eqb cb x); cbn; intuition.
Qed.

Lemma list_remove_NoDup cb cbs : NoDup cbs -> NoDup (list_remove cb cbs).
Proof.
  induction 1 as [|x cbs Hx Hnd IH]; cbn; [constructor|].
  destruct (Nat.eqb cb x); [assumption|].
  constructor; [|assumption].
  intros Hin. apply Hx. eapply list_remove_In; eassumption.
Qed.

(** No callback is ever listed twice. *)
Lemma reachable_NoDup self :
  reachable self -> NoDup (on_transient_callbacks self).
Proof.
  induction 1 as [T S M|self c now stamp self' r fired _ IH H| self cb _ IH
                  |self cb _ IH| | | |]; cbn; try assumption.
  - constructor.
  - destruct (evaluate_config _ _ _ _ _ _ _ H) as (_ & _ & _ & ->). assumption.
  - unfold add_callback. destruct (registered self cb) eqn:R; cbn; [assumption|].
    apply NoDup_app; [assumption|repeat constructor; intros []|].
    intros x Hx [<-|[]]. apply registered_In in Hx. congruence.
  - unfold remove_callback. destruct (registered self cb); cbn; [|assumption].
    now apply list_remove_NoDup.
Qed.

Lemma add_callback_registered self cb :
  In cb (on_transient_callbacks (add_callback self cb)).
Proof.
  unfold add_callback. destruct (registered self cb) eqn:R; cbn.
  - now apply registered_In.
  - apply in_or_app. right. now left.
Qed.

Lemma add_callback_again self cb :
  In cb (on_transient_callbacks self) -> add_callback self cb = self.
Proof.
  intros Hin. apply registered_In in Hin. unfold add_callback. now rewrite Hin.
Qed.

Lemma add_callback_iter self cb n :
  Nat.iter (S n) (fun d => add_callback d cb) self = add_callback self cb.
Proof.
  induction n as [|n IH]; [reflexivity|].
  change (Nat.iter (S (S n)) (fun d => add_callback d cb) self)
    with (add_callback (Nat.iter (S n) (fun d => add_callback d cb) self) cb).
  rewrite IH. apply add_callback_again, add_callback_registered.
Qed.

Lemma count_once (cb : callback) cbs :
  NoDup cbs -> In cb cbs ->
  List.length (filter (fun c => Nat.eqb c cb) cbs) = 1%nat.
Proof.
  induction 1 as [|x cbs Hx Hnd IH]; cbn; [tauto|].
  intros [->|Hin].
  - rewrite Nat.eqb_refl. cbn. f_equal.
    clear IH Hnd. induction cbs as [|y cbs IH]; [reflexivity|].
    cbn. destruct (Nat.eqb_spec y cb) as [->|_].
    + exfalso. apply Hx. now left.
    + apply IH. intros Hin. apply Hx. now right.
  - destruct (Nat.eqb_spec x cb) as [->|_]; [contradiction|]. now apply IH.
Qed.

Lemma calls_of_map cb fired :
  calls_of cb fired
  = List.length (filter (fun c => Nat.eqb c cb) (map inv_callback fired)).
Proof.
  unfold calls_of. induction fired as [|i fired IH]; [reflexivity|].
  cbn. destruct (Nat.eqb (inv_callback i) cb); cbn; now rewrite IH.
Qed.

(** C9.  Callback registration is idempotent: [add_callback] of a callback
    that is already registered leaves the detector unchanged, and so does
    [remove_callback] of one that is not.  On any detector a program can
    hold, a callback added any number of times (at least once) is called
    exactly once by an evaluation that triggers, and not at all by one that
    does not. *)
Theorem callback_registration_idempotent :
  forall self cb,
    (In cb (on_transient_callbacks self) -> add_callback self cb = self)
    /\ (~ In cb (on_transient_callbacks self) -> remove_callback self cb = self)
    /\ (reachable self ->
        forall n, (0 < n)%nat ->
        forall c now stamp self' r fired,
          evaluate (Nat.iter n (fun d => add_callback d cb) self) c now stamp
          = Some (self', r, fired) ->
          calls_of cb fired = if triggered r then 1%nat else 0%nat).
Proof.
  intros self cb. split; [|split].
  - apply add_callback_again.
  - intros Hn. unfold remove_callback.
    destruct (registered self cb) eqn:R; [|reflexivity].
    apply registered_In in R. contradiction.
  - intros Hr n Hn c now stamp self' r fired H.
    destruct n as [|n]; [lia|]. rewrite add_callback_iter in H.
    rewrite calls_of_map, (evaluate_fired _ _ _ _ _ _ _ H).
    destruct (triggered r); [|reflexivity].
    apply count_once.
    + apply reachable_NoDup. now constructor.
    + apply add_callback_registered.
Qed.

(** C9 on a fresh detector: callback 7 added three times, then a kick that
    triggers. *)
Lemma callback_registration_idempotent_witness :
  let self := add_callback (init (3 # 10) (5 # 10) 100) 7%nat in
  let self3 := Nat.iter 3 (fun d => add_callback d 7%nat) self in
  add_callback self 7%nat = self
  /\ remove_callback self 8%nat = self
  /\ calls_of 7%nat (snd (detect_kick self3 [1; 1] 1000 1000)) = 1%nat.
Proof.
  intros self self3.
  destruct (callback_registration_idempotent self 7%nat) as (A & _ & F).
  destruct (callback_registration_idempotent self 8%nat) as (_ & R & _).
  split; [|split].
  - apply A. cbn. auto.
  - apply R. cbn. intros [E|[]]. discriminate E.
  - apply (F (reach_add _ _ (reach_init _ _ _)) 3%nat (Nat.lt_0_succ 2)
             (Kick [1; 1]) 1000 1000
             (fst (fst (detect_kick self3 [1; 1] 1000 1000)))
             (snd (fst (detect_kick self3 [1; 1] 1000 1000)))).
    reflexivity.
Defined.

End Callbacks.

(** ** The analyzer on absent or empty input (C6) *)

Section EmptyInput.

Import Analyzer.

(** C6.  On an absent ([None]) or empty (no samples or no channels) input,
    [analyze_chop] returns a frame whose spectrum is [frequency_bin_count]
    zeros, whose rms, peak and envelope are 0 and whose band vectors are 8,
    16 and 32 zeros, and it leaves the analyzer (smoothed spectrum, envelope,
    levels, histories) unchanged. *)
Theorem empty_input_zero_frame :
  forall sqrt self chop_reference,
    absent_or_empty chop_reference ->
    let '(self', frame) := analyze_chop sqrt self chop_reference in
    self' = self
    /\ a_frequency_data frame = repeat 0 (Z.to_nat (frequency_bin_count self))
    /\ List.length (a_frequency_data frame) = Z.to_nat (frequency_bin_count self)
    /\ a_rms frame = 0 /\ a_peak frame = 0 /\ a_envelope frame = 0
    /\ band8 (a_bands frame) = repeat 0 8
    /\ band16 (a_bands frame) = repeat 0 16
    /\ band32 (a_bands frame) = repeat 0 32.
Proof.
  intros sqrt self chop_reference E.
  assert (H : analyze_chop sqrt self chop_reference = (self, _get_empty_analysis self)).
  { destruct chop_reference as [chop|]; [|reflexivity].
    cbn in E. unfold analyze_chop.
    destruct E as [-> | ->]; [reflexivity|].
    rewrite orb_true_r. reflexivity. }
  rewrite H. cbn. unfold Py.replicate.
  rewrite repeat_length. repeat split; reflexivity.
Qed.

(** C6 on a CHOP with one channel and no samples, after one tick of real
    input. *)
Lemma empty_input_zero_frame_witness :
  let chop := chop_of [0; 6 # 10] in
  let empty := {| numSamples := 0; numChans := 1; sample := fun _ _ => 0 |} in
  let self := fst (analyze_chop sqrt_approx (init 4 0) (Some chop)) in
  analyze_chop sqrt_approx self (Some empty)
  = (self,
     {| a_frequency_data := [0; 0]; a_rms := 0; a_peak := 0; a_envelope := 0;
        a_bands := {| band8 := repeat 0 8; band16 := repeat 0 16;
                      band32 := repeat 0 32 |} |}).
Proof.
  intros chop empty self.
  pose proof (empty_input_zero_frame sqrt_approx self (Some empty)
                (or_introl eq_refl)) as H.
  destruct (analyze_chop sqrt_approx self (Some empty)) as [self' frame].
  destruct H as (-> & F & _ & R & P & E & B8 & B16 & B32).
  destruct frame as [fd rms peak env [b8 b16 b32]]. cbn in *.
  subst. reflexivity.
Defined.

End EmptyInput.

(** ** Attack and release tick counts (C7) *)

Section AttackRelease.

Import Analyzer.

Lemma int_truncate (x : Q) : Py.int x = Py.truncate x.
Proof.
  destruct x as [n d]. unfold Py.int, Py.truncate, Qle_bool, Qceiling, Qfloor.
  cbn [Qnum Qden Qopp].
  rewrite Z.mul_0_l, Z.mul_1_r.
  destruct (Z.leb_spec 0 n) as [H|H].
  - apply Z.quot_div_nonneg; lia.
  - rewrite <- (Z.opp_involutive n) at 1.
    rewrite Z.quot_opp_l by lia.
    f_equal. apply Z.quot_div_nonneg; lia.
Qed.

Lemma int_floor (x : Q) : 0 <= x -> Py.int x = Qfloor x.
Proof.
  intros H. rewrite int_truncate. unfold Py.truncate.
  destruct (Qle_bool 0 x) eqn:E; [reflexivity|].
  apply Qle_bool_iff in H. congruence.
Qed.

Lemma abs_spec (x : Q) : (0 <= x -> Py.abs x == x) /\ (x <= 0 -> Py.abs x == - x)
                         /\ 0 <= Py.abs x.
Proof.
  unfold Py.abs. destruct (Py.ltb x 0) eqn:E.
  - apply ltb_lt in E. repeat split; intros; lra.
  - assert (0 <= x).
    { apply Qnot_lt_le. intros L. apply ltb_lt in L. congruence. }
    repeat split; intros; lra.
Qed.

(** [round] is within one half of its argument. *)
Lemma round_error (x : Q) :
  x - (1 # 2) <= inject_Z (Py.round x) <= x + (1 # 2).
Proof.
  unfold Py.round. pose proof (Qfloor_le x) as Lo. pose proof (Qlt_floor x) as Hi.
  rewrite inject_Z_plus in Hi. change (inject_Z 1) with 1 in Hi.
  destruct (Qcompare (x - inject_Z (Qfloor x)) (1 # 2)) eqn:C.
  - apply Qeq_alt in C. destruct (Z.even (Qfloor x)).
    + lra.
    + rewrite inject_Z_plus. change (inject_Z 1) with 1. lra.
  - apply Qlt_alt in C. lra.
  - apply Qgt_alt in C. rewrite inject_Z_plus. change (inject_Z 1) with 1. lra.
Qed.

Lemma pow2_pos (z : Z) : 0 < 2 ^ z.
Proof. apply Qpower_0_lt. reflexivity. Qed.

(** [2 ^ exponent a] does not exceed a positive [a]. *)
Lemma exponent_le (a : Q) : 0 < a -> 2 ^ Py.exponent a <= a.
Proof.
  intros Ha. unfold Py.exponent.
  set (ln := Z.log2 (Qnum a)). set (ld := Z.log2 (Zpos (Qden a))).
  destruct (Qle_bool (2 ^ (ln - ld - 1 + 1)) a) eqn:B.
  - apply Qle_bool_iff in B. exact B.
  - clear B. destruct a as [n d]. cbn [Qnum Qden] in *.
    assert (Hn : (0 < n)%Z).
    { unfold Qlt in Ha. cbn in Ha. lia. }
    pose proof (Z.log2_spec n Hn) as (Ln & _). fold ln in Ln.
    pose proof (Z.log2_spec (Zpos d) (Pos2Z.is_pos d)) as (_ & Ud). fold ld in Ud.
    assert (Hln : (0 <= ln)%Z) by apply Z.log2_nonneg.
    assert (Hld : (0 <= ld)%Z) by apply Z.log2_nonneg.
    replace (ln - ld - 1)%Z with (ln - (ld + 1))%Z by lia.
    rewrite Qpower_minus by discriminate.
    apply Qle_shift_div_r; [apply pow2_pos|].
    assert (Qn : 2 ^ ln <= inject_Z n).
    { change 2 with (inject_Z 2). rewrite <- Zpower_Qpower by lia.
      rewrite <- Zle_Qle. exact Ln. }
    assert (Qd : inject_Z (Zpos d) <= 2 ^ (ld + 1)).
    { change 2 with (inject_Z 2). rewrite <- Zpower_Qpower by lia.
      rewrite <- Zle_Qle. unfold Z.succ in Ud. lia. }
    assert (E : n # d == inject_Z n / inject_Z (Zpos d)) by apply Qmake_Qdiv.
    rewrite E.
    assert (Dp : 0 < inject_Z (Zpos d)) by reflexivity.
    assert (Np : 0 < inject_Z n).
    { change 0 with (inject_Z 0). rewrite <- Zlt_Qlt. exact Hn. }
    pose proof (pow2_pos ln). pose proof (pow2_pos (ld + 1)).
    apply Qle_trans with (inject_Z n / inject_Z (Zpos d) * inject_Z (Zpos d)).
    + setoid_replace (inject_Z n / inject_Z (Zpos d) * inject_Z (Zpos d))
        with (inject_Z n) by (field; lra).
      exact Qn.
    + apply Qmult_le_l; [|exact Qd].
      apply Qlt_shift_div_l; lra.
Qed.

(** Rounding to a double moves a value by at most 2^-53 of its size, or by
    2^-1075 where the doubles are no finer. *)
Lemma to_double_error (q : Q) :
  let err := Py.abs q * 2 ^ (-53) + 2 ^ (-1075) in
  q - err <= Py.to_double q <= q + err.
Proof.
  cbv zeta. unfold Py.to_double.
  destruct (abs_spec q) as (Apos & Aneg & A0).
  pose proof (pow2_pos (-53)) as P53. pose proof (pow2_pos (-1075)) as P1075.
  destruct (Qeq_bool q 0) eqn:Z.
  { apply Qeq_bool_iff in Z. nra. }
  apply Qeq_bool_neq in Z.
  set (a := Py.abs q) in *.
  assert (Ha : 0 < a).
  { destruct (Qlt_le_dec 0 q) as [L|L].
    - rewrite (Apos (Qlt_le_weak _ _ L)). exact L.
    - rewrite (Aneg L). assert (~ q == 0) by exact Z. lra. }
  pose proof (exponent_le a Ha) as Ea.
  set (e := Py.exponent a) in *.
  set (qe := Z.max (e - 52) (-1074)).
  pose proof (pow2_pos qe) as Pq.
  pose proof (round_error (a / 2 ^ qe)) as (Rlo & Rhi).
  set (m := inject_Z (Py.round (a / 2 ^ qe))) in *.
  assert (Half : 2 ^ qe * (1 # 2) <= a * 2 ^ (-53) + 2 ^ (-1075)).
  { unfold qe. destruct (Z.max_spec (e - 52) (-1074)) as [(_ & ->)|(_ & ->)].
    - change (2 ^ (-1074) * (1 # 2)) with (2 ^ (-1075) * 1). nra.
    - replace (e - 52)%Z with (e + (-53) + 1)%Z by lia.
      rewrite !Qpower_plus by discriminate.
      change (2 ^ 1) with 2. nra. }
  assert (V : a - 2 ^ qe * (1 # 2) <= m * 2 ^ qe <= a + 2 ^ qe * (1 # 2)).
  { assert (E : a == a / 2 ^ qe * 2 ^ qe) by (field; lra).
    set (x := a / 2 ^ qe) in *. clearbody x m. nra. }
  clearbody m a. clear Rlo Rhi Ea.
  destruct (Py.ltb q 0) eqn:S.
  - apply ltb_lt in S. pose proof (Aneg (Qlt_le_weak _ _ S)). lra.
  - assert (0 <= q).
    { apply Qnot_lt_le. intros L. apply ltb_lt in L. congruence. }
    pose proof (Apos H). lra.
Qed.

Lemma mul_bound (x y X Y : Q) :
  - X <= x <= X -> - Y <= y <= Y -> - (X * Y) <= x * y <= X * Y.
Proof. intros Hx Hy. nra. Qed.

Lemma abs_bound (q B : Q) : - B <= q <= B -> Py.abs q <= B.
Proof.
  intros H. destruct (abs_spec q) as (P & N & _).
  destruct (Qlt_le_dec q 0) as [L|L].
  - rewrite (N (Qlt_le_weak _ _ L)). lra.
  - rewrite (P L). lra.
Qed.

(** The rounding error for a value of size at most [B]. *)
Lemma to_double_bounded_error (q B : Q) :
  - B <= q <= B ->
  - (B * (1 # 9007199254740992) + (1 # 1152921504606846976))
  <= Py.to_double q - q
  <= B * (1 # 9007199254740992) + (1 # 1152921504606846976).
Proof.
  intros H. pose proof (abs_bound q B H) as A.
  pose proof (to_double_error q) as E. cbv zeta in E.
  assert (U : 2 ^ (-53) == 1 # 9007199254740992) by reflexivity.
  assert (N : 2 ^ (-1075) <= 1 # 1152921504606846976).
  { change (1 # 1152921504606846976) with (2 ^ (-60)).
    apply Qpower_le_compat_l; [lia | lra]. }
  rewrite U in E. destruct (abs_spec q) as (_ & _ & A0).
  set (a := Py.abs q) in *. set (n := 2 ^ (-1075)) in *.
  clearbody a n. nra.
Qed.

(** For times and rates of size up to 2^20 the double product is within
    2^-16 of the exact one. *)
Lemma double_product_error (ms fps : Q) :
  - 1048576 <= ms <= 1048576 -> - 1048576 <= fps <= 1048576 ->
  ms / 1000 * fps - (1 # 65536)
  <= double_product ms fps
  <= ms / 1000 * fps + (1 # 65536).
Proof.
  intros Hm Hf. unfold double_product, Py.fmul, Py.fdiv.
  pose proof (to_double_bounded_error ms 1048576 Hm) as E1.
  set (d1 := Py.to_double ms) in *.
  assert (B2 : - 2048 <= d1 / 1000 <= 2048).
  { unfold Qdiv. change (/ 1000) with (1 # 1000). lra. }
  pose proof (to_double_bounded_error _ 2048 B2) as E2.
  set (d2 := Py.to_double (d1 / 1000)) in *.
  pose proof (to_double_bounded_error fps 1048576 Hf) as E3.
  set (d3 := Py.to_double fps) in *.
  assert (D2 : - 4096 <= d2 <= 4096) by lra.
  assert (D3 : - 2097152 <= d3 <= 2097152) by lra.
  pose proof (mul_bound d2 d3 4096 2097152 D2 D3) as B4.
  pose proof (to_double_bounded_error _ _ B4) as E4.
  set (dp := Py.to_double (d2 * d3)) in *.
  assert (X : d2 * d3 - ms / 1000 * fps
              == (ms / 1000) * (d3 - fps) + (d2 - ms / 1000) * d3) by field.
  assert (M1 : - 2048 <= ms / 1000 <= 2048).
  { unfold Qdiv. change (/ 1000) with (1 # 1000). lra. }
  assert (G3 : - (1 # 4294967296) <= d3 - fps <= 1 # 4294967296) by lra.
  pose proof (mul_bound _ _ 2048 (1 # 4294967296) M1 G3) as P1.
  assert (G2 : - (1 # 1099511627776) <= d2 - ms / 1000 <= 1 # 1099511627776).
  { unfold Qdiv in *. change (/ 1000) with (1 # 1000) in *. lra. }
  pose proof (mul_bound _ _ (1 # 1099511627776) 2097152 G2 D3) as P2.
  set (p1 := ms / 1000 * (d3 - fps)) in *.
  set (p2 := (d2 - ms / 1000) * d3) in *.
  set (x := d2 * d3) in *. set (e := ms / 1000 * fps) in *.
  clearbody dp x e p1 p2. clear - X P1 P2 E4. lra.
Qed.

Lemma max_truncate_floor (x : Q) :
  Z.max 1 (Py.truncate x) = Z.max 1 (Qfloor x).
Proof.
  unfold Py.truncate. destruct (Qle_bool 0 x) eqn:E; [reflexivity|].
  assert (L : x < 0).
  { apply Qnot_le_lt. intros H. apply Qle_bool_iff in H. congruence. }
  assert (F : (Qfloor x <= 0)%Z).
  { change 0%Z with (Qfloor 0). apply Qfloor_resp_le. lra. }
  assert (C : (Qfloor (- x) >= 0)%Z).
  { apply Z.le_ge. change 0%Z with (Qfloor 0). apply Qfloor_resp_le. lra. }
  unfold Qceiling. lia.
Qed.

(** C7, as the code has it.  [set_attack_release] sets the two tick counts to
    [max(1, trunc(p))], where [p] is the product [(ms / 1000.0) * fps] as
    double arithmetic computes it, each operation rounded to the nearest
    double, and [trunc] drops the fractional part (floor of a non-negative
    product, ceiling of a negative one); it does not round to nearest.  Both
    counts are at least 1; for times and rates of size up to 2^20 each count
    lies between the floors of the exact product less 2^-16 and plus 2^-16
    (never below 1), so it is the truncated exact product or the integer next
    to it; and nothing else in the analyzer changes. *)
Theorem set_attack_release_truncates :
  forall self attack_ms release_ms fps,
    representable attack_ms fps ->
    representable release_ms fps ->
    let self' := set_attack_release self attack_ms release_ms fps in
    attack_frames self'
    = Z.max 1 (Py.truncate
                 (Py.to_double
                    (Py.to_double (Py.to_double attack_ms / 1000)
                     * Py.to_double fps)))
    /\ release_frames self'
       = Z.max 1 (Py.truncate
                    (Py.to_double
                       (Py.to_double (Py.to_double release_ms / 1000)
                        * Py.to_double fps)))
    /\ (1 <= attack_frames self')%Z /\ (1 <= release_frames self')%Z
    /\ (- 1048576 <= fps <= 1048576 ->
        (- 1048576 <= attack_ms <= 1048576 ->
         (Z.max 1 (Qfloor (attack_ms / 1000 * fps - (1 # 65536)))
          <= attack_frames self'
          <= Z.max 1 (Qfloor (attack_ms / 1000 * fps + (1 # 65536))))%Z)
        /\ (- 1048576 <= release_ms <= 1048576 ->
            (Z.max 1 (Qfloor (release_ms / 1000 * fps - (1 # 65536)))
             <= release_frames self'
             <= Z.max 1 (Qfloor (release_ms / 1000 * fps + (1 # 65536))))%Z))
    /\ frequency_data self' = frequency_data self
    /\ envelope_value self' = envelope_value self
    /\ rms_history self' = rms_history self
    /\ peak_history self' = peak_history self
    /\ fft_size self' = fft_size self
    /\ smoothing_time_constant self' = smoothing_time_constant self.
Proof.
  intros self attack_ms release_ms fps _ _. cbn.
  rewrite !int_truncate.
  assert (Near : forall ms,
             - 1048576 <= fps <= 1048576 -> - 1048576 <= ms <= 1048576 ->
             (Z.max 1 (Qfloor (ms / 1000 * fps - (1 # 65536)))
              <= Z.max 1 (Py.truncate (double_product ms fps))
              <= Z.max 1 (Qfloor (ms / 1000 * fps + (1 # 65536))))%Z).
  { intros ms Hf Hm. rewrite max_truncate_floor.
    destruct (double_product_error ms fps Hm Hf) as (Lo & Hi).
    apply Qfloor_resp_le in Lo, Hi. lia. }
  split; [reflexivity|]. split; [reflexivity|].
  split; [lia|]. split; [lia|].
  split; [|repeat split].
  intros Hf. split; intros Hm; apply Near; assumption.
Qed.

(** C7 at 290 ms and 570 ms, 100 ticks per second: the double products are
    28.999999999999996 and 56.99999999999999, so the counts are 28 and 56,
    one less than the truncated exact products 29 and 57. *)
Lemma set_attack_release_truncates_witness :
  let self' := set_attack_release (init 2048 (8 # 10)) 290 570 100 in
  (representable 290 100 /\ representable 570 100)
  /\ (attack_frames self' = 28%Z /\ release_frames self' = 56%Z)
  /\ Py.truncate (290 / 1000 * 100) = 29%Z
  /\ Py.truncate (570 / 1000 * 100) = 57%Z
  /\ (28 <= attack_frames self' <= 29)%Z
  /\ (56 <= release_frames self' <= 57)%Z.
Proof.
  cbv zeta.
  assert (Ra : representable 290 100) by (vm_compute; repeat split; reflexivity).
  assert (Rr : representable 570 100) by (vm_compute; repeat split; reflexivity).
  destruct (set_attack_release_truncates (init 2048 (8 # 10)) 290 570 100 Ra Rr)
    as (A & R & _ & _ & N & _).
  assert (Hf : - 1048576 <= 100 <= 1048576) by (split; discriminate).
  destruct (N Hf) as (Na & Nr).
  assert (Ha : - 1048576 <= 290 <= 1048576) by (split; discriminate).
  assert (Hr : - 1048576 <= 570 <= 1048576) by (split; discriminate).
  split; [split; assumption|].
  split; [split|].
  - rewrite A. vm_compute. reflexivity.
  - rewrite R. vm_compute. reflexivity.
  - split; [reflexivity|]. split; [reflexivity|].
    split; [exact (Na Ha) | exact (Nr Hr)].
Defined.

(** The same at 60 ticks per second: 2050 ms is 123 ticks exactly and the
    double product is 122.99999999999999, so the count is 122. *)
Example set_attack_release_2050_ms :
  attack_frames (set_attack_release (init 2048 (8 # 10)) 2050 100 60) = 122%Z
  /\ 2050 / 1000 * 60 == 123.
Proof. split; vm_compute; reflexivity. Qed.

(** C7 as stated fails: 30 ms at 60 ticks per second is 1.8 ticks, which
    [int] truncates to 1 while [round] gives 2. *)
Lemma set_attack_release_does_not_round :
  let self := set_attack_release (init 2048 (8 # 10)) 30 100 60 in
  attack_frames self = 1%Z
  /\ Z.max 1 (Py.round (30 / 1000 * 60)) = 2%Z
  /\ attack_frames self <> Z.max 1 (Py.round (30 / 1000 * 60)).
Proof.
  cbv zeta. split; [|split]; [vm_compute; reflexivity|reflexivity|].
  vm_compute. discriminate.
Qed.

End AttackRelease.

(** ** Reset against a fresh analyzer (C8) *)

Section ResetFresh.

Import Analyzer.

Variable sqrt : Q -> Q.

Lemma deque_append_maxlen d x : maxlen (Deque.append d x) = maxlen d.
Proof. reflexivity. Qed.

(** What every analyzer a program can hold keeps from its construction. *)
Lemma reachable_shape fft smoothing self :
  reachable sqrt fft smoothing self ->
  fft_size self = fft
  /\ smoothing_time_constant self = smoothing
  /\ frequency_bin_count self = (fft / 2)%Z
  /\ history_size self = 60%nat
  /\ maxlen (rms_history self) = 60%nat
  /\ maxlen (peak_history self) = 60%nat
  /\ (1 <= attack_frames self)%Z
  /\ (1 <= release_frames self)%Z.
Proof.
  induction 1 as [|self chop _ IH|self a r fps _ IH|self _ IH].
  - cbn. repeat split; lia.
  - unfold analyze_chop.
    destruct chop as [chop|]; [|exact IH].
    destruct ((numSamples chop =? 0)%Z || (numChans chop =? 0)%Z); [exact IH|].
    cbn. exact IH.
  - cbn. decompose [and] IH. repeat split; auto; lia.
  - cbn. exact IH.
Qed.

Lemma reset_is_fresh fft smoothing self :
  reachable sqrt fft smoothing self ->
  reset self
  = fresh_with_frames fft smoothing (attack_frames self) (release_frames self).
Proof.
  intros R. destruct (reachable_shape _ _ _ R) as (F & S & B & H & Mr & Mp & _).
  unfold reset, fresh_with_frames, Deque.clear, Deque.new.
  rewrite F, S, B, H, Mr, Mp. reflexivity.
Qed.

(** C8, as the code has it.  [reset] clears the analysis data and keeps the
    envelope tick counts set by [set_attack_release].  So after [reset] an
    analyzer is the freshly constructed one with the same [fft_size] and
    smoothing constant and the same tick counts, and analyzes every next
    input as that one does; it agrees with a plain fresh analyzer when the
    counts are the constructor's 1 and 30, and with a fresh analyzer given
    the same [set_attack_release] call otherwise. *)
Theorem reset_then_analyze_as_fresh :
  forall fft smoothing self chop_reference,
    reachable sqrt fft smoothing self ->
    analyze_chop sqrt (reset self) chop_reference
    = analyze_chop sqrt
        (fresh_with_frames fft smoothing (attack_frames self) (release_frames self))
        chop_reference
    /\ (attack_frames self = 1%Z -> release_frames self = 30%Z ->
        analyze_chop sqrt (reset self) chop_reference
        = analyze_chop sqrt (init fft smoothing) chop_reference)
    /\ (forall attack_ms release_ms fps,
          analyze_chop sqrt
            (reset (set_attack_release self attack_ms release_ms fps))
            chop_reference
          = analyze_chop sqrt
              (set_attack_release (init fft smoothing) attack_ms release_ms fps)
              chop_reference).
Proof.
  intros fft smoothing self chop_reference R. split; [|split].
  - now rewrite (reset_is_fresh _ _ _ R).
  - intros A Rl. rewrite (reset_is_fresh _ _ _ R), A, Rl. reflexivity.
  - intros attack_ms release_ms fps.
    rewrite (reset_is_fresh fft smoothing)
      by (now apply reach_set_attack_release).
    reflexivity.
Qed.

End ResetFresh.

Section ResetFreshExamples.

Import Analyzer.

(** C8 at an analyzer that has seen one tick and had its envelope set to
    100 ms / 100 ms at 60 ticks per second. *)
Lemma reset_then_analyze_as_fresh_witness :
  let self := set_attack_release
                (fst (analyze_chop sqrt_approx (init 4 0) (Some (chop_of [1; 1]))))
                100 100 60 in
  analyze_chop sqrt_approx (reset self) (Some (chop_of [0; 6 # 10]))
  = analyze_chop sqrt_approx (fresh_with_frames 4 0 6 6) (Some (chop_of [0; 6 # 10])).
Proof.
  intros self.
  exact (proj1 (reset_then_analyze_as_fresh sqrt_approx 4 0 self
                  (Some (chop_of [0; 6 # 10]))
                  (reach_set_attack_release _ _ _ _ 100 100 60
                     (reach_analyze _ _ _ _ (Some (chop_of [1; 1]))
                        (reach_init _ _ _))))).
Defined.

(** C8 as stated fails: with the envelope set to 6 attack ticks, a reset
    analyzer moves a sixth of the way to a 0.6 peak (envelope 0.1) while a
    fresh one, with 1 attack tick, jumps to 0.6. *)
Lemma reset_keeps_attack_release :
  let self := set_attack_release (init 4 0) 100 100 60 in
  let chop := Some (chop_of [0; 6 # 10]) in
  reachable sqrt_approx 4 0 self
  /\ a_envelope (snd (analyze_chop sqrt_approx (reset self) chop)) == 1 # 10
  /\ a_envelope (snd (analyze_chop sqrt_approx (init 4 0) chop)) == 6 # 10
  /\ snd (analyze_chop sqrt_approx (reset self) chop)
     <> snd (analyze_chop sqrt_approx (init 4 0) chop).
Proof.
  cbv zeta. split; [|split; [|split]].
  - apply reach_set_attack_release, reach_init.
  - vm_compute. reflexivity.
  - vm_compute. reflexivity.
  - intros E. apply (f_equal a_envelope) in E. vm_compute in E. discriminate E.
Qed.

End ResetFreshExamples.

(** ** Frequency ranges (C4) *)

Section FrequencyRange.

Import Analyzer.

Lemma int_zero (x : Q) : x == 0 -> Py.int x = 0%Z.
Proof.
  intros H. rewrite int_floor by (rewrite H; apply Qle_refl).
  rewrite H. reflexivity.
Qed.

Lemma int_nonpos (x : Q) : x <= 0 -> (Py.int x <= 0)%Z.
Proof.
  intros H. rewrite int_truncate. unfold Py.truncate.
  destruct (Qle_bool 0 x) eqn:E.
  - apply Qle_bool_iff in E. change 0%Z with (Qfloor 0).
    apply Qfloor_resp_le. assumption.
  - unfold Qceiling.
    assert (Qfloor 0 <= Qfloor (- x))%Z by (apply Qfloor_resp_le; lra).
    change (Qfloor 0) with 0%Z in *. lia.
Qed.

Lemma int_ge (x : Q) (n : Z) : (0 <= n)%Z -> inject_Z n <= x -> (n <= Py.int x)%Z.
Proof.
  intros Hn H.
  assert (0 <= x). { apply Qle_trans with (inject_Z n); [|assumption].
                     change 0 with (inject_Z 0). rewrite <- Zle_Qle. assumption. }
  rewrite int_floor by assumption.
  rewrite <- (Qfloor_Z n). apply Qfloor_resp_le. assumption.
Qed.

Lemma sum_singleton (x : Q) : Py.sum [x] == x.
Proof. unfold Py.sum. cbn. lra. Qed.

Lemma skipn_last {A} (d : A) (xs : list A) :
  xs <> [] -> skipn (List.length xs - 1) xs = [last xs d].
Proof.
  induction xs as [|x xs IH]; [congruence|]. intros _.
  destruct xs as [|y xs]; [reflexivity|].
  cbn [List.length]. replace (S (S (List.length xs)) - 1)%nat with (S (List.length xs)) by lia.
  cbn [skipn]. specialize (IH ltac:(discriminate)).
  cbn [List.length] in IH. replace (S (List.length xs) - 1)%nat with (List.length xs) in IH by lia.
  rewrite IH. reflexivity.
Qed.

Lemma slice_last (xs : list Q) :
  xs <> [] -> Py.slice xs (Py.len xs - 1) (Py.len xs) = [last xs 0].
Proof.
  intros H. unfold Py.slice, Py.clamp_index, Py.len.
  assert (0 < List.length xs)%nat by (destruct xs; [congruence|cbn; lia]).
  destruct (Z.ltb_spec (Z.of_nat (List.length xs) - 1) 0); [lia|].
  destruct (Z.ltb_spec (Z.of_nat (List.length xs)) 0); [lia|].
  rewrite !Z.min_l by lia.
  replace (Z.to_nat (Z.of_nat (List.length xs) - (Z.of_nat (List.length xs) - 1)))
    with 1%nat by lia.
  replace (Z.to_nat (Z.of_nat (List.length xs) - 1)) with (List.length xs - 1)%nat by lia.
  rewrite (skipn_last 0) by assumption. reflexivity.
Qed.

(** C4, as the code has it.  With a non-zero [fft_size] and sample rate,
    [get_frequency_range(0, 0, sample_rate)] returns 0.  With both positive,
    a range that ends at or below 0 Hz returns 0, while a range lying
    entirely above [sample_rate / 2] is clamped onto the last bin and
    returns that bin's magnitude (the spectrum holding its
    [fft_size // 2 >= 1] bins). *)
Theorem frequency_range_outside :
  forall self min_freq max_freq sample_rate,
    (fft_size self <> 0%Z -> ~ sample_rate == 0 ->
     get_frequency_range self 0 0 sample_rate = Some 0)
    /\ ((0 < fft_size self)%Z -> 0 < sample_rate -> max_freq <= 0 ->
        get_frequency_range self min_freq max_freq sample_rate = Some 0)
    /\ ((2 <= fft_size self)%Z -> 0 < sample_rate ->
        Py.len (frequency_data self) = (fft_size self / 2)%Z ->
        sample_rate / 2 < min_freq -> min_freq <= max_freq ->
        exists v,
          get_frequency_range self min_freq max_freq sample_rate = Some v
          /\ v == last (frequency_data self) 0).
Proof.
  intros self min_freq max_freq sample_rate.
  unfold get_frequency_range.
  set (n := Py.len (frequency_data self)).
  assert (Hn : (0 <= n)%Z) by (unfold n, Py.len; lia).
  split; [|split].
  - intros F S. destruct (Z.eqb_spec (fft_size self) 0); [contradiction|].
    destruct (Qeq_bool _ 0) eqn:E.
    { apply Qeq_bool_iff in E. exfalso. apply S.
      assert (~ inject_Z (fft_size self) == 0).
      { change 0 with (inject_Z 0). rewrite inject_Z_injective. assumption. }
      apply (Qmult_inj_r _ _ (/ inject_Z (fft_size self))).
      - intros Z. apply H. rewrite <- (Qinv_involutive (inject_Z _)), Z. reflexivity.
      - rewrite Qmult_0_l. exact E. }
    rewrite int_zero by (unfold Qdiv; apply Qmult_0_l).
    destruct (Z.leb_spec (Z.max 0 (Z.min 0 n)) (Z.max 0 (Z.min 0 (n - 1))));
      [reflexivity|lia].
  - intros F S M. destruct (Z.eqb_spec (fft_size self) 0); [lia|].
    assert (Ff : 0 < inject_Z (fft_size self)).
    { change 0 with (inject_Z 0). rewrite <- Zlt_Qlt. assumption. }
    assert (P : 0 < sample_rate / inject_Z (fft_size self)).
    { apply Qlt_shift_div_l; [assumption|]. rewrite Qmult_0_l. assumption. }
    destruct (Qeq_bool _ 0) eqn:E.
    { apply Qeq_bool_iff in E. rewrite E in P. exfalso. revert P. apply Qlt_irrefl. }
    assert (E0 : (Py.int (max_freq / (sample_rate / inject_Z (fft_size self))) <= 0)%Z).
    { apply int_nonpos. apply Qle_shift_div_r; [assumption|].
      rewrite Qmult_0_l. assumption. }
    match goal with |- (if (?a <=? ?b)%Z then _ else _) = _ =>
      destruct (Z.leb_spec a b); [reflexivity|lia] end.
  - intros F S L Lo Hi. fold n in L.
    destruct (Z.eqb_spec (fft_size self) 0); [lia|].
    assert (Ff : 0 < inject_Z (fft_size self)).
    { change 0 with (inject_Z 0). rewrite <- Zlt_Qlt. lia. }
    assert (P : 0 < sample_rate / inject_Z (fft_size self)).
    { apply Qlt_shift_div_l; [assumption|]. rewrite Qmult_0_l. assumption. }
    destruct (Qeq_bool _ 0) eqn:E.
    { apply Qeq_bool_iff in E. rewrite E in P. exfalso. revert P. apply Qlt_irrefl. }
    assert (N1 : (1 <= n)%Z).
    { rewrite L. apply Z.div_le_lower_bound; lia. }
    assert (Half : inject_Z n <= inject_Z (fft_size self) / 2).
    { apply Qle_shift_div_l; [reflexivity|].
      change 2 with (inject_Z 2). rewrite <- inject_Z_mult, <- Zle_Qle.
      rewrite L, Z.mul_comm. apply Z.mul_div_le. lia. }
    assert (B : forall f, sample_rate / 2 < f ->
                (n <= Py.int (f / (sample_rate / inject_Z (fft_size self))))%Z).
    { intros f Hf. apply int_ge; [assumption|].
      apply Qle_trans with (inject_Z (fft_size self) / 2); [assumption|].
      apply Qle_shift_div_l; [assumption|].
      apply Qlt_le_weak.
      setoid_replace (inject_Z (fft_size self) / 2 * (sample_rate / inject_Z (fft_size self)))
        with (sample_rate / 2); [assumption|].
      field. intros Z. rewrite Z in Ff. revert Ff. apply Qlt_irrefl. }
    pose proof (B min_freq Lo) as Bs.
    assert (Bs' := B max_freq ltac:(lra)).
    rewrite (Z.min_r _ (n - 1)) by lia. rewrite (Z.min_r _ n) by lia.
    rewrite !Z.max_r by lia.
    destruct (Z.leb_spec n (n - 1)); [lia|].
    eexists. split; [reflexivity|].
    unfold n. rewrite slice_last.
    + rewrite sum_singleton.
      replace (Py.len (frequency_data self) - (Py.len (frequency_data self) - 1))%Z
        with 1%Z by lia.
      change (inject_Z 1) with 1. field.
    + intros Z. unfold n, Py.len in N1. rewrite Z in N1. cbn in N1. lia.
Qed.

(** C4 on the analyzer with [fft_size = 4] after one tick with spectrum
    [0, 1] and no smoothing, at sample rate 4 (Nyquist 2). *)
Lemma frequency_range_outside_witness :
  let self := fst (analyze_chop sqrt_approx (init 4 0) (Some (chop_of [0; 1]))) in
  get_frequency_range self 0 0 4 = Some 0
  /\ get_frequency_range self (-5) (-3) 4 = Some 0
  /\ exists v, get_frequency_range self 3 5 4 = Some v /\ v == 1.
Proof.
  intros self.
  destruct (frequency_range_outside self (-5) (-3) 4) as (Z0 & Below & _).
  destruct (frequency_range_outside self 3 5 4) as (_ & _ & Above).
  split; [|split].
  - apply Z0; [discriminate|intros E; discriminate E].
  - apply Below; [reflexivity|reflexivity|intros E; discriminate E].
  - apply Above; [intros E; discriminate E|reflexivity|reflexivity|reflexivity
                  |intros E; discriminate E].
Defined.

(** C4 as stated fails above Nyquist: with [fft_size = 4] and sample rate 4
    the range 3..5 Hz lies entirely above [sample_rate / 2 = 2], yet the
    analyzer returns the magnitude 1 of its last bin.  (And at sample rate 0
    the call divides by zero instead of returning.) *)
Lemma frequency_range_above_nyquist_is_last_bin :
  let self := fst (analyze_chop sqrt_approx (init 4 0) (Some (chop_of [0; 1]))) in
  reachable sqrt_approx 4 0 self
  /\ frequency_data self = [0; 1]
  /\ 4 / 2 < 3
  /\ get_frequency_range self 3 5 4 = Some 1
  /\ ~ 1 == 0
  /\ get_frequency_range self 0 0 0 = None.
Proof.
  cbv zeta. split; [|split; [|split; [|split; [|split]]]].
  - apply reach_analyze, reach_init.
  - reflexivity.
  - reflexivity.
  - reflexivity.
  - intros E. discriminate E.
  - reflexivity.
Qed.

End FrequencyRange.

(** ** Band energies (C5) *)

Section BandPartition.

Import Analyzer.

Lemma firstn_plus {A} (a c : nat) (l : list A) :
  firstn a l ++ firstn c (skipn a l) = firstn (a + c) l.
Proof.
  revert l. induction a as [|a IH]; intros l; [reflexivity|].
  destruct l as [|x l]; cbn.
  - now rewrite firstn_nil.
  - now rewrite IH.
Qed.

(** Consecutive slices between the points of a non-decreasing sequence that
    starts at 0 rebuild the prefix they cover. *)
Lemma concat_groups {A} (beta : nat -> nat) (l : list A) (m : nat) :
  beta 0%nat = 0%nat ->
  (forall k, (k < m)%nat -> (beta k <= beta (S k))%nat) ->
  concat (map (fun k => firstn (beta (S k) - beta k) (skipn (beta k) l)) (seq 0 m))
  = firstn (beta m) l.
Proof.
  intros B0. induction m as [|m IH]; intros Mono.
  - cbn. now rewrite B0.
  - rewrite seq_S, map_app, concat_app, IH by (intros; apply Mono; lia).
    cbn [map concat Nat.add]. rewrite app_nil_r, firstn_plus.
    f_equal. specialize (Mono m ltac:(lia)). lia.
Qed.

Lemma slice_between {A} (l : list A) (a b : Z) :
  (0 <= a <= b)%Z -> (b <= Py.len l)%Z ->
  Py.slice l a b = firstn (Z.to_nat b - Z.to_nat a) (skipn (Z.to_nat a) l)
  /\ Py.len (Py.slice l a b) = (b - a)%Z.
Proof.
  intros Hab Hb. unfold Py.slice, Py.clamp_index.
  destruct (Z.ltb_spec a 0); [lia|]. destruct (Z.ltb_spec b 0); [lia|].
  rewrite !Z.min_l by lia. rewrite Z2Nat.inj_sub by lia.
  split; [reflexivity|].
  unfold Py.len in *. rewrite length_firstn, length_skipn. lia.
Qed.

Section Boundaries.

Variables (n num_bands : Z).
Hypothesis Hn : (0 <= n)%Z.
Hypothesis Hb : (0 < num_bands)%Z.

Lemma ratio_nonneg : 0 <= bins_per_band n num_bands.
Proof.
  unfold bins_per_band. apply Qle_shift_div_l.
  - change 0 with (inject_Z 0). rewrite <- Zlt_Qlt. assumption.
  - rewrite Qmult_0_l. change 0 with (inject_Z 0). rewrite <- Zle_Qle. assumption.
Qed.

Lemma boundary_floor i :
  (0 <= i)%Z ->
  band_boundary n num_bands i = Qfloor (bins_per_band n num_bands * inject_Z i).
Proof.
  intros Hi. unfold band_boundary. apply int_floor.
  apply Qmult_le_0_compat; [apply ratio_nonneg|].
  change 0 with (inject_Z 0). rewrite <- Zle_Qle. assumption.
Qed.

Lemma boundary_first : band_boundary n num_bands 0 = 0%Z.
Proof. unfold band_boundary. apply int_zero. apply Qmult_0_r. Qed.

Lemma boundary_last : band_boundary n num_bands num_bands = n.
Proof.
  rewrite boundary_floor by lia.
  assert (E : bins_per_band n num_bands * inject_Z num_bands == inject_Z n).
  { unfold bins_per_band. field.
    change 0 with (inject_Z 0). rewrite inject_Z_injective. lia. }
  rewrite E. apply Qfloor_Z.
Qed.

Lemma boundary_mono i j :
  (0 <= i <= j)%Z -> (band_boundary n num_bands i <= band_boundary n num_bands j)%Z.
Proof.
  intros H. rewrite !boundary_floor by lia. apply Qfloor_resp_le.
  rewrite !(Qmult_comm (bins_per_band n num_bands)).
  apply Qmult_le_compat_r; [|apply ratio_nonneg].
  rewrite <- Zle_Qle. lia.
Qed.

Lemma boundary_nonneg i : (0 <= i)%Z -> (0 <= band_boundary n num_bands i)%Z.
Proof.
  intros H. rewrite <- boundary_first. apply boundary_mono. lia.
Qed.

Lemma boundary_le_n i :
  (0 <= i <= num_bands)%Z -> (band_boundary n num_bands i <= n)%Z.
Proof.
  intros H. rewrite <- boundary_last at 2. apply boundary_mono. lia.
Qed.

(** With at least as many bins as bands every step is at least one bin. *)
Lemma boundary_strict i :
  (num_bands <= n)%Z -> (0 <= i)%Z ->
  (band_boundary n num_bands i < band_boundary n num_bands (i + 1))%Z.
Proof.
  intros Hnb Hi. rewrite !boundary_floor by lia.
  set (ratio := bins_per_band n num_bands).
  assert (Q1 : 1 <= ratio).
  { unfold ratio, bins_per_band. apply Qle_shift_div_l.
    - change 0 with (inject_Z 0). rewrite <- Zlt_Qlt. assumption.
    - rewrite Qmult_1_l, <- Zle_Qle. assumption. }
  assert (S : inject_Z (Qfloor (ratio * inject_Z i) + 1) <= ratio * inject_Z (i + 1)).
  { rewrite !inject_Z_plus. pose proof (Qfloor_le (ratio * inject_Z i)).
    change (inject_Z 1) with 1.
    setoid_replace (ratio * (inject_Z i + 1)) with (ratio * inject_Z i + ratio)
      by ring.
    lra. }
  apply Qfloor_resp_le in S. rewrite Qfloor_Z in S. lia.
Qed.

End Boundaries.

(** C5, as the code has it.  [_calculate_bands(num_bands)] cuts the spectrum
    of [n] bins at the indices [floor(n / num_bands * i)], [i = 0 ..
    num_bands]: they start at 0, end at [n], never decrease, and the groups
    between consecutive indices, concatenated, are the spectrum.  Band [k] is
    the average of group [k], and 0 when the group is empty.  A group is
    empty only when there are fewer bins than bands: with [n >= num_bands]
    every group holds at least one bin.  In particular with 10 bins and 8
    bands the indices are 0, 1, 2, 3, 5, 6, 7, 8, 10 and no group is
    empty. *)
Theorem band_partition :
  forall self num_bands,
    (0 < num_bands)%Z ->
    let spectrum := frequency_data self in
    let n := Py.len spectrum in
    let b := band_boundary n num_bands in
    let group k := Py.slice spectrum (b k) (b (k + 1)%Z) in
    List.length (_calculate_bands self num_bands) = Z.to_nat num_bands
    /\ b 0%Z = 0%Z /\ b num_bands = n
    /\ (forall i, (0 <= i)%Z ->
          b i = Qfloor (inject_Z n / inject_Z num_bands * inject_Z i)
          /\ (b i <= b (i + 1))%Z)
    /\ concat (map group (Py.range num_bands)) = spectrum
    /\ (forall k, (0 <= k < num_bands)%Z ->
          Py.len (group k) = (b (k + 1) - b k)%Z
          /\ nth (Z.to_nat k) (_calculate_bands self num_bands) 0
             = match group k with
               | [] => 0
               | _ :: _ => Py.sum (group k) / inject_Z (Py.len (group k))
               end)
    /\ ((num_bands <= n)%Z ->
        forall k, (0 <= k < num_bands)%Z -> group k <> [])
    /\ (n = 10%Z -> num_bands = 8%Z ->
        map b (Py.range 9) = [0; 1; 2; 3; 5; 6; 7; 8; 10]%Z
        /\ forall k, (0 <= k < 8)%Z -> group k <> []).
Proof.
  intros self num_bands Hb spectrum n b group.
  assert (Hn : (0 <= n)%Z) by (unfold n, Py.len; lia).
  assert (Len : forall k, (0 <= k < num_bands)%Z ->
                  Py.len (group k) = (b (k + 1) - b k)%Z).
  { intros k Hk. apply slice_between.
    - split; [apply boundary_nonneg; lia|apply boundary_mono; lia].
    - apply boundary_le_n; lia. }
  assert (NonEmpty : (num_bands <= n)%Z ->
                     forall k, (0 <= k < num_bands)%Z -> group k <> []).
  { intros Hnb k Hk E. pose proof (Len k Hk) as L. rewrite E in L.
    assert (b k < b (k + 1))%Z by (apply boundary_strict; lia).
    cbn in L. lia. }
  split; [|split; [|split; [|split; [|split; [|split; [|split]]]]]].
  - unfold _calculate_bands, Py.range. now rewrite !length_map, length_seq.
  - apply boundary_first.
  - apply boundary_last; lia.
  - intros i Hi. split; [apply boundary_floor; lia|apply boundary_mono; lia].
  - unfold Py.range. rewrite map_map.
    rewrite (map_ext_in _
               (fun k => firstn (Z.to_nat (b (Z.of_nat (S k))) - Z.to_nat (b (Z.of_nat k)))
                           (skipn (Z.to_nat (b (Z.of_nat k))) spectrum))).
    + rewrite (concat_groups (fun k => Z.to_nat (b (Z.of_nat k)))).
      * unfold b. rewrite Z2Nat.id, boundary_last by lia.
        apply firstn_all2. unfold n, Py.len. lia.
      * unfold b. cbn. rewrite boundary_first. reflexivity.
      * intros k Hk. apply Z2Nat.inj_le.
        -- apply boundary_nonneg; lia.
        -- apply boundary_nonneg; lia.
        -- apply boundary_mono; lia.
    + intros k Hk. apply in_seq in Hk. unfold group.
      replace (Z.of_nat (S k)) with (Z.of_nat k + 1)%Z by lia.
      apply slice_between.
      * split; [apply boundary_nonneg; lia|apply boundary_mono; lia].
      * apply boundary_le_n; lia.
  - intros k Hk. split; [now apply Len|].
    unfold _calculate_bands, Py.range.
    rewrite map_map.
    rewrite (nth_indep _ 0 (band_value spectrum num_bands (Z.of_nat 0)))
      by (rewrite length_map, length_seq; lia).
    rewrite (map_nth (fun x => band_value spectrum num_bands (Z.of_nat x))).
    rewrite seq_nth by lia. cbn [Nat.add]. rewrite Z2Nat.id by lia.
    unfold band_value. fold n. fold b. fold (group k).
    pose proof (Len k Hk) as L.
    destruct (Z.ltb_spec (b k) (b (k + 1)%Z)) as [Lt|Ge].
    + destruct (group k) eqn:G; [cbn in L; lia|]. now rewrite L.
    + destruct (group k) eqn:G; [reflexivity|].
      unfold Py.len in L. cbn [List.length] in L. lia.
  - exact NonEmpty.
  - intros N10 N8. split.
    + unfold b. rewrite N10, N8. reflexivity.
    + intros k Hk. apply NonEmpty; lia.
Qed.

(** C5 on ten bins in eight bands. *)
Lemma band_partition_witness :
  let self := fst (analyze_chop sqrt_approx (init 20 0)
                     (Some (chop_of (repeat 1 10)))) in
  map (band_boundary 10 8) (Py.range 9) = [0; 1; 2; 3; 5; 6; 7; 8; 10]%Z
  /\ List.length (_calculate_bands self 8) = 8%nat.
Proof.
  intros self.
  destruct (band_partition self 8 eq_refl) as (L & _ & _ & _ & _ & _ & _ & T).
  split.
  - apply T; reflexivity.
  - exact L.
Defined.

(** C5 as stated fails at 10 bins and 8 bands: the cut indices are
    0, 1, 2, 3, 5, 6, 7, 8, 10, each group holds one or two bins, and on a
    spectrum of ones all eight band values are 1; none is 0. *)
Lemma ten_bins_eight_bands_no_empty_group :
  let self := fst (analyze_chop sqrt_approx (init 20 0)
                     (Some (chop_of (repeat 1 10)))) in
  reachable sqrt_approx 20 0 self
  /\ frequency_data self = repeat 1 10
  /\ map (band_boundary 10 8) (Py.range 9) = [0; 1; 2; 3; 5; 6; 7; 8; 10]%Z
  /\ map (fun k => List.length
                     (Py.slice (frequency_data self) (band_boundary 10 8 k)
                               (band_boundary 10 8 (k + 1))))
         (Py.range 8) = [1; 1; 1; 2; 1; 1; 1; 2]%nat
  /\ Forall (fun v => v == 1 /\ ~ v == 0) (_calculate_bands self 8).
Proof.
  cbv zeta. split; [|split; [|split; [|split]]].
  - apply reach_analyze, reach_init.
  - reflexivity.
  - reflexivity.
  - reflexivity.
  - vm_compute. repeat constructor; intros E; discriminate E.
Qed.

End BandPartition.

(** ** History and adaptive threshold (C2, C3) *)

Section Adaptive.

Import Detector.

Lemma deque_append_length d x :
  List.length (items (Deque.append d x))
  = Nat.min (List.length (items d) + 1) (maxlen d).
Proof.
  unfold Deque.append. cbn [items].
  rewrite length_skipn, length_app. cbn [List.length]. lia.
Qed.

(** C2, as the code has it.  An evaluation that is not debounced and whose
    input passes the guards of its variant appends the monitored signal to
    the variant's history, whether or not it triggers, and leaves the other
    history alone.  An evaluation stopped by a guard (a short band vector, a
    band index past the end, the first spectral-flux call, which only seeds
    the previous spectrum) appends nothing.  In the energy variant, once the
    history holds more than 10 entries the recomputed threshold is stored,
    and it is the value the result reports as threshold and
    [get_statistics] as current threshold. *)
Theorem effective_evaluation_appends :
  forall self c now stamp self' r fired,
    evaluate self c now stamp = Some (self', r, fired) ->
    (effective self c now = true ->
       history_of self' c = Deque.append (history_of self c) (signal self c)
       /\ (if on_flux c
           then energy_history self' = energy_history self
           else flux_history self' = flux_history self)
       /\ r_threshold r = adaptive_threshold self'
       /\ current_threshold (get_statistics self') = adaptive_threshold self'
       /\ (forall rms_level peak_level,
             c = Energy rms_level peak_level ->
             (10 < Deque.len (energy_history self'))%Z ->
             adaptive_threshold self'
             = mean (energy_history self')
               + threshold self * sensitivity self))
    /\ (effective self c now = false ->
          energy_history self' = energy_history self
          /\ flux_history self' = flux_history self
          /\ adaptive_threshold self' = adaptive_threshold self
          /\ triggered r = false).
Proof.
  intros self c now stamp self' r fired H. split; intros E.
  - pose proof (evaluate_effective _ _ _ _ _ _ _ E H) as F. cbv zeta in F.
    destruct F as (Hh & Ho & _ & _ & Ha & Hr & _).
    repeat split; auto.
    intros rms peak -> L. cbn [history_of on_flux threshold_used] in *.
    rewrite Ha, <- Hh. apply Z.ltb_lt in L. rewrite L. reflexivity.
  - destruct (evaluate_not_effective _ _ _ _ _ _ _ E H)
      as (-> & _ & [->|(fd & _ & _ & _ & ->)]); repeat split; reflexivity.
Qed.

(** C2 on a cold detector: a kick that does not trigger is appended. *)
Lemma effective_evaluation_appends_witness :
  let self := init (3 # 10) (5 # 10) 100 in
  let out := detect_kick self [1 # 10; 1 # 10] 1000 1000 in
  triggered (snd (fst out)) = false
  /\ energy_history (fst (fst out))
     = Deque.append (energy_history self) (kick_energy_of [1 # 10; 1 # 10]).
Proof.
  intros self out. split; [reflexivity|].
  exact (proj1 (proj1 (effective_evaluation_appends self (Kick [1 # 10; 1 # 10])
                         1000 1000 (fst (fst out)) (snd (fst out)) (snd out)
                         eq_refl)
                  eq_refl)).
Defined.

(** C2 as stated fails.  On a cold detector the first spectral-flux call is
    not debounced, yet it only seeds the previous spectrum and appends
    nothing to the flux history.  And a kick evaluation that is appended to
    the history compares against its own threshold without storing it: after
    eleven of them the stored adaptive threshold, which the result and
    [get_statistics] report, is still the constructor's 0.3, while the
    threshold the eleventh one used is the history mean plus 0.15. *)
Lemma evaluation_without_history_or_threshold_update :
  let self := init (3 # 10) (5 # 10) 100 in
  (let out := detect_spectral_flux self [1; 1] 1000 1000 in
   debounced self 1000 = false
   /\ flux_history (fst (fst out)) = flux_history self
   /\ previous_spectrum (fst (fst out)) = [1; 1])
  /\ (let quiet := (Kick [1 # 10; 1 # 10], 1000, 1000) in
      exists self10 rs self11 r,
        run self (repeat quiet 10) = Some (self10, rs)
        /\ debounced self10 1000 = false
        /\ detect_kick self10 [1 # 10; 1 # 10] 1000 1000 = (self11, r, [])
        /\ Deque.len (energy_history self11) = 11%Z
        /\ band_rule self11 == 25 # 100
        /\ adaptive_threshold self11 = 3 # 10
        /\ r_threshold r = 3 # 10
        /\ current_threshold (get_statistics self11) = 3 # 10).
Proof.
  cbv zeta. split.
  - repeat split; reflexivity.
  - do 4 eexists.
    split; [vm_compute; reflexivity|].
    split; [reflexivity|].
    split; [vm_compute; reflexivity|].
    repeat split; try reflexivity.
Qed.

(** What a cold run keeps: the configuration, the bound of both histories,
    their lengths as counted, and the constructor's adaptive threshold for
    as long as the energy history has at most 10 entries. *)
Lemma cold_run_shape T S M ne nf self :
  cold_run T S M ne nf self ->
  threshold self = T /\ sensitivity self = S
  /\ maxlen (energy_history self) = 60%nat
  /\ maxlen (flux_history self) = 60%nat
  /\ List.length (items (energy_history self)) = Nat.min ne 60
  /\ List.length (items (flux_history self)) = Nat.min nf 60
  /\ ((ne <= 10)%nat -> adaptive_threshold self = T).
Proof.
  induction 1 as [|ne nf self c now stamp self' r fired _ IH H].
  - cbn. repeat split; reflexivity.
  - destruct IH as (Ht & Hs & Me & Mf & Le & Lf & Ha).
    destruct (effective self c now) eqn:E.
    + pose proof (evaluate_effective _ _ _ _ _ _ _ E H) as F. cbv zeta in F.
      destruct F as (Hh & Ho & _ & _ & Hat & _ & _ & _ & Ht' & Hs' & _).
      rewrite Ht', Hs'. cbn [andb].
      destruct c as [rms peak|fd|bd idx|bd|bd|bd];
        cbn [on_flux history_of negb threshold_used signal] in *;
        rewrite ?Hh, ?Ho, ?Hat, ?deque_append_length, ?deque_append_maxlen,
                ?Me, ?Mf, ?Le, ?Lf;
        repeat split; auto; try lia; try (intros; apply Ha; lia).
      intros L.
      destruct (Z.ltb_spec 10 (Deque.len (Deque.append (energy_history self) peak)))
        as [G|G]; [|apply Ha; lia].
      unfold Deque.len, Py.len in G. rewrite deque_append_length, Me, Le in G. lia.
    + cbn [andb]. rewrite !Nat.add_0_r.
      destruct (evaluate_not_effective _ _ _ _ _ _ _ E H)
        as (_ & _ & [->|(fd & _ & _ & _ & ->)]); cbn; repeat split; auto.
Qed.

Lemma cold_run_step T S M ne nf self c now stamp out :
  cold_run T S M ne nf self ->
  evaluate self c now stamp = Some out ->
  cold_run T S M
    (ne + (if effective self c now && negb (on_flux c) then 1 else 0))
    (nf + (if effective self c now && on_flux c then 1 else 0))
    (fst (fst out)).
Proof.
  intros C H. destruct out as ((self' & r) & fired).
  exact (cold_eval _ _ _ _ _ _ _ _ _ _ _ _ C H).
Qed.

(** C3.  On a cold detector (constructed with base threshold [T] and
    sensitivity [S], then only evaluated), take an effective evaluation, one
    that is not debounced and passes the guards, made after [n] effective
    evaluations on the same history.  Its signal becomes entry [n + 1] of
    the history (capped at 60), and the threshold it is compared with is the
    base threshold [T] unmodified while the history has at most 10 entries,
    that is for the first 10 of them, and from the 11th entry on
    [mean(history) + T * S] for the energy, band, kick, snare and hi-hat
    variants and [mean(history) * (1 + S)] for the spectral-flux variant,
    the mean being the sum of the entries over their number. *)
Theorem cold_threshold_rule :
  forall T S M ne nf self c now stamp self' r fired,
    cold_run T S M ne nf self ->
    effective self c now = true ->
    evaluate self c now stamp = Some (self', r, fired) ->
    let n := if on_flux c then nf else ne in
    let x := signal self c in
    let h := history_of self' c in
    let t := spec_threshold T S c h in
    let avg := fold_left Qplus (items h) 0
               / inject_Z (Z.of_nat (List.length (items h))) in
    h = Deque.append (history_of self c) x
    /\ List.length (items h) = Nat.min (n + 1) 60
    /\ triggered r = Py.ltb t x
    /\ strength r = (if triggered r then x / Py.max (1 # 100) t else 0)
    /\ ((n < 10)%nat -> t = T)
    /\ ((10 <= n)%nat ->
        t = if on_flux c then avg * (1 + S) else avg + T * S).
Proof.
  intros T S M ne nf self c now stamp self' r fired C E H n x h t avg.
  destruct (cold_run_shape _ _ _ _ _ _ C) as (Ht & Hs & Me & Mf & Le & Lf & Ha).
  pose proof (evaluate_effective _ _ _ _ _ _ _ E H) as F. cbv zeta in F.
  destruct F as (Hh & _ & Htr & Hst & _).
  fold x in Hh, Htr, Hst. fold h in Hh. rewrite <- Hh in Htr, Hst.
  assert (Hlen : List.length (items h) = Nat.min (n + 1) 60).
  { rewrite Hh, deque_append_length. subst n.
    destruct c; cbn [on_flux history_of]; rewrite ?Me, ?Mf, ?Le, ?Lf; lia. }
  assert (Eq : threshold_used self c h = t).
  { subst t. unfold spec_threshold, threshold_used, arithmetic_mean, mean,
      Deque.sum, Deque.len, Py.sum, Py.len.
    rewrite Ht, Hs.
    destruct (Nat.leb_spec (List.length (items h)) 10) as [L|L];
      destruct (Z.ltb_spec 10 (Z.of_nat (List.length (items h)))) as [G|G];
      try lia;
      destruct c; cbn [on_flux] in *; try reflexivity.
    apply Ha. subst n. cbn [on_flux] in Hlen. lia. }
  rewrite Eq in Htr, Hst.
  split; [exact Hh|]. split; [exact Hlen|]. split; [exact Htr|].
  split; [rewrite Htr; exact Hst|].
  unfold t, spec_threshold, arithmetic_mean. fold avg.
  split; intros L.
  - destruct (Nat.leb_spec (List.length (items h)) 10); [reflexivity|lia].
  - destruct (Nat.leb_spec (List.length (items h)) 10); [lia|reflexivity].
Qed.

(** C3 at the eleventh kick on a cold detector with base threshold 0.3 and
    sensitivity 0.5.  After ten kicks of 0.1 a kick of 0.28 makes the
    history mean 1.28 / 11, so the threshold is 1.28 / 11 + 0.15, that is
    293 / 1100; the kick is above it and triggers with strength
    0.28 / (293 / 1100). *)
Lemma cold_threshold_rule_witness :
  let quiet := (Kick [1 # 10; 1 # 10], 1000, 1000) in
  let self := after (init (3 # 10) (5 # 10) 100) (repeat quiet 10) in
  let out := detect_kick self [28 # 100; 28 # 100] 1000 1000 in
  cold_run (3 # 10) (5 # 10) 100 10 0 self
  /\ List.length (items (energy_history (fst (fst out)))) = 11%nat
  /\ spec_threshold (3 # 10) (5 # 10) (Kick [28 # 100; 28 # 100])
       (energy_history (fst (fst out))) == 293 # 1100
  /\ triggered (snd (fst out)) = true
  /\ strength (snd (fst out)) == 308 # 293.
Proof.
  intros quiet self out.
  assert (C : cold_run (3 # 10) (5 # 10) 100 10 0 self).
  { pose proof (cold_init (3 # 10) (5 # 10) 100) as C.
    do 10 (let C' := fresh "C" in
           pose proof (cold_run_step _ _ _ _ _ _ (Kick [1 # 10; 1 # 10])
                         1000 1000 _ C eq_refl) as C';
           vm_compute in C'; clear C; rename C' into C).
    exact C. }
  split; [exact C|].
  destruct (cold_threshold_rule (3 # 10) (5 # 10) 100 10 0 self
              (Kick [28 # 100; 28 # 100]) 1000 1000
              (fst (fst out)) (snd (fst out)) (snd out) C eq_refl eq_refl)
    as (_ & Hlen & Htr & Hst & _ & Hmean).
  cbn [on_flux history_of] in Hlen, Htr, Hst, Hmean.
  specialize (Hmean (Nat.le_refl 10)).
  split; [exact Hlen|].
  split; [rewrite Hmean; vm_compute; reflexivity|].
  split; [rewrite Htr; vm_compute; reflexivity|].
  rewrite Hst, Htr. vm_compute. reflexivity.
Defined.

(** The transition on a run of kicks: after nine quiet kicks (0.1) a kick of
    0.28 is the tenth entry and is held against the base threshold 0.3, so
    it does not trigger; after ten quiet kicks the same kick is the eleventh
    entry and is held against mean + 0.15, about 0.266, so it triggers,
    while a kick of 0.2 as the eleventh entry is held against about 0.259
    and does not. *)
Example transition_at_the_eleventh_entry :
  let self := init (3 # 10) (5 # 10) 100 in
  let quiet := (Kick [1 # 10; 1 # 10], 1000, 1000) in
  let loud := (Kick [28 # 100; 28 # 100], 1000, 1000) in
  let soft := (Kick [2 # 10; 2 # 10], 1000, 1000) in
  option_map (fun o => map triggered (snd o)) (run self (repeat quiet 9 ++ [loud]))
  = Some (repeat false 9 ++ [false])
  /\ option_map (fun o => map triggered (snd o)) (run self (repeat quiet 10 ++ [loud]))
     = Some (repeat false 10 ++ [true])
  /\ option_map (fun o => map triggered (snd o)) (run self (repeat quiet 10 ++ [soft]))
     = Some (repeat false 10 ++ [false]).
Proof. split; [|split]; vm_compute; reflexivity. Qed.

(** The same for spectral flux.  The first call only seeds the previous
    spectrum; the next ones alternate between a rise of 0.1 and a fall, which
    has no flux.  A rise of 0.2 as the tenth entry is held against the base
    threshold 0.3 and does not trigger; as the eleventh entry it is held
    against mean * 1.5, which is 0.7 / 11 * 1.5, and triggers with strength
    0.2 / (0.7 / 11 * 1.5), that is 44 / 21; a rise of 0.05 as the eleventh
    entry is held against 0.55 / 11 * 1.5 and does not trigger. *)
Example flux_transition_at_the_eleventh_entry :
  let self := init (3 # 10) (5 # 10) 100 in
  let low := (SpectralFlux [0], 1000, 1000) in
  let high := (SpectralFlux [1 # 10], 1000, 1000) in
  let jump := (SpectralFlux [2 # 10], 1000, 1000) in
  let hop := (SpectralFlux [5 # 100], 1000, 1000) in
  let pairs n := concat (repeat [high; low] n) in
  option_map (fun o => map triggered (snd o))
    (run self (low :: pairs 4%nat ++ [low; jump]))
  = Some (repeat false 10 ++ [false])
  /\ option_map (fun o => map triggered (snd o))
       (run self (low :: pairs 5%nat ++ [jump]))
     = Some (repeat false 11 ++ [true])
  /\ match run self (low :: pairs 5%nat ++ [jump]) with
     | Some (_, rs) => last (map strength rs) 0 == 44 # 21
     | None => False
     end
  /\ option_map (fun o => map triggered (snd o))
       (run self (low :: pairs 5%nat ++ [hop]))
     = Some (repeat false 11 ++ [false]).
Proof. split; [|split; [|split]]; vm_compute; reflexivity. Qed.

End Adaptive.

(** * Further properties of the analyzer *)

Section AnalyzerShape.

Import Analyzer.

Variable sqrt : Q -> Q.

Lemma smooth_length c fd raw : List.length (smooth c fd raw) = List.length fd.
Proof.
  revert raw. induction fd as [|f fd IH]; intros [|r raw]; cbn; auto.
Qed.

Lemma calculate_bands_length self num_bands :
  List.length (_calculate_bands self num_bands) = Z.to_nat num_bands.
Proof.
  unfold _calculate_bands, Py.range. now rewrite !length_map, length_seq.
Qed.

(** The analyzer after a call that gets past the guards. *)
Lemma analyze_chop_nonempty self chop :
  numSamples chop <> 0%Z -> numChans chop <> 0%Z ->
  let self1 :=
    with_frequency_data self
      (smooth (smoothing_time_constant self) (frequency_data self)
         (map (sample chop 0)
              (Py.range (Z.min (numSamples chop) (frequency_bin_count self))))) in
  let self2 := _update_levels sqrt self1 chop in
  analyze_chop sqrt self (Some chop)
  = (self2,
     {| a_frequency_data := frequency_data self2;
        a_rms := rms_level self2;
        a_peak := peak_level self2;
        a_envelope := envelope_value self2;
        a_bands := _extract_frequency_bands self2 |}).
Proof.
  intros Hs Hc. unfold analyze_chop.
  destruct (Z.eqb_spec (numSamples chop) 0); [contradiction|].
  destruct (Z.eqb_spec (numChans chop) 0); [contradiction|].
  reflexivity.
Qed.

Lemma analyze_chop_cases self chop_reference :
  analyze_chop sqrt self chop_reference = (self, _get_empty_analysis self)
  \/ exists chop, chop_reference = Some chop
                  /\ numSamples chop <> 0%Z /\ numChans chop <> 0%Z.
Proof.
  destruct chop_reference as [chop|]; [|now left].
  unfold analyze_chop.
  destruct (Z.eqb_spec (numSamples chop) 0); [now left|].
  destruct (Z.eqb_spec (numChans chop) 0); [now left|].
  right. eauto.
Qed.

Lemma ltb_false (a b : Q) : Py.ltb a b = false <-> b <= a.
Proof.
  rewrite <- not_true_iff_false, ltb_lt. split; [apply Qnot_lt_le|apply Qle_not_lt].
Qed.

Lemma clamp_unit (e : Q) :
  let v := Py.max 0 (Py.min 1 e) in
  0 <= v <= 1
  /\ (0 <= e <= 1 -> v == e)
  /\ (1 <= e -> v == 1).
Proof.
  unfold Py.max, Py.min.
  destruct (Py.ltb e 1) eqn:A; destruct (Py.ltb 0 _) eqn:B;
    first [apply ltb_lt in A | apply ltb_false in A];
    first [apply ltb_lt in B | apply ltb_false in B];
    repeat split; intros; lra.
Qed.

(** What every reachable analyzer keeps besides its configuration. *)
Lemma reachable_state fft smoothing self :
  reachable sqrt fft smoothing self ->
  List.length (frequency_data self) = Z.to_nat (fft / 2)
  /\ 0 <= envelope_value self <= 1
  /\ (List.length (items (rms_history self)) <= 60)%nat
  /\ List.length (items (peak_history self))
     = List.length (items (rms_history self)).
Proof.
  induction 1 as [|self chop R IH|self a r fps _ IH|self R IH].
  - cbn. unfold Py.replicate. rewrite repeat_length.
    repeat split; auto; try lra; lia.
  - destruct (analyze_chop_cases self chop) as [E|(c & -> & Hs & Hc)].
    + rewrite E. exact IH.
    + rewrite (analyze_chop_nonempty _ _ Hs Hc). cbn [fst].
      destruct (reachable_shape _ _ _ _ R) as (_ & _ & _ & _ & Mr & Mp & _).
      destruct IH as (L & _ & Hr & Hp).
      cbn -[Py.max Py.min]. rewrite smooth_length.
      split; [exact L|]. split; [apply clamp_unit|].
      rewrite !length_skipn, !length_app, Mr, Mp, Hp. cbn. lia.
  - exact IH.
  - destruct (reachable_shape _ _ _ _ R) as (_ & _ & B & _).
    cbn. unfold Py.replicate. rewrite repeat_length, B.
    repeat split; auto; try lra; lia.
Qed.

(** X1.  The frame has the same shape on every path: whatever the input,
    absent, empty or not, an analyzer built with [fft_size = fft] returns a
    spectrum of [fft // 2] entries and band vectors of 8, 16 and 32 entries,
    and its own spectrum buffer keeps that length. *)
Theorem frame_shape_is_stable :
  forall fft smoothing self chop_reference,
    reachable sqrt fft smoothing self ->
    let out := analyze_chop sqrt self chop_reference in
    List.length (a_frequency_data (snd out)) = Z.to_nat (fft / 2)
    /\ List.length (frequency_data (fst out)) = Z.to_nat (fft / 2)
    /\ List.length (band8 (a_bands (snd out))) = 8%nat
    /\ List.length (band16 (a_bands (snd out))) = 16%nat
    /\ List.length (band32 (a_bands (snd out))) = 32%nat.
Proof.
  intros fft smoothing self chop_reference R out.
  pose proof (reachable_state _ _ _ (reach_analyze _ _ _ _ chop_reference R))
    as (L' & _).
  fold out in L'.
  destruct (analyze_chop_cases self chop_reference) as [E|(c & -> & Hs & Hc)].
  - subst out. rewrite E in *. cbn.
    destruct (reachable_shape _ _ _ _ R) as (_ & _ & B & _).
    unfold Py.replicate. rewrite !repeat_length, B. repeat split; auto.
  - subst out. rewrite (analyze_chop_nonempty _ _ Hs Hc) in *.
    cbn [fst snd a_frequency_data a_bands band8 band16 band32
         _extract_frequency_bands] in *.
    rewrite !calculate_bands_length. repeat split; auto.
Qed.

(** X2.  The envelope of every analyzer a program can hold lies in [0, 1],
    and so does the envelope of every frame it returns. *)
Theorem envelope_in_unit_interval :
  forall fft smoothing self chop_reference,
    reachable sqrt fft smoothing self ->
    0 <= envelope_value self <= 1
    /\ 0 <= a_envelope (snd (analyze_chop sqrt self chop_reference)) <= 1.
Proof.
  intros fft smoothing self chop_reference R.
  split; [apply (reachable_state _ _ _ R)|].
  destruct (analyze_chop_cases self chop_reference) as [E|(c & -> & Hs & Hc)].
  - rewrite E. cbn. lra.
  - rewrite (analyze_chop_nonempty _ _ Hs Hc). cbn -[Py.max Py.min].
    apply clamp_unit.
Qed.

(** X3.  The two level histories never hold more than 60 entries and always
    hold the same number of entries. *)
Theorem level_histories_bounded :
  forall fft smoothing self,
    reachable sqrt fft smoothing self ->
    (List.length (items (rms_history self)) <= 60)%nat
    /\ List.length (items (peak_history self))
       = List.length (items (rms_history self)).
Proof.
  intros fft smoothing self R. apply (reachable_state _ _ _ R).
Qed.

End AnalyzerShape.

Section AnalyzerShapeWitnesses.

Import Analyzer.

(** X1 on a fresh analyzer with [fft_size = 4] and a two-sample input. *)
Lemma frame_shape_is_stable_witness :
  let out := analyze_chop sqrt_approx (init 4 0) (Some (chop_of [0; 6 # 10])) in
  List.length (a_frequency_data (snd out)) = 2%nat
  /\ List.length (frequency_data (fst out)) = 2%nat
  /\ List.length (band8 (a_bands (snd out))) = 8%nat
  /\ List.length (band16 (a_bands (snd out))) = 16%nat
  /\ List.length (band32 (a_bands (snd out))) = 32%nat.
Proof.
  exact (frame_shape_is_stable sqrt_approx 4 0 (init 4 0)
           (Some (chop_of [0; 6 # 10])) (reach_init _ _ _)).
Defined.

(** X2 after a tick whose peak, 3, is far above 1. *)
Lemma envelope_in_unit_interval_witness :
  let self := fst (analyze_chop sqrt_approx (init 4 0) (Some (chop_of [3; 1]))) in
  0 <= envelope_value self <= 1
  /\ 0 <= a_envelope (snd (analyze_chop sqrt_approx self (Some (chop_of [0; 6 # 10]))))
     <= 1.
Proof.
  intros self.
  exact (envelope_in_unit_interval sqrt_approx 4 0 self
           (Some (chop_of [0; 6 # 10]))
           (reach_analyze _ _ _ _ (Some (chop_of [3; 1])) (reach_init _ _ _))).
Defined.

(** X3 after one tick. *)
Lemma level_histories_bounded_witness :
  let self := fst (analyze_chop sqrt_approx (init 4 0) (Some (chop_of [3; 1]))) in
  (List.length (items (rms_history self)) <= 60)%nat
  /\ List.length (items (peak_history self))
     = List.length (items (rms_history self)).
Proof.
  intros self.
  exact (level_histories_bounded sqrt_approx 4 0 self
           (reach_analyze _ _ _ _ (Some (chop_of [3; 1])) (reach_init _ _ _))).
Defined.

End AnalyzerShapeWitnesses.

(** ** Levels, smoothing and envelope *)

Section Levels.

Import Analyzer.

Variable sqrt : Q -> Q.

Lemma abs_nonneg (x : Q) : 0 <= Py.abs x.
Proof.
  unfold Py.abs. destruct (Py.ltb x 0) eqn:E.
  - apply ltb_lt in E. lra.
  - apply ltb_false in E. exact E.
Qed.

Lemma py_max_spec (a b : Q) :
  (Py.max a b = a \/ Py.max a b = b) /\ a <= Py.max a b /\ b <= Py.max a b.
Proof.
  unfold Py.max. destruct (Py.ltb a b) eqn:E.
  - apply ltb_lt in E. repeat split; auto; lra.
  - apply ltb_false in E. repeat split; auto; lra.
Qed.

Lemma fold_max_spec (xs : list Q) (x : Q) :
  In (fold_left Py.max xs x) (x :: xs)
  /\ Forall (fun y => y <= fold_left Py.max xs x) (x :: xs).
Proof.
  revert x. induction xs as [|y xs IH]; intros x; cbn [fold_left].
  - split; [now left|]. constructor; [lra|constructor].
  - destruct (IH (Py.max x y)) as (Hin & Hall).
    destruct (py_max_spec x y) as (Hc & Hx & Hy).
    inversion Hall as [|? ? Hm Hrest]; subst.
    split.
    + destruct Hin as [Hin|Hin]; [|right; right; exact Hin].
      destruct Hc as [Hc|Hc]; rewrite <- Hin, Hc; [now left|right; now left].
    + constructor; [lra|]. constructor; [lra|exact Hrest].
Qed.

(** [max(...)] returns one of the values and bounds them all. *)
Lemma max_of_spec (x : Q) (xs : list Q) :
  In (max_of (x :: xs)) (x :: xs)
  /\ Forall (fun y => y <= max_of (x :: xs)) (x :: xs).
Proof. apply fold_max_spec. Qed.

(** X4.  On an input with at least one sample the peak is the largest
    absolute sample value of the first channel: it bounds every [|sample|],
    it is one of them, and it is what the frame reports. *)
Theorem peak_is_largest_magnitude :
  forall self chop,
    (0 < numSamples chop)%Z -> numChans chop <> 0%Z ->
    let out := analyze_chop sqrt self (Some chop) in
    a_peak (snd out) = peak_level (fst out)
    /\ (forall i, (0 <= i < numSamples chop)%Z ->
          Py.abs (sample chop 0 i) <= peak_level (fst out))
    /\ (exists i, (0 <= i < numSamples chop)%Z
                  /\ peak_level (fst out) = Py.abs (sample chop 0 i))
    /\ 0 <= peak_level (fst out).
Proof.
  intros self chop Hs Hc out. subst out.
  rewrite (analyze_chop_nonempty sqrt) by (auto; lia).
  cbn [fst snd a_peak _update_levels peak_level with_frequency_data].
  destruct (Z.ltb_spec 0 (numSamples chop)); [|lia].
  set (mags := map (fun i => Py.abs (sample chop 0 i)) (Py.range (numSamples chop))).
  assert (Hne : exists m ms, mags = m :: ms).
  { unfold mags, Py.range. destruct (Z.to_nat (numSamples chop)) eqn:E; [lia|].
    cbn. eauto. }
  destruct Hne as (m & ms & Hm).
  destruct (max_of_spec m ms) as (Hin & Hall). rewrite <- Hm in Hin, Hall.
  rewrite Forall_forall in Hall.
  assert (Mem : forall v, In v mags <->
                  exists i, (0 <= i < numSamples chop)%Z /\ v = Py.abs (sample chop 0 i)).
  { intros v. unfold mags, Py.range. rewrite map_map, in_map_iff. split.
    - intros (k & <- & Hk). apply in_seq in Hk. exists (Z.of_nat k). split; [lia|auto].
    - intros (i & Hi & ->). exists (Z.to_nat i). split.
      + now rewrite Z2Nat.id by lia.
      + apply in_seq. lia. }
  split; [reflexivity|]. split; [|split].
  - intros i Hi. apply Hall. apply Mem. eauto.
  - apply Mem. exact Hin.
  - apply Mem in Hin. destruct Hin as (i & _ & ->). apply abs_nonneg.
Qed.

End Levels.

Section LevelsWitnesses.

Import Analyzer.

(** X4 on the samples 1, -3, 2. *)
Lemma peak_is_largest_magnitude_witness :
  let out := analyze_chop sqrt_approx (init 8 0) (Some (chop_of [1; -3; 2])) in
  peak_level (fst out) = 3
  /\ forall i, (0 <= i < 3)%Z ->
       Py.abs (sample (chop_of [1; -3; 2]) 0 i) <= peak_level (fst out).
Proof.
  intros out. split; [reflexivity|].
  pose proof (peak_is_largest_magnitude sqrt_approx (init 8 0)
                (chop_of [1; -3; 2]) eq_refl) as H.
  specialize (H ltac:(discriminate)).
  exact (proj1 (proj2 H)).
Defined.

End LevelsWitnesses.

Section Smoothing.

Import Analyzer.

Variable sqrt : Q -> Q.

Lemma smooth_nth c fd raw i :
  nth i (smooth c fd raw) 0
  = if ((i <? List.length raw) && (i <? List.length fd))%nat
    then c * nth i fd 0 + (1 - c) * nth i raw 0
    else nth i fd 0.
Proof.
  revert raw i. induction fd as [|f fd IH]; intros raw i.
  - cbn [smooth]. destruct raw; destruct i; cbn; rewrite ?andb_false_r; reflexivity.
  - destruct raw as [|r raw]; [reflexivity|].
    destruct i as [|i]; [reflexivity|].
    cbn [smooth nth List.length]. rewrite IH. reflexivity.
Qed.

Lemma range_length (m : Z) : List.length (Py.range m) = Z.to_nat m.
Proof. unfold Py.range. now rewrite length_map, length_seq. Qed.

Lemma range_sample_nth (chop : CHOP) (m : Z) (i : nat) :
  (i < Z.to_nat m)%nat ->
  nth i (map (sample chop 0) (Py.range m)) 0 = sample chop 0 (Z.of_nat i).
Proof.
  intros H. unfold Py.range. rewrite map_map.
  rewrite (nth_indep _ 0 (sample chop 0 (Z.of_nat 0)))
    by (rewrite length_map, length_seq; exact H).
  rewrite (map_nth (fun x => sample chop 0 (Z.of_nat x))), seq_nth by exact H.
  reflexivity.
Qed.

(** X5.  Smoothing works bin by bin.  A bin below both the input length and
    the bin count becomes [c * old + (1 - c) * new], with [c] the smoothing
    constant: the input itself when [c] is 0 and the old value when [c] is 1.
    Every other bin keeps its value. *)
Theorem smoothing_per_bin :
  forall self chop (i : nat),
    numSamples chop <> 0%Z -> numChans chop <> 0%Z ->
    let c := smoothing_time_constant self in
    let old := nth i (frequency_data self) 0 in
    let new := sample chop 0 (Z.of_nat i) in
    let v := nth i (frequency_data (fst (analyze_chop sqrt self (Some chop)))) 0 in
    ((Z.of_nat i < Z.min (numSamples chop) (frequency_bin_count self))%Z ->
     (i < List.length (frequency_data self))%nat ->
     v = c * old + (1 - c) * new
     /\ (c == 0 -> v == new)
     /\ (c == 1 -> v == old))
    /\ ((Z.min (numSamples chop) (frequency_bin_count self) <= Z.of_nat i)%Z ->
        v = old).
Proof.
  intros self chop i Hs Hc c old new v. subst v.
  rewrite (analyze_chop_nonempty sqrt) by assumption.
  cbn [fst _update_levels frequency_data with_frequency_data].
  rewrite smooth_nth, length_map, range_length.
  set (m := Z.min (numSamples chop) (frequency_bin_count self)).
  fold c. fold old. split.
  - intros Hi Hl.
    destruct (Nat.ltb_spec i (Z.to_nat m)); [|lia].
    destruct (Nat.ltb_spec i (List.length (frequency_data self))); [|lia].
    cbn [andb]. rewrite range_sample_nth by assumption. fold new.
    split; [reflexivity|]. clearbody c old new. split.
    + intros E. rewrite E. ring.
    + intros E. rewrite E. ring.
  - intros Hi. destruct (Nat.ltb_spec i (Z.to_nat m)); [lia|]. reflexivity.
Qed.

Lemma peak_nonneg self chop : 0 <= peak_level (_update_levels sqrt self chop).
Proof.
  cbn [_update_levels peak_level].
  destruct (Z.ltb_spec 0 (numSamples chop)); [|lra].
  unfold Py.range. destruct (Z.to_nat (numSamples chop)) eqn:E; [lia|].
  cbn [seq map].
  match goal with |- 0 <= max_of (?x :: ?xs) =>
    destruct (max_of_spec x xs) as (_ & Hall) end.
  inversion Hall as [|? ? Hm _]; subst.
  eapply Qle_trans; [apply abs_nonneg|exact Hm].
Qed.

(** X6.  The envelope moves toward the peak and never away from it.  When
    the peak of the tick is above the envelope, the new envelope is
    [e + (p - e) / attack_frames] clamped to [0, 1]: it is not below the old
    one and not above 1.  Otherwise it is [e - (e - p) / release_frames]
    clamped to [0, 1]: it is not above the old one and not below 0. *)
Theorem envelope_follows_peak :
  forall fft smoothing self chop,
    reachable sqrt fft smoothing self ->
    numSamples chop <> 0%Z -> numChans chop <> 0%Z ->
    let out := analyze_chop sqrt self (Some chop) in
    let e := envelope_value self in
    let e' := envelope_value (fst out) in
    let p := peak_level (fst out) in
    (e < p ->
     e' = Py.max 0 (Py.min 1 (e + (p - e) / inject_Z (attack_frames self)))
     /\ e <= e' <= 1)
    /\ (p <= e ->
        e' = Py.max 0 (Py.min 1 (e - (e - p) / inject_Z (release_frames self)))
        /\ 0 <= e' <= e).
Proof.
  intros fft smoothing self chop R Hs Hc out e e' p.
  destruct (reachable_shape _ _ _ _ R) as (_ & _ & _ & _ & _ & _ & Ha & Hr).
  destruct (reachable_state _ _ _ _ R) as (_ & (E0 & E1) & _).
  fold e in E0, E1.
  subst e' p out. rewrite (analyze_chop_nonempty sqrt) in * by assumption.
  cbn [fst] in *.
  set (self1 := with_frequency_data self _) in *.
  assert (Ee : envelope_value self1 = e) by reflexivity.
  assert (Ea : attack_frames self1 = attack_frames self) by reflexivity.
  assert (Er : release_frames self1 = release_frames self) by reflexivity.
  remember (peak_level (_update_levels sqrt self1 chop)) as p eqn:Hp.
  cbn [_update_levels envelope_value]. cbn [_update_levels peak_level] in Hp.
  rewrite <- Hp, Ee, Ea, Er.
  assert (A1 : 1 <= inject_Z (attack_frames self)).
  { change 1 with (inject_Z 1). rewrite <- Zle_Qle. exact Ha. }
  assert (R1 : 1 <= inject_Z (release_frames self)).
  { change 1 with (inject_Z 1). rewrite <- Zle_Qle. exact Hr. }
  assert (Step : forall d a, 0 <= d -> 1 <= a -> 0 <= d / a).
  { intros d a Hd Ha'. apply Qle_shift_div_l; lra. }
  split.
  - intros L. apply ltb_lt in L. rewrite L.
    apply ltb_lt in L. split; [reflexivity|].
    pose proof (Step (p - e) _ ltac:(lra) A1) as D0.
    set (E := e + (p - e) / inject_Z (attack_frames self)) in *.
    assert (HE : E == e + (p - e) / inject_Z (attack_frames self)) by reflexivity.
    destruct (clamp_unit E) as ((V0 & V1) & Vin & Vhi). cbv zeta in *.
    set (v := Py.max 0 (Py.min 1 E)) in *.
    set (d := (p - e) / inject_Z (attack_frames self)) in *.
    clearbody v E d e. destruct (Qlt_le_dec E 1) as [Lo|Hi].
    + pose proof (Vin ltac:(lra)). lra.
    + pose proof (Vhi Hi). lra.
  - intros L. apply ltb_false in L. rewrite L.
    apply ltb_false in L. split; [reflexivity|].
    pose proof (Step (e - p) _ ltac:(lra) R1) as D0.
    set (E := e - (e - p) / inject_Z (release_frames self)) in *.
    assert (HE : E == e - (e - p) / inject_Z (release_frames self)) by reflexivity.
    destruct (clamp_unit E) as ((V0 & V1) & Vin & _). cbv zeta in *.
    assert (Vlo : E <= 0 -> Py.max 0 (Py.min 1 E) == 0).
    { intros N. unfold Py.max, Py.min.
      destruct (Py.ltb E 1) eqn:A; destruct (Py.ltb 0 _) eqn:B;
        first [apply ltb_lt in A | apply ltb_false in A];
        first [apply ltb_lt in B | apply ltb_false in B]; lra. }
    set (v := Py.max 0 (Py.min 1 E)) in *.
    set (d := (e - p) / inject_Z (release_frames self)) in *.
    clearbody v E d e. destruct (Qlt_le_dec E 0) as [Lo|Hi].
    + pose proof (Vlo ltac:(lra)). lra.
    + pose proof (Vin ltac:(lra)). lra.
Qed.

End Smoothing.

(** The order facts of X6 do not rest on the arithmetic being exact: the
    envelope step keeps them under every rounding [rnd] of its three
    operations that is monotone and keeps 0 and the stored envelope, as
    rounding to the nearest double does. *)
Section RoundedEnvelope.

Variable rnd : Q -> Q.
Hypothesis rnd_mono : forall x y, x <= y -> rnd x <= rnd y.
Hypothesis rnd_zero : rnd 0 == 0.

Lemma rounded_step_nonneg (d a : Q) : 0 <= d -> 1 <= a -> 0 <= rnd (rnd d / a).
Proof.
  intros Hd Ha.
  assert (D1 : 0 <= rnd d).
  { rewrite <- rnd_zero. apply rnd_mono. exact Hd. }
  assert (D2 : 0 <= rnd d / a) by (apply Qle_shift_div_l; lra).
  rewrite <- rnd_zero. apply rnd_mono. exact D2.
Qed.

Lemma rounded_attack_step (e p a : Q) :
  rnd e == e -> 0 <= e <= 1 -> e < p -> 1 <= a ->
  e <= Py.max 0 (Py.min 1 (rnd (e + rnd (rnd (p - e) / a)))) <= 1.
Proof.
  intros He (E0 & E1) L Ha.
  pose proof (rounded_step_nonneg (p - e) a ltac:(lra) Ha) as D.
  set (d := rnd (rnd (p - e) / a)) in *.
  assert (X : e <= rnd (e + d)).
  { rewrite <- He at 1. apply rnd_mono. lra. }
  destruct (clamp_unit (rnd (e + d))) as ((V0 & V1) & Vin & Vhi). cbv zeta in *.
  set (x := rnd (e + d)) in *. set (v := Py.max 0 (Py.min 1 x)) in *.
  clearbody v x d. destruct (Qlt_le_dec x 1) as [Lo|Hi].
  - pose proof (Vin ltac:(lra)). lra.
  - pose proof (Vhi Hi). lra.
Qed.

Lemma rounded_release_step (e p r : Q) :
  rnd e == e -> 0 <= e <= 1 -> p <= e -> 1 <= r ->
  0 <= Py.max 0 (Py.min 1 (rnd (e - rnd (rnd (e - p) / r)))) <= e.
Proof.
  intros He (E0 & E1) L Hr.
  pose proof (rounded_step_nonneg (e - p) r ltac:(lra) Hr) as D.
  set (d := rnd (rnd (e - p) / r)) in *.
  assert (X : rnd (e - d) <= e).
  { rewrite <- He at 2. apply rnd_mono. lra. }
  destruct (clamp_unit (rnd (e - d))) as ((V0 & V1) & Vin & _). cbv zeta in *.
  assert (Vlo : rnd (e - d) <= 0 -> Py.max 0 (Py.min 1 (rnd (e - d))) == 0).
  { intros N. unfold Py.max, Py.min.
    destruct (Py.ltb (rnd (e - d)) 1) eqn:A; destruct (Py.ltb 0 _) eqn:B;
      first [apply ltb_lt in A | apply ltb_false in A];
      first [apply ltb_lt in B | apply ltb_false in B]; lra. }
  set (x := rnd (e - d)) in *. set (v := Py.max 0 (Py.min 1 x)) in *.
  clearbody v x d. destruct (Qlt_le_dec x 0) as [Lo|Hi].
  - pose proof (Vlo ltac:(lra)). lra.
  - pose proof (Vin ltac:(lra)). lra.
Qed.

End RoundedEnvelope.

Section SmoothingWitnesses.

Import Analyzer.

(** X5 at bin 0 of an analyzer with smoothing 1/2 after one tick, fed 3. *)
Lemma smoothing_per_bin_witness :
  let self := fst (analyze_chop sqrt_approx (init 4 (1 # 2)) (Some (chop_of [2; 2]))) in
  nth 0 (frequency_data (fst (analyze_chop sqrt_approx self (Some (chop_of [3; 3])))))
      0
  = (1 # 2) * nth 0 (frequency_data self) 0 + (1 - (1 # 2)) * 3.
Proof.
  intros self.
  pose proof (smoothing_per_bin sqrt_approx self (chop_of [3; 3]) 0%nat) as H.
  specialize (H ltac:(discriminate) ltac:(discriminate)). cbv zeta in H.
  destruct H as (H & _).
  exact (proj1 (H eq_refl (Nat.lt_0_succ 1))).
Defined.

(** X6 on a fresh analyzer set to 6 attack ticks, fed a peak of 0.6. *)
Lemma envelope_follows_peak_witness :
  let self := set_attack_release (init 4 0) 100 100 60 in
  let out := analyze_chop sqrt_approx self (Some (chop_of [0; 6 # 10])) in
  envelope_value (fst out)
  = Py.max 0 (Py.min 1 (0 + ((6 # 10) - 0) / inject_Z 6))
  /\ envelope_value self <= envelope_value (fst out) <= 1.
Proof.
  intros self out.
  pose proof (envelope_follows_peak sqrt_approx 4 0 self (chop_of [0; 6 # 10])
                (reach_set_attack_release _ _ _ _ 100 100 60 (reach_init _ _ _)))
    as H.
  specialize (H ltac:(discriminate) ltac:(discriminate)). cbv zeta in H.
  destruct H as (H & _).
  exact (H eq_refl).
Defined.

End SmoothingWitnesses.

(** ** Windowed statistics of the level histories *)

Section HistoryStatistics.

Import Analyzer.

Variable sqrt : Q -> Q.

(** [history[-frames:]] for each sign of [frames]. *)
Lemma recent_spec (h : deque) (frames : Z) :
  recent h frames
  = if (0 <? frames)%Z
    then skipn (List.length (items h) - Z.to_nat frames) (items h)
    else if (frames =? 0)%Z then items h
    else skipn (Z.to_nat (- frames)) (items h).
Proof.
  unfold recent, Py.slice_from, Py.clamp_index, Py.len.
  destruct (Z.ltb_spec 0 frames).
  - destruct (Z.ltb_spec (- frames) 0); [|lia]. f_equal. lia.
  - destruct (Z.ltb_spec (- frames) 0); [lia|].
    destruct (Z.eqb_spec frames 0) as [->|].
    + cbn. rewrite Z.min_l by lia. reflexivity.
    + destruct (Z.min_spec (- frames) (Z.of_nat (List.length (items h))))
        as [(_ & ->)|(Hle & ->)]; [reflexivity|].
      rewrite Nat2Z.id, !skipn_all2; auto; lia.
Qed.

(** X7.  [get_history_average(frames)] returns 0 on an empty history.  On a
    history of [n >= 1] entries and [frames >= 0] it never fails: it averages
    the last [min(frames, n)] entries, except that [frames = 0] averages all
    [n] of them.  A negative [frames] drops the first [-frames] entries
    instead, and the call fails with a division by zero when that leaves
    none. *)
Theorem history_average_window :
  forall self frames,
    let xs := items (rms_history self) in
    let n := List.length xs in
    (n = 0%nat -> get_history_average self frames = Some 0)
    /\ ((0 < n)%nat -> (0 <= frames)%Z ->
        let k := if (frames =? 0)%Z then n else Nat.min (Z.to_nat frames) n in
        (0 < k <= n)%nat
        /\ get_history_average self frames
           = Some (Py.sum (skipn (n - k) xs) / inject_Z (Z.of_nat k)))
    /\ ((0 < n)%nat -> (frames <= - Z.of_nat n)%Z ->
        get_history_average self frames = None).
Proof.
  intros self frames xs n. unfold get_history_average, Deque.len, Py.len.
  fold xs. fold n. split; [|split].
  - intros ->. reflexivity.
  - intros Hn Hf.
    set (k := if (frames =? 0)%Z then n else Nat.min (Z.to_nat frames) n).
    destruct (Z.eqb_spec (Z.of_nat n) 0); [lia|].
    rewrite recent_spec. fold xs. fold n.
    assert (Hk : (0 < k <= n)%nat).
    { subst k. destruct (Z.eqb_spec frames 0); lia. }
    split; [exact Hk|].
    assert (E : (if (0 <? frames)%Z then skipn (n - Z.to_nat frames) xs
                 else if (frames =? 0)%Z then xs
                 else skipn (Z.to_nat (- frames)) xs)
                = skipn (n - k) xs).
    { subst k. destruct (Z.ltb_spec 0 frames).
      - destruct (Z.eqb_spec frames 0); [lia|]. f_equal. lia.
      - destruct (Z.eqb_spec frames 0); [|lia].
        now rewrite Nat.sub_diag. }
    rewrite E, length_skipn. fold n.
    replace (n - (n - k))%nat with k by lia.
    destruct (Z.eqb_spec (Z.of_nat k) 0); [lia|]. reflexivity.
  - intros Hn Hf.
    destruct (Z.eqb_spec (Z.of_nat n) 0); [lia|].
    rewrite recent_spec. fold xs. fold n.
    destruct (Z.ltb_spec 0 frames); [lia|].
    destruct (Z.eqb_spec frames 0); [lia|].
    rewrite skipn_all2 by (fold n; lia). reflexivity.
Qed.

Lemma skipn_keeps_last {A} (j : nat) (l : list A) (x : A) :
  (j <= List.length l)%nat -> skipn j (l ++ [x]) = skipn j l ++ [x].
Proof.
  intros H. rewrite skipn_app. replace (j - List.length l)%nat with 0%nat by lia.
  reflexivity.
Qed.

Lemma deque_append_last (d : deque) (x : Q) :
  (0 < maxlen d)%nat -> exists front, items (Deque.append d x) = front ++ [x].
Proof.
  intros H. unfold Deque.append. cbn [items].
  rewrite length_app. cbn [List.length].
  eexists. apply skipn_keeps_last. lia.
Qed.

(** X8.  After a tick with real input the peak just measured is in the
    window of [get_peak_history_max(frames)] for every [frames >= 0]: the
    call succeeds, its result is one of the recorded peaks, it bounds every
    peak of the window, and it is at least the current peak. *)
Theorem peak_history_max_covers_current_peak :
  forall fft smoothing self chop frames,
    reachable sqrt fft smoothing self ->
    numSamples chop <> 0%Z -> numChans chop <> 0%Z ->
    (0 <= frames)%Z ->
    let self' := fst (analyze_chop sqrt self (Some chop)) in
    exists m,
      get_peak_history_max self' frames = Some m
      /\ In m (items (peak_history self'))
      /\ Forall (fun y => y <= m) (recent (peak_history self') frames)
      /\ peak_level self' <= m.
Proof.
  intros fft smoothing self chop frames R Hs Hc Hf self'.
  destruct (reachable_shape _ _ _ _ R) as (_ & _ & _ & _ & _ & Mp & _).
  subst self'. rewrite (analyze_chop_nonempty sqrt) by assumption. cbn [fst].
  set (self1 := with_frequency_data self _).
  set (p := peak_level (_update_levels sqrt self1 chop)).
  assert (Hh : peak_history (_update_levels sqrt self1 chop)
               = Deque.append (peak_history self) p) by reflexivity.
  destruct (deque_append_last (peak_history self) p ltac:(lia)) as (front & Hfront).
  unfold get_peak_history_max, Deque.len, Py.len. rewrite Hh, Hfront.
  rewrite length_app. cbn [List.length].
  destruct (Z.eqb_spec (Z.of_nat (List.length front + 1)) 0); [lia|].
  rewrite recent_spec, Hfront, length_app. cbn [List.length].
  assert (Hrec : exists j, (j <= List.length front)%nat
                   /\ (if (0 <? frames)%Z
                       then skipn (List.length front + 1 - Z.to_nat frames) (front ++ [p])
                       else if (frames =? 0)%Z then front ++ [p]
                       else skipn (Z.to_nat (- frames)) (front ++ [p]))
                      = skipn j front ++ [p]).
  { destruct (Z.ltb_spec 0 frames).
    - exists (List.length front + 1 - Z.to_nat frames)%nat.
      split; [lia|]. apply skipn_keeps_last. lia.
    - destruct (Z.eqb_spec frames 0); [|lia]. exists 0%nat. split; [lia|reflexivity]. }
  destruct Hrec as (j & Hj & ->).
  destruct (skipn j front ++ [p]) as [|x xs] eqn:Hw.
  { destruct (skipn j front); discriminate. }
  destruct (max_of_spec x xs) as (Hin & Hall).
  exists (max_of (x :: xs)).
  assert (Hin' : In (max_of (x :: xs)) (skipn j front ++ [p]))
    by (rewrite Hw; exact Hin).
  assert (Hp : In p (x :: xs))
    by (rewrite <- Hw; apply in_or_app; right; now left).
  split; [reflexivity|]. split; [|split].
  - apply in_app_or in Hin'. apply in_or_app.
    destruct Hin' as [H|H]; [left|right; exact H].
    rewrite <- (firstn_skipn j front). apply in_or_app. now right.
  - exact Hall.
  - rewrite Forall_forall in Hall. apply Hall. exact Hp.
Qed.

End HistoryStatistics.

Section HistoryStatisticsWitnesses.

Import Analyzer.

(** X7 on a history of two entries: 30 frames and 0 frames both average the
    two, and -2 frames fails. *)
Lemma history_average_window_witness :
  let self0 := fst (analyze_chop sqrt_approx (init 4 0) (Some (chop_of [1; 3]))) in
  let self := fst (analyze_chop sqrt_approx self0 (Some (chop_of [2; 1]))) in
  get_history_average self 30
  = Some (Py.sum (items (rms_history self)) / 2)
  /\ get_history_average self 0 = get_history_average self 30
  /\ get_history_average self (-2) = None.
Proof.
  intros self0 self.
  destruct (history_average_window self 30) as (_ & A & _).
  destruct (history_average_window self 0) as (_ & B & _).
  destruct (history_average_window self (-2)) as (_ & _ & C).
  split; [|split].
  - exact (proj2 (A (Nat.lt_0_succ 1) ltac:(discriminate))).
  - rewrite (proj2 (B (Nat.lt_0_succ 1) ltac:(discriminate))).
    rewrite (proj2 (A (Nat.lt_0_succ 1) ltac:(discriminate))). reflexivity.
  - apply C; [apply Nat.lt_0_succ|discriminate].
Defined.

(** X8 after two ticks with peaks 3 and 2: over the last frame the maximum
    is 2, over the whole history 3. *)
Lemma peak_history_max_covers_current_peak_witness :
  let self0 := fst (analyze_chop sqrt_approx (init 4 0) (Some (chop_of [1; 3]))) in
  let self := fst (analyze_chop sqrt_approx self0 (Some (chop_of [2; 1]))) in
  exists m, get_peak_history_max self 1 = Some m /\ peak_level self <= m.
Proof.
  intros self0 self.
  destruct (peak_history_max_covers_current_peak sqrt_approx 4 0 self0
              (chop_of [2; 1]) 1
              (reach_analyze _ _ _ _ (Some (chop_of [1; 3])) (reach_init _ _ _))
              ltac:(discriminate) ltac:(discriminate) ltac:(discriminate))
    as (m & Hm & _ & _ & Hp).
  exists m. split; [exact Hm|exact Hp].
Defined.

End HistoryStatisticsWitnesses.

(** * Further properties of the detector *)

Section TriggerAccounting.

Import Detector.

Lemma finish_counts self tr st ct stamp lab s r f :
  finish self tr st ct stamp lab = (s, r, f) ->
  total_triggers s = (total_triggers self + (if tr then 1 else 0))%Z
  /\ last_trigger_strength s = (if tr then st else last_trigger_strength self)
  /\ current_energy s = current_energy self
  /\ spectral_flux s = spectral_flux self.
Proof.
  unfold finish. destruct tr; intros H; inversion H; subst; cbn;
    repeat split; auto; lia.
Qed.

Local Ltac count_facts H :=
  let G := fresh "G" in
  let K := fresh "K" in
  pose proof (finish_config _ _ _ _ _ _ _ _ _ H) as G;
  pose proof (finish_counts _ _ _ _ _ _ _ _ _ H) as K;
  destruct G as (_ & _ & _ & _ & _ & _ & _ & Gt & Gs & _);
  destruct K as (K1 & K2 & _);
  rewrite Gt, Gs, K1, K2;
  repeat match goal with
         | |- context [if (10 <? ?n)%Z then _ else _] => destruct (10 <? n)%Z
         end;
  cbn; split; reflexivity.

(** Every evaluation counts its trigger, if any, and records its strength. *)
Lemma evaluate_counts self c now stamp s r f :
  evaluate self c now stamp = Some (s, r, f) ->
  total_triggers s = (total_triggers self + (if triggered r then 1 else 0))%Z
  /\ last_trigger_strength s
     = (if triggered r then strength r else last_trigger_strength self)
  /\ (triggered r = false -> strength r = 0).
Proof.
  intros H. destruct (effective self c now) eqn:E.
  - pose proof (evaluate_effective _ _ _ _ _ _ _ E H) as F. cbv zeta in F.
    destruct F as (_ & _ & Htr & Hst & _).
    assert (Z0 : triggered r = false -> strength r = 0).
    { intros T. rewrite Hst, <- Htr, T. reflexivity. }
    clear Htr Hst.
    cut (total_triggers s = (total_triggers self + (if triggered r then 1 else 0))%Z
         /\ last_trigger_strength s
            = (if triggered r then strength r else last_trigger_strength self)).
    { intros (A1 & A2). auto. }
    clear Z0.
    unfold effective, debounced in E. apply andb_true_iff in E.
    destruct E as [D A]. apply negb_true_iff in D.
    destruct c as [rms peak|fd|band_data band_index|band_data|band_data|band_data];
      cbn [evaluate admitted] in *.
    + unfold detect_energy_based in H. rewrite D in H. cbn zeta in H.
      injection H as H. count_facts H.
    + unfold detect_spectral_flux in H. rewrite D in H.
      destruct (previous_spectrum self) eqn:P; [discriminate|].
      cbn zeta in H.
      destruct (finish _ _ _ _ _ _) as [[s1 r1] f1] eqn:F.
      injection H as <- <- <-. cbn [total_triggers last_trigger_strength
        with_previous_spectrum triggered strength _get_detection_result].
      pose proof (finish_config _ _ _ _ _ _ _ _ _ F) as G.
      pose proof (finish_counts _ _ _ _ _ _ _ _ _ F) as K.
      destruct K as (K1 & K2 & _). rewrite K1, K2. cbn. split; reflexivity.
    + unfold detect_band_transient in H. rewrite D in H.
      destruct (Py.len band_data <=? band_index)%Z eqn:G0.
      { apply andb_true_iff in A. destruct A as [A _].
        apply Z.ltb_lt in A. apply Z.leb_le in G0. lia. }
      destruct (Py.index band_data band_index); [|discriminate].
      cbn zeta in H. injection H as H. count_facts H.
    + unfold detect_kick in H. apply Z.leb_le in A.
      destruct (Z.ltb_spec (Py.len band_data) 2); [lia|].
      cbn zeta in H. rewrite D in H. injection H as H. count_facts H.
    + unfold detect_snare in H. apply Z.leb_le in A.
      destruct (Z.ltb_spec (Py.len band_data) 4); [lia|].
      cbn zeta in H. rewrite D in H. injection H as H. count_facts H.
    + unfold detect_hihat in H. apply Z.leb_le in A.
      destruct (Z.ltb_spec (Py.len band_data) 6); [lia|].
      cbn zeta in H. rewrite D in H. injection H as H. count_facts H.
  - destruct (evaluate_not_effective _ _ _ _ _ _ _ E H)
      as (-> & _ & [->|(fd & _ & _ & _ & ->)]); cbn; repeat split; auto; lia.
Qed.

(** X9.  Over any sequence of evaluations, of any variants, the trigger
    counter grows by exactly the number of results that report a trigger;
    every result that does not trigger has strength 0; and the configured
    threshold, sensitivity and interval and the callback list come out as
    they went in. *)
Theorem run_counts_triggers :
  forall cs self self' rs,
    run self cs = Some (self', rs) ->
    total_triggers self'
    = (total_triggers self + Z.of_nat (List.length (filter triggered rs)))%Z
    /\ List.length rs = List.length cs
    /\ Forall (fun r => triggered r = false -> strength r = 0) rs
    /\ threshold self' = threshold self
    /\ sensitivity self' = sensitivity self
    /\ min_interval_ms self' = min_interval_ms self
    /\ on_transient_callbacks self' = on_transient_callbacks self.
Proof.
  induction cs as [|[[c now] stamp] cs IH]; intros self self' rs H.
  - injection H as <- <-. cbn. repeat split; auto; lia.
  - cbn [run] in H.
    destruct (evaluate self c now stamp) as [[[s1 r1] f1]|] eqn:E; [|discriminate].
    destruct (run s1 cs) as [[s2 rs2]|] eqn:Rn; [|discriminate].
    injection H as <- <-.
    destruct (IH _ _ _ Rn) as (T & L & Z0 & Ht & Hs & Hm & Hc).
    destruct (evaluate_counts _ _ _ _ _ _ _ E) as (T1 & _ & Z1).
    destruct (evaluate_config _ _ _ _ _ _ _ E) as (Hm1 & Ht1 & Hs1 & Hc1).
    cbn [filter List.length].
    split; [|split; [|split]].
    + rewrite T, T1. destruct (triggered r1); cbn [List.length]; lia.
    + now rewrite L.
    + constructor; assumption.
    + repeat split; congruence.
Qed.

(** X9 on a cold detector: a loud kick, a debounced one, a quiet one. *)
Lemma run_counts_triggers_witness :
  let self := init (3 # 10) (5 # 10) 100 in
  exists self' rs,
    run self [(Kick [1; 1], 1000, 1000); (Kick [1; 1], 100001 # 100, 1001);
              (Kick [1 # 10; 1 # 10], 1001, 1001)]
    = Some (self', rs)
    /\ map triggered rs = [true; false; false]
    /\ total_triggers self' = 1%Z.
Proof.
  intros self.
  destruct (run self [(Kick [1; 1], 1000, 1000); (Kick [1; 1], 100001 # 100, 1001);
                      (Kick [1 # 10; 1 # 10], 1001, 1001)])
    as [[self' rs]|] eqn:E; [|discriminate E].
  exists self', rs. split; [reflexivity|].
  pose proof (run_counts_triggers _ _ _ _ E) as (T & _).
  assert (M : map triggered rs = [true; false; false]).
  { vm_compute in E. injection E as _ <-. reflexivity. }
  split; [exact M|].
  rewrite T. clear T.
  assert (F : List.length (filter triggered rs) = 1%nat).
  { vm_compute in E. injection E as _ <-. reflexivity. }
  rewrite F. reflexivity.
Defined.

End TriggerAccounting.

Section StrengthAndConfiguration.

Import Detector.

(** X10.  The strength of a triggering evaluation is the signal divided by
    the threshold it beat, floored at 0.01: it is above 1 whenever that
    threshold is at least 0.01, and 100 times the signal when the threshold
    is below 0.01.  An evaluation that does not trigger reports 0. *)
Theorem strength_is_ratio_to_threshold :
  forall self c now stamp self' r fired,
    evaluate self c now stamp = Some (self', r, fired) ->
    (triggered r = false -> strength r = 0)
    /\ (triggered r = true ->
        let x := signal self c in
        let t := threshold_used self c (history_of self' c) in
        t < x
        /\ strength r = x / Py.max (1 # 100) t
        /\ (1 # 100 <= t -> strength r == x / t /\ 1 < strength r)
        /\ (t < 1 # 100 -> strength r == 100 * x)).
Proof.
  intros self c now stamp self' r fired H.
  split; [apply (evaluate_counts _ _ _ _ _ _ _ H)|].
  intros T. destruct (effective self c now) eqn:E.
  2:{ destruct (evaluate_not_effective _ _ _ _ _ _ _ E H) as (-> & _).
      discriminate T. }
  pose proof (evaluate_effective _ _ _ _ _ _ _ E H) as F. cbv zeta in F.
  destruct F as (Hh & _ & Htr & Hst & _). rewrite <- Hh in Htr, Hst.
  cbv zeta. set (x := signal self c) in *.
  set (t := threshold_used self c (history_of self' c)) in *.
  rewrite T in Htr. symmetry in Htr. rewrite Htr in Hst. cbn [strength_of] in Hst.
  apply ltb_lt in Htr.
  split; [exact Htr|]. split; [exact Hst|].
  rewrite Hst. clearbody x t. unfold Py.max.
  destruct (Py.ltb (1 # 100) t) eqn:M;
    [apply ltb_lt in M|apply ltb_false in M]; split.
  - intros _. split; [reflexivity|]. apply Qlt_shift_div_l; lra.
  - intros L. lra.
  - intros L. assert (Et : t == 1 # 100) by lra.
    split; [rewrite Et; reflexivity|]. apply Qlt_shift_div_l; lra.
  - intros _. field.
Qed.

(** X10 at a kick of 1 against the base threshold 0.3. *)
Lemma strength_is_ratio_to_threshold_witness :
  let self := init (3 # 10) (5 # 10) 100 in
  let r := snd (fst (detect_kick self [1; 1] 1000 1000)) in
  1 < strength r.
Proof.
  intros self r.
  pose proof (strength_is_ratio_to_threshold self (Kick [1; 1]) 1000 1000
                (fst (fst (detect_kick self [1; 1] 1000 1000))) r
                (snd (detect_kick self [1; 1] 1000 1000)) eq_refl) as (_ & H).
  specialize (H eq_refl). cbv zeta in H.
  destruct H as (_ & _ & H & _).
  exact (proj2 (H ltac:(discriminate))).
Defined.

Lemma clamp_unit_value (t : Q) :
  0 <= Py.max 0 (Py.min 1 t) <= 1
  /\ (0 <= t <= 1 -> Py.max 0 (Py.min 1 t) == t)
  /\ (t <= 0 -> Py.max 0 (Py.min 1 t) == 0)
  /\ (1 <= t -> Py.max 0 (Py.min 1 t) == 1).
Proof.
  unfold Py.max, Py.min.
  destruct (Py.ltb t 1) eqn:A; destruct (Py.ltb 0 _) eqn:B;
    first [apply ltb_lt in A | apply ltb_false in A];
    first [apply ltb_lt in B | apply ltb_false in B];
    repeat split; intros; lra.
Qed.

(** X11.  The setters clamp: after [set_threshold] and [set_sensitivity] the
    value lies in [0, 1] (0 for an argument below 0, 1 for one above 1, the
    argument itself in between) and after [set_min_interval] the interval is
    at least 0.  The constructor stores its arguments as given.  No setter
    touches the stored adaptive threshold, the histories, the trigger state
    or the callbacks. *)
Theorem setters_clamp :
  forall self x,
    let in_unit v :=
      0 <= v <= 1 /\ (0 <= x <= 1 -> v == x)
      /\ (x <= 0 -> v == 0) /\ (1 <= x -> v == 1) in
    let same (s : TransientDetector) :=
      adaptive_threshold s = adaptive_threshold self
      /\ energy_history s = energy_history self
      /\ flux_history s = flux_history self
      /\ previous_spectrum s = previous_spectrum self
      /\ last_trigger_time s = last_trigger_time self
      /\ total_triggers s = total_triggers self
      /\ on_transient_callbacks s = on_transient_callbacks self in
    (in_unit (threshold (set_threshold self x))
     /\ sensitivity (set_threshold self x) = sensitivity self
     /\ min_interval_ms (set_threshold self x) = min_interval_ms self
     /\ same (set_threshold self x))
    /\ (in_unit (sensitivity (set_sensitivity self x))
        /\ threshold (set_sensitivity self x) = threshold self
        /\ min_interval_ms (set_sensitivity self x) = min_interval_ms self
        /\ same (set_sensitivity self x))
    /\ (0 <= min_interval_ms (set_min_interval self x)
        /\ (0 <= x -> min_interval_ms (set_min_interval self x) == x)
        /\ threshold (set_min_interval self x) = threshold self
        /\ sensitivity (set_min_interval self x) = sensitivity self
        /\ same (set_min_interval self x))
    /\ threshold (init x x x) = x
    /\ sensitivity (init x x x) = x
    /\ min_interval_ms (init x x x) = x.
Proof.
  intros self x in_unit same. subst in_unit same. cbn -[Py.max Py.min].
  pose proof (clamp_unit_value x) as C.
  assert (M : 0 <= Py.max 0 x /\ (0 <= x -> Py.max 0 x == x)).
  { unfold Py.max. destruct (Py.ltb 0 x) eqn:B;
      first [apply ltb_lt in B | apply ltb_false in B]; split; intros; lra. }
  repeat split; try reflexivity; try apply C; try apply M.
Qed.

(** X12.  A new base threshold reaches the variants at different times.
    While the energy history holds fewer than 10 entries, the energy variant
    decides exactly as it would have without the [set_threshold] call, since
    it compares with the stored adaptive threshold, which the setter leaves
    alone; the band, kick, snare and hi-hat variants compare with the new,
    clamped, base threshold at once. *)
Theorem set_threshold_reaches_energy_variant_late :
  forall self t now stamp,
    (List.length (items (energy_history self)) < 10)%nat ->
    (forall rms_level peak_level,
        let r := snd (fst (detect_energy_based self rms_level peak_level now stamp)) in
        let r' := snd (fst (detect_energy_based (set_threshold self t)
                              rms_level peak_level now stamp)) in
        r' = r)
    /\ (forall c self' r fired,
          (match c with Energy _ _ | SpectralFlux _ => False | _ => True end) ->
          effective self c now = true ->
          evaluate (set_threshold self t) c now stamp = Some (self', r, fired) ->
          triggered r = Py.ltb (Py.max 0 (Py.min 1 t)) (signal self c)).
Proof.
  intros self t now stamp L.
  assert (Len : forall x, (10 <? Deque.len (Deque.append (energy_history self) x))%Z
                          = false).
  { intros x. apply Z.ltb_ge. unfold Deque.len, Py.len.
    rewrite deque_append_length. lia. }
  split.
  - intros rms peak. cbv zeta.
    unfold detect_energy_based.
    cbn [set_threshold with_config last_trigger_time min_interval_ms].
    destruct (Py.ltb _ _); [reflexivity|].
    cbn [record_energy energy_history with_config set_threshold].
    rewrite Len.
    change (adaptive_threshold (record_energy (set_threshold self t) peak))
      with (adaptive_threshold self).
    change (adaptive_threshold (record_energy self peak))
      with (adaptive_threshold self).
    unfold finish. destruct (Py.ltb (adaptive_threshold self) peak); reflexivity.
  - intros c self' r fired Hc E H.
    assert (E' : effective (set_threshold self t) c now = true).
    { destruct c; exact E. }
    pose proof (evaluate_effective _ _ _ _ _ _ _ E' H) as F. cbv zeta in F.
    destruct F as (_ & _ & Htr & _). rewrite Htr.
    destruct c as [| |bd idx|bd|bd|bd]; try contradiction;
      cbn [threshold_used history_of on_flux signal set_threshold with_config
           energy_history threshold];
      rewrite Len; reflexivity.
Qed.

(** X12 on a cold detector whose threshold is raised from 0.3 to 0.9: a peak
    of 0.5 still triggers the energy variant. *)
Lemma set_threshold_reaches_energy_variant_late_witness :
  let self := init (3 # 10) (5 # 10) 100 in
  triggered (snd (fst (detect_energy_based (set_threshold self (9 # 10))
                         0 (5 # 10) 1000 1000)))
  = true.
Proof.
  intros self.
  rewrite (proj1 (set_threshold_reaches_energy_variant_late self (9 # 10) 1000 1000
                    (Nat.lt_0_succ 9)) 0 (5 # 10)).
  reflexivity.
Defined.

(** X13.  [reset] clears the trigger state, both histories and the previous
    spectrum, and keeps the configuration and the callbacks; resetting twice
    is resetting once.  It does not reset the stored adaptive threshold: the
    first energy evaluation after a reset is decided against the threshold
    held before the reset, not against the base threshold, whereas a kick
    evaluation is decided against the base threshold. *)
Theorem reset_keeps_learned_threshold :
  forall self rms_level peak_level band_data now stamp,
    let self0 := reset self in
    reset self0 = self0
    /\ items (energy_history self0) = [] /\ items (flux_history self0) = []
    /\ previous_spectrum self0 = []
    /\ total_triggers self0 = 0%Z /\ last_trigger_time self0 = 0
    /\ threshold self0 = threshold self /\ sensitivity self0 = sensitivity self
    /\ min_interval_ms self0 = min_interval_ms self
    /\ on_transient_callbacks self0 = on_transient_callbacks self
    /\ adaptive_threshold self0 = adaptive_threshold self
    /\ (debounced self0 now = false ->
        triggered (snd (fst (detect_energy_based self0 rms_level peak_level now stamp)))
        = Py.ltb (adaptive_threshold self) peak_level
        /\ ((2 <= Py.len band_data)%Z ->
            triggered (snd (fst (detect_kick self0 band_data now stamp)))
            = Py.ltb (threshold self) (kick_energy_of band_data))).
Proof.
  intros self rms peak band_data now stamp self0. subst self0.
  assert (Len : forall d x, (10 <? Deque.len (Deque.append (Deque.clear d) x))%Z = false).
  { intros d x. apply Z.ltb_ge. unfold Deque.len, Py.len.
    rewrite deque_append_length. cbn [Deque.clear items maxlen List.length].
    lia. }
  repeat match goal with |- _ /\ _ => split end; try reflexivity.
  intros D. unfold debounced in D. split.
  - unfold detect_energy_based. rewrite D.
    cbn [record_energy energy_history reset]. rewrite Len.
    change (adaptive_threshold (record_energy (reset self) peak))
      with (adaptive_threshold self).
    unfold finish. destruct (Py.ltb (adaptive_threshold self) peak); reflexivity.
  - intros L. unfold detect_kick.
    destruct (Z.ltb_spec (Py.len band_data) 2); [lia|].
    cbn zeta. rewrite D. unfold band_rule.
    cbn [append_energy energy_history reset threshold sensitivity]. rewrite Len.
    unfold finish.
    destruct (Py.ltb (threshold self) (kick_energy_of band_data)); reflexivity.
Qed.

End StrengthAndConfiguration.

Section ConfigurationWitnesses.

Import Detector.

(** X11 on a threshold of 3/2, which is stored as 1. *)
Lemma setters_clamp_witness :
  threshold (set_threshold (init (3 # 10) (5 # 10) 100) (3 # 2)) == 1.
Proof.
  destruct (setters_clamp (init (3 # 10) (5 # 10) 100) (3 # 2))
    as (((_ & _ & _ & H) & _) & _).
  apply H. discriminate.
Defined.

(** X13 on a detector that has learned the threshold 0.25 from eleven energy
    evaluations at 0.1: after [reset] a peak of 0.28 triggers, although the
    base threshold is 0.3. *)
Lemma reset_keeps_learned_threshold_witness :
  let cold := init (3 # 10) (5 # 10) 100 in
  let self := match run cold (repeat (Energy 0 (1 # 10), 1000, 1000) 11) with
              | Some (s, _) => s
              | None => cold
              end in
  adaptive_threshold self == 25 # 100
  /\ triggered (snd (fst (detect_energy_based (reset self) 0 (28 # 100) 1000 1000)))
     = true.
Proof.
  intros cold self. split; [vm_compute; reflexivity|].
  pose proof (reset_keeps_learned_threshold self 0 (28 # 100) [] 1000 1000) as H.
  cbv zeta in H.
  destruct H as (_ & _ & _ & _ & _ & _ & _ & _ & _ & _ & _ & H).
  rewrite (proj1 (H eq_refl)). vm_compute. reflexivity.
Defined.

End ConfigurationWitnesses.

Section DetectorInvariants.

Import Detector.

Lemma Forall_skipn {A} (P : A -> Prop) (j : nat) (l : list A) :
  Forall P l -> Forall P (skipn j l).
Proof.
  intros H. rewrite <- (firstn_skipn j l) in H.
  apply Forall_app in H. apply H.
Qed.

Lemma deque_append_Forall (P : Q -> Prop) d x :
  Forall P (items d) -> P x -> Forall P (items (Deque.append d x)).
Proof.
  intros Hd Hx. unfold Deque.append. cbn [items].
  apply Forall_skipn. apply Forall_app. split; [assumption|].
  constructor; [assumption|constructor].
Qed.

Lemma flux_loop_nonneg fd prev acc : 0 <= acc -> 0 <= flux_loop acc fd prev.
Proof.
  revert prev acc. induction fd as [|x fd IH]; intros [|p prev] acc H; cbn; auto.
  apply IH. destruct (Py.ltb 0 (x - p)) eqn:E; [|assumption].
  apply ltb_lt in E. lra.
Qed.

(** Where no bin has risen the flux loop adds nothing. *)
Lemma flux_loop_steady fd prev acc :
  (forall i, (i < List.length fd)%nat -> (i < List.length prev)%nat ->
             nth i fd 0 <= nth i prev 0) ->
  flux_loop acc fd prev = acc.
Proof.
  revert prev acc. induction fd as [|x fd IH]; intros [|p prev] acc H; cbn; auto.
  assert (E : Py.ltb 0 (x - p) = false).
  { apply ltb_false. specialize (H 0%nat). cbn in H.
    specialize (H (Nat.lt_0_succ _) (Nat.lt_0_succ _)). lra. }
  rewrite E. apply IH. intros i Hi Hp.
  apply (H (S i)); cbn; lia.
Qed.

Lemma fold_plus_nonneg (xs : list Q) (acc : Q) :
  Forall (fun x => 0 <= x) xs -> 0 <= acc -> 0 <= fold_left Qplus xs acc.
Proof.
  intros H. revert acc.
  induction H as [|x xs Hx _ IH]; intros acc Ha; cbn; [assumption|].
  apply IH. lra.
Qed.

Lemma sum_nonneg (xs : list Q) : Forall (fun x => 0 <= x) xs -> 0 <= Py.sum xs.
Proof. intros H. apply fold_plus_nonneg; [exact H|lra]. Qed.

Lemma mean_nonneg (d : deque) : Forall (fun x => 0 <= x) (items d) -> 0 <= mean d.
Proof.
  intros H. unfold mean, Qdiv. apply Qmult_le_0_compat.
  - apply sum_nonneg. exact H.
  - apply Qinv_le_0_compat. unfold Deque.len, Py.len.
    change 0 with (inject_Z 0). rewrite <- Zle_Qle. lia.
Qed.

(** What every detector a program can hold keeps. *)
Lemma reachable_histories self :
  reachable self ->
  maxlen (energy_history self) = 60%nat
  /\ maxlen (flux_history self) = 60%nat
  /\ (List.length (items (energy_history self)) <= 60)%nat
  /\ (List.length (items (flux_history self)) <= 60)%nat
  /\ Forall (fun x => 0 <= x) (items (flux_history self))
  /\ (0 <= total_triggers self)%Z.
Proof.
  induction 1 as [T S M|self c now stamp self' r fired _ IH H| self cb _ IH
                  |self cb _ IH|self t _ IH|self x _ IH|self m _ IH|self _ IH].
  - cbn. repeat split; auto; lia.
  - destruct IH as (Me & Mf & Le & Lf & Ff & Tt).
    destruct (evaluate_counts _ _ _ _ _ _ _ H) as (Tc & _).
    assert (Tt' : (0 <= total_triggers self')%Z)
      by (rewrite Tc; destruct (triggered r); lia).
    destruct (effective self c now) eqn:E.
    + pose proof (evaluate_effective _ _ _ _ _ _ _ E H) as F. cbv zeta in F.
      destruct F as (Hh & Ho & _).
      destruct c as [rms peak|fd|bd idx|bd|bd|bd];
        cbn [history_of on_flux signal] in Hh, Ho;
        rewrite Hh, Ho, ?deque_append_length, ?deque_append_maxlen, ?Me, ?Mf;
        repeat split; auto; try lia.
      apply deque_append_Forall; [assumption|].
      apply flux_loop_nonneg. lra.
    + destruct (evaluate_not_effective _ _ _ _ _ _ _ E H)
        as (_ & _ & [->|(fd & _ & _ & _ & ->)]); cbn; repeat split; auto.
  - unfold add_callback. destruct (negb _); exact IH.
  - unfold remove_callback. destruct (registered _ _); exact IH.
  - exact IH.
  - exact IH.
  - exact IH.
  - destruct IH as (Me & Mf & _ & _ & _ & _). cbn.
    repeat split; auto; lia.
Qed.

(** X14.  Both signal histories of a detector never hold more than 60
    entries, the entries of the flux history are never negative, and the
    trigger counter is never negative. *)
Theorem detector_histories_bounded :
  forall self,
    reachable self ->
    (List.length (items (energy_history self)) <= 60)%nat
    /\ (List.length (items (flux_history self)) <= 60)%nat
    /\ Forall (fun x => 0 <= x) (items (flux_history self))
    /\ (0 <= total_triggers self)%Z
    /\ (0 <= st_total_triggers (get_statistics self))%Z.
Proof.
  intros self R. destruct (reachable_histories _ R) as (_ & _ & Le & Lf & Ff & Tt).
  repeat split; assumption.
Qed.

(** X15.  A spectrum in which no bin has risen above the previous one never
    triggers the spectral-flux variant, whatever the history, as long as the
    base threshold is not negative and the sensitivity is at least -1 (both
    hold once set through the setters): the flux is 0 and the threshold is
    not negative.  The call fires no callback, leaves the trigger counter
    alone and, unless debounced, takes the spectrum as the new previous
    one. *)
Theorem steady_spectrum_never_triggers :
  forall self frequency_data now stamp,
    reachable self ->
    0 <= threshold self -> -1 <= sensitivity self ->
    (forall i, (i < List.length frequency_data)%nat ->
               (i < List.length (previous_spectrum self))%nat ->
               nth i frequency_data 0 <= nth i (previous_spectrum self) 0) ->
    let '(self', r, fired) := detect_spectral_flux self frequency_data now stamp in
    triggered r = false /\ strength r = 0 /\ fired = []
    /\ total_triggers self' = total_triggers self
    /\ last_trigger_time self' = last_trigger_time self
    /\ (debounced self now = false -> previous_spectrum self' = frequency_data).
Proof.
  intros self fd now stamp R T0 S0 Steady.
  destruct (reachable_histories _ R) as (_ & _ & _ & _ & Ff & _).
  unfold detect_spectral_flux, debounced.
  destruct (Py.ltb _ _) eqn:D.
  { cbn. repeat split; auto. discriminate. }
  destruct (previous_spectrum self) as [|p ps] eqn:P.
  { cbn. repeat split; auto. }
  rewrite (flux_loop_steady _ _ _ Steady). cbn zeta.
  set (self1 := record_flux self 0).
  set (t := if (10 <? Deque.len (flux_history self1))%Z
            then mean (flux_history self1) * (1 + sensitivity self1)
            else threshold self1).
  assert (Ht : Py.ltb t 0 = false).
  { apply ltb_false. subst t. destruct (10 <? _)%Z; [|exact T0].
    apply Qmult_le_0_compat.
    - apply mean_nonneg. apply deque_append_Forall; [exact Ff|lra].
    - cbn. lra. }
  rewrite Ht. cbn. repeat split; auto.
Qed.

(** X14 and X15 on a detector that holds the spectrum 1, 2 and is shown
    1, 1. *)
Lemma detector_histories_bounded_witness :
  let out := detect_spectral_flux (init (3 # 10) (5 # 10) 100) [1; 2] 1000 1000 in
  (List.length (items (flux_history (fst (fst out)))) <= 60)%nat.
Proof.
  intros out.
  exact (proj1 (proj2 (detector_histories_bounded (fst (fst out))
                         (reach_eval (init (3 # 10) (5 # 10) 100)
                            (SpectralFlux [1; 2]) 1000 1000
                            (fst (fst out)) (snd (fst out)) (snd out)
                            (reach_init _ _ _) eq_refl)))).
Defined.

Lemma steady_spectrum_never_triggers_witness :
  let out := detect_spectral_flux (init (3 # 10) (5 # 10) 100) [1; 2] 1000 1000 in
  triggered (snd (fst (detect_spectral_flux (fst (fst out)) [1; 1] 1001 1001)))
  = false.
Proof.
  intros out.
  pose proof (steady_spectrum_never_triggers (fst (fst out)) [1; 1] 1001 1001
                (reach_eval (init (3 # 10) (5 # 10) 100)
                   (SpectralFlux [1; 2]) 1000 1000
                   (fst (fst out)) (snd (fst out)) (snd out)
                   (reach_init _ _ _) eq_refl)) as H.
  specialize (H ltac:(discriminate) ltac:(discriminate)).
  assert (S : forall i, (i < 2)%nat -> (i < 2)%nat ->
                nth i [1; 1] 0 <= nth i [1; 2] 0).
  { intros [|[|i]] Hi _; [discriminate|discriminate|].
    exfalso. exact (Nat.nlt_0_r _ (proj2 (Nat.succ_lt_mono _ _)
                                   (proj2 (Nat.succ_lt_mono _ _) Hi))). }
  specialize (H S).
  destruct (detect_spectral_flux (fst (fst out)) [1; 1] 1001 1001) as [[s r] f].
  exact (proj1 H).
Defined.

End DetectorInvariants.

(** * The detector bank *)

Section Bank.

Import Multi.

Lemma dict_get_set_same name v d : dict_get name (dict_set name v d) = Some v.
Proof.
  induction d as [|[k w] d IH]; cbn.
  - now rewrite String.eqb_refl.
  - destruct (String.eqb name k) eqn:E; cbn; rewrite E; auto.
Qed.

Lemma dict_get_set_other name name' v d :
  name' <> name -> dict_get name' (dict_set name v d) = dict_get name' d.
Proof.
  intros N. induction d as [|[k w] d IH]; cbn.
  - destruct (String.eqb_spec name' name); [contradiction|reflexivity].
  - destruct (String.eqb_spec name k) as [->|Nk]; cbn.
    + destruct (String.eqb_spec name' k); [contradiction|reflexivity].
    + now rewrite IH.
Qed.

Lemma dict_set_keys name v d :
  map fst (dict_set name v d)
  = if existsb (String.eqb name) (map fst d) then map fst d
    else map fst d ++ [name].
Proof.
  induction d as [|[k w] d IH]; cbn; [reflexivity|].
  destruct (String.eqb name k); cbn; [reflexivity|].
  rewrite IH. destruct (existsb _ _); reflexivity.
Qed.

(** X16.  [add_detector] then [get_detector] of the same name returns the
    detector just stored, replacing any that held the name; every other name
    still denotes what it did, a name that was never stored yields [None]
    rather than an error, and the set of names grows by at most the new
    name, at the end. *)
Theorem add_then_get_detector :
  forall self name detector,
    let self' := add_detector self name detector in
    get_detector self' name = Some detector
    /\ (forall other, other <> name ->
          get_detector self' other = get_detector self other)
    /\ heap self' = heap self
    /\ map fst (detectors self')
       = (if existsb (String.eqb name) (map fst (detectors self))
          then map fst (detectors self)
          else map fst (detectors self) ++ [name])
    /\ (forall other,
          ~ In other ["kick"; "snare"; "hihat"; "general"]%string ->
          get_detector init other = None).
Proof.
  intros self name detector self'. subst self'.
  unfold get_detector, add_detector. cbn [detectors heap].
  split; [apply dict_get_set_same|].
  split; [intros other N; now apply dict_get_set_other|].
  split; [reflexivity|]. split; [apply dict_set_keys|].
  intros other N. cbn.
  repeat match goal with
         | |- context [String.eqb other ?k] =>
             destruct (String.eqb_spec other k) as [->|_];
             [exfalso; apply N; cbn; auto 10|]
         end.
  reflexivity.
Qed.

(** X16 on the fresh bank: "general" set to the kick detector, "clap"
    unknown. *)
Lemma add_then_get_detector_witness :
  let self := add_detector init "general"%string 0%nat in
  get_detector self "general"%string = Some 0%nat
  /\ get_detector self "snare"%string = Some 1%nat
  /\ get_detector init "clap"%string = None.
Proof.
  intros self.
  destruct (add_then_get_detector init "general"%string 0%nat) as (A & B & _ & _ & C).
  split; [exact A|]. split.
  - exact (B "snare"%string ltac:(discriminate)).
  - apply C. cbn. intros [E|[E|[E|[E|[]]]]]; discriminate E.
Defined.

Lemma deref_assign_same h r d :
  (r < List.length h)%nat -> deref (assign h r d) r = Some d.
Proof.
  revert r. induction h as [|x h IH]; intros [|r] H; cbn in *; try lia; auto.
  apply IH. lia.
Qed.

Lemma deref_assign_other h r r' d :
  r' <> r -> deref (assign h r d) r' = deref h r'.
Proof.
  revert r r'. induction h as [|x h IH]; intros [|r] [|r'] N; cbn;
    try reflexivity; try contradiction.
  apply IH. congruence.
Qed.

Lemma assign_length h r d : List.length (assign h r d) = List.length h.
Proof.
  revert r. induction h as [|x h IH]; intros [|r]; cbn; auto.
Qed.

Lemma assign_same_value h r d : deref h r = Some d -> assign h r d = h.
Proof.
  revert r. induction h as [|x h IH]; intros [|r] H; cbn in *; auto.
  - now injection H as ->.
  - f_equal. now apply IH.
Qed.

Lemma deref_valid h r d : deref h r = Some d -> (r < List.length h)%nat.
Proof. intros H. apply nth_error_Some. unfold deref in H. congruence. Qed.

Lemma call_on_spec self name c clock r d d' res f :
  dict_get name (detectors self) = Some r ->
  deref (heap self) r = Some d ->
  Detector.evaluate d c (fst clock) (snd clock) = Some (d', res, f) ->
  call_on self name c clock
  = Some ({| heap := assign (heap self) r d'; detectors := detectors self |},
          res, f).
Proof.
  intros Hn Hd He. unfold call_on. now rewrite Hn, Hd, He.
Qed.

(** Band 0 of any vector can be asked for: the empty vector is turned away
    by the index guard. *)
Lemma band_zero_total d band_data now stamp :
  exists o, Detector.detect_band_transient d band_data 0 now stamp = Some o.
Proof.
  unfold Detector.detect_band_transient.
  destruct (Py.ltb _ _); [eauto|].
  destruct (Z.leb_spec (Py.len band_data) 0); [eauto|].
  destruct band_data as [|x xs]; [cbn in *; lia|]. cbn. eauto.
Qed.

(** X17.  When the four preset names denote four different detectors, as
    they do in a fresh bank, [detect_all] is the four variant calls side by
    side: each detector is evaluated by its own variant on its own state,
    the results are reported under its name, the callbacks fire in the order
    kick, snare, hi-hat, general, and no detector is affected by another's
    trigger.  The call cannot fail, and detectors under other names are not
    touched. *)
Theorem detect_all_is_four_independent_calls :
  forall self band_data t_kick t_snare t_hihat t_general rk rs rh rg dk ds dh dg,
    get_detector self "kick"%string = Some rk -> deref (heap self) rk = Some dk ->
    get_detector self "snare"%string = Some rs -> deref (heap self) rs = Some ds ->
    get_detector self "hihat"%string = Some rh -> deref (heap self) rh = Some dh ->
    get_detector self "general"%string = Some rg -> deref (heap self) rg = Some dg ->
    NoDup [rk; rs; rh; rg] ->
    let '(dk', r_kick, f_kick) :=
      Detector.detect_kick dk band_data (fst t_kick) (snd t_kick) in
    let '(ds', r_snare, f_snare) :=
      Detector.detect_snare ds band_data (fst t_snare) (snd t_snare) in
    let '(dh', r_hihat, f_hihat) :=
      Detector.detect_hihat dh band_data (fst t_hihat) (snd t_hihat) in
    exists dg' r_general f_general self',
      Detector.detect_band_transient dg band_data 0 (fst t_general) (snd t_general)
      = Some (dg', r_general, f_general)
      /\ detect_all self band_data t_kick t_snare t_hihat t_general
         = Some (self',
                 {| kick := r_kick; snare := r_snare;
                    hihat := r_hihat; general := r_general |},
                 f_kick ++ f_snare ++ f_hihat ++ f_general)
      /\ detectors self' = detectors self
      /\ deref (heap self') rk = Some dk'
      /\ deref (heap self') rs = Some ds'
      /\ deref (heap self') rh = Some dh'
      /\ deref (heap self') rg = Some dg'
      /\ (forall r, ~ In r [rk; rs; rh; rg] ->
            deref (heap self') r = deref (heap self) r).
Proof.
  intros self band_data t_kick t_snare t_hihat t_general rk rs rh rg dk ds dh dg
         Nk Dk Ns Ds Nh Dh Ng Dg ND.
  destruct (Detector.detect_kick dk band_data (fst t_kick) (snd t_kick))
    as [[dk' r_kick] f_kick] eqn:Ek.
  destruct (Detector.detect_snare ds band_data (fst t_snare) (snd t_snare))
    as [[ds' r_snare] f_snare] eqn:Es.
  destruct (Detector.detect_hihat dh band_data (fst t_hihat) (snd t_hihat))
    as [[dh' r_hihat] f_hihat] eqn:Eh.
  destruct (band_zero_total dg band_data (fst t_general) (snd t_general))
    as ([[dg' r_general] f_general] & Eg).
  inversion ND as [|? ? N1 ND1]; subst.
  inversion ND1 as [|? ? N2 ND2]; subst.
  inversion ND2 as [|? ? N3 _]; subst.
  cbn [In] in N1, N2, N3.
  pose proof (deref_valid _ _ _ Dk) as Vk.
  pose proof (deref_valid _ _ _ Ds) as Vs.
  pose proof (deref_valid _ _ _ Dh) as Vh.
  pose proof (deref_valid _ _ _ Dg) as Vg.
  unfold get_detector in *.
  exists dg', r_general, f_general.
  eexists. split; [exact Eg|].
  unfold detect_all.
  rewrite (call_on_spec self "kick"%string (Detector.Kick band_data) t_kick rk dk
             dk' r_kick f_kick Nk Dk) by (cbn; now rewrite Ek).
  erewrite (call_on_spec _ "snare"%string (Detector.Snare band_data) t_snare rs ds
              ds' r_snare f_snare);
    [|exact Ns|cbn [heap]; rewrite deref_assign_other by (intuition congruence); exact Ds
     |cbn; now rewrite Es].
  erewrite (call_on_spec _ "hihat"%string (Detector.Hihat band_data) t_hihat rh dh
              dh' r_hihat f_hihat);
    [|exact Nh|cbn [heap]; rewrite !deref_assign_other by (intuition congruence); exact Dh
     |cbn; now rewrite Eh].
  erewrite (call_on_spec _ "general"%string (Detector.Band band_data 0) t_general rg dg
              dg' r_general f_general);
    [|exact Ng|cbn [heap]; rewrite !deref_assign_other by (intuition congruence); exact Dg
     |cbn; exact Eg].
  split; [reflexivity|]. cbn [heap detectors]. split; [reflexivity|].
  split; [|split; [|split; [|split]]].
  - rewrite !deref_assign_other by (intuition congruence). apply deref_assign_same. exact Vk.
  - rewrite !deref_assign_other by (intuition congruence). apply deref_assign_same.
    now rewrite assign_length.
  - rewrite !deref_assign_other by (intuition congruence). apply deref_assign_same.
    now rewrite !assign_length.
  - apply deref_assign_same. now rewrite !assign_length.
  - intros r Hr. cbn [In] in Hr. rewrite !deref_assign_other by (intuition congruence).
    reflexivity.
Qed.

(** X17 on the fresh bank and eight bands of 1. *)
Lemma detect_all_is_four_independent_calls_witness :
  let ones := [1; 1; 1; 1; 1; 1; 1; 1] in
  let t := (1000, 1000) in
  exists self' res fired,
    detect_all init ones t t t t = Some (self', res, fired)
    /\ kick res = snd (fst (Detector.detect_kick
                              (Detector.init (3 # 10) (5 # 10) 100) ones 1000 1000)).
Proof.
  intros ones t.
  assert (ND : NoDup [0; 1; 2; 3]%nat).
  { repeat constructor; cbn; intuition discriminate. }
  pose proof (detect_all_is_four_independent_calls init ones t t t t
                0%nat 1%nat 2%nat 3%nat _ _ _ _
                eq_refl eq_refl eq_refl eq_refl eq_refl eq_refl eq_refl eq_refl ND)
    as H.
  cbn [fst snd t] in H.
  destruct (Detector.detect_kick _ ones 1000 1000) as [[dk' r_kick] f_kick].
  destruct (Detector.detect_snare _ ones 1000 1000) as [[ds' r_snare] f_snare].
  destruct (Detector.detect_hihat _ ones 1000 1000) as [[dh' r_hihat] f_hihat].
  destruct H as (dg' & r_general & f_general & self' & _ & H & _).
  exists self', {| kick := r_kick; snare := r_snare;
                   hihat := r_hihat; general := r_general |},
         (f_kick ++ f_snare ++ f_hihat ++ f_general).
  split; [exact H|reflexivity].
Defined.

Lemma call_on_unchanged self name c clock r d res :
  dict_get name (detectors self) = Some r ->
  deref (heap self) r = Some d ->
  Detector.evaluate d c (fst clock) (snd clock) = Some (d, res, []) ->
  call_on self name c clock = Some (self, res, []).
Proof.
  intros Hn Hd He. rewrite (call_on_spec _ _ _ _ _ _ _ _ _ Hn Hd He).
  rewrite (assign_same_value _ _ _ Hd). destruct self; reflexivity.
Qed.

(** X18.  On an empty band vector [detect_all] changes nothing: whichever
    detectors the four names denote, all four results are non-triggers with
    strength 0, no callback fires and every detector is as it was. *)
Theorem detect_all_on_no_bands :
  forall self t_kick t_snare t_hihat t_general rk rs rh rg dk ds dh dg,
    get_detector self "kick"%string = Some rk -> deref (heap self) rk = Some dk ->
    get_detector self "snare"%string = Some rs -> deref (heap self) rs = Some ds ->
    get_detector self "hihat"%string = Some rh -> deref (heap self) rh = Some dh ->
    get_detector self "general"%string = Some rg -> deref (heap self) rg = Some dg ->
    exists res,
      detect_all self [] t_kick t_snare t_hihat t_general = Some (self, res, [])
      /\ triggered (kick res) = false /\ strength (kick res) = 0
      /\ triggered (snare res) = false /\ strength (snare res) = 0
      /\ triggered (hihat res) = false /\ strength (hihat res) = 0
      /\ triggered (general res) = false /\ strength (general res) = 0.
Proof.
  intros self t_kick t_snare t_hihat t_general rk rs rh rg dk ds dh dg
         Nk Dk Ns Ds Nh Dh Ng Dg.
  unfold get_detector in *. unfold detect_all.
  rewrite (call_on_unchanged self "kick"%string (Detector.Kick []) t_kick rk dk
             (Detector._get_detection_result dk false 0 (snd t_kick)) Nk Dk eq_refl).
  rewrite (call_on_unchanged self "snare"%string (Detector.Snare []) t_snare rs ds
             (Detector._get_detection_result ds false 0 (snd t_snare)) Ns Ds eq_refl).
  rewrite (call_on_unchanged self "hihat"%string (Detector.Hihat []) t_hihat rh dh
             (Detector._get_detection_result dh false 0 (snd t_hihat)) Nh Dh eq_refl).
  assert (Eg : Detector.evaluate dg (Detector.Band [] 0) (fst t_general) (snd t_general)
               = Some (dg, Detector._get_detection_result dg false 0 (snd t_general), [])).
  { cbn [Detector.evaluate]. unfold Detector.detect_band_transient.
    destruct (Py.ltb _ _); reflexivity. }
  rewrite (call_on_unchanged self "general"%string _ t_general rg dg _ Ng Dg Eg).
  eexists. split; [reflexivity|]. cbn. repeat split; reflexivity.
Qed.

(** X18 on the fresh bank. *)
Lemma detect_all_on_no_bands_witness :
  let t := (1000, 1000) in
  exists res, detect_all init [] t t t t = Some (init, res, []).
Proof.
  intros t.
  destruct (detect_all_on_no_bands init t t t t 0%nat 1%nat 2%nat 3%nat _ _ _ _
              eq_refl eq_refl eq_refl eq_refl eq_refl eq_refl eq_refl eq_refl)
    as (res & H & _).
  exists res. exact H.
Defined.

Lemma detector_reset_idempotent d : Detector.reset (Detector.reset d) = Detector.reset d.
Proof. reflexivity. Qed.

Lemma deref_reset_object h r0 r :
  deref (reset_object h r0) r
  = if Nat.eqb r r0 then option_map Detector.reset (deref h r) else deref h r.
Proof.
  unfold reset_object.
  destruct (Nat.eqb_spec r r0) as [->|N].
  - destruct (deref h r0) as [d|] eqn:E; cbn.
    + apply deref_assign_same. eapply deref_valid; eassumption.
    + exact E.
  - destruct (deref h r0); [|reflexivity]. now apply deref_assign_other.
Qed.

Lemma deref_reset_all refs h r :
  deref (fold_left reset_object refs h) r
  = if existsb (Nat.eqb r) refs
    then option_map Detector.reset (deref h r)
    else deref h r.
Proof.
  revert h. induction refs as [|r0 refs IH]; intros h; [reflexivity|].
  cbn [fold_left existsb]. rewrite IH, deref_reset_object.
  destruct (Nat.eqb r r0); cbn [orb].
  - destruct (existsb _ refs); destruct (deref h r); reflexivity.
  - reflexivity.
Qed.

(** X19.  [reset_all] resets every detector the bank names, exactly as
    [reset] on that detector would, also when several names denote the same
    detector; detectors the bank does not name are not touched, and the
    names keep their detectors. *)
Theorem reset_all_resets_every_named_detector :
  forall self,
    detectors (reset_all self) = detectors self
    /\ (forall name r d,
          get_detector self name = Some r -> deref (heap self) r = Some d ->
          get_detector (reset_all self) name = Some r
          /\ deref (heap (reset_all self)) r = Some (Detector.reset d))
    /\ (forall r, ~ In r (map snd (detectors self)) ->
          deref (heap (reset_all self)) r = deref (heap self) r).
Proof.
  intros self. unfold reset_all, get_detector. cbn [heap detectors].
  split; [reflexivity|]. split.
  - intros name r d Hn Hd. split; [exact Hn|].
    rewrite deref_reset_all, Hd.
    assert (In r (map snd (detectors self))).
    { clear Hd. induction (detectors self) as [|[k v] l IH]; [discriminate|].
      cbn in *. destruct (String.eqb name k); [injection Hn as ->; now left|].
      right. now apply IH. }
    destruct (existsb (Nat.eqb r) (map snd (detectors self))) eqn:E; [reflexivity|].
    exfalso. apply not_true_iff_false in E. apply E.
    apply existsb_exists. exists r. split; [assumption|apply Nat.eqb_refl].
  - intros r Hr. rewrite deref_reset_all.
    destruct (existsb (Nat.eqb r) (map snd (detectors self))) eqn:E; [|reflexivity].
    apply existsb_exists in E. destruct E as (x & Hx & Ex).
    apply Nat.eqb_eq in Ex. subst x. contradiction.
Qed.

(** X19 on the fresh bank after one [detect_all]. *)
Lemma reset_all_resets_every_named_detector_witness :
  let ones := [1; 1; 1; 1; 1; 1; 1; 1] in
  let t := (1000, 1000) in
  let self := match detect_all init ones t t t t with
              | Some (s, _, _) => s
              | None => init
              end in
  option_map total_triggers (deref (heap self) 0%nat) = Some 1%Z
  /\ option_map total_triggers (deref (heap (reset_all self)) 0%nat) = Some 0%Z.
Proof.
  intros ones t self. split; [reflexivity|].
  destruct (deref (heap self) 0%nat) as [d|] eqn:E; [|discriminate E].
  destruct (reset_all_resets_every_named_detector self) as (_ & H & _).
  destruct (H "kick"%string 0%nat d eq_refl E) as (_ & ->).
  reflexivity.
Defined.

End Bank.

(** * The analyzer feeding the detectors *)

Section Pipeline.

Import Analyzer.

Lemma band8_length sqrt self chop_reference :
  List.length (band8 (a_bands (snd (analyze_chop sqrt self chop_reference)))) = 8%nat.
Proof.
  destruct (analyze_chop_cases sqrt self chop_reference) as [E|(c & -> & Hs & Hc)].
  - rewrite E. reflexivity.
  - rewrite (analyze_chop_nonempty sqrt _ _ Hs Hc).
    cbn [snd a_bands band8 _extract_frequency_bands].
    apply calculate_bands_length.
Qed.

(** X20.  The 8-band vector of any frame, also the zero frame of an absent
    or empty input, is accepted by every preset of the detector: it passes
    the length guards of kick, snare and hi-hat and the index guard of band
    0.  The hi-hat signal is then the average of bands 6 and 7, and each
    preset evaluation that is not debounced appends its signal to the
    detector's history. *)
Theorem eight_bands_feed_every_preset :
  forall sqrt self chop_reference d now stamp,
    let band_data := band8 (a_bands (snd (analyze_chop sqrt self chop_reference))) in
    Detector.admitted d (Detector.Kick band_data) = true
    /\ Detector.admitted d (Detector.Snare band_data) = true
    /\ Detector.admitted d (Detector.Hihat band_data) = true
    /\ Detector.admitted d (Detector.Band band_data 0) = true
    /\ Detector.hihat_energy_of band_data
       == (nth 6 band_data 0 + nth 7 band_data 0) / 2
    /\ (Detector.debounced d now = false ->
        energy_history (fst (fst (Detector.detect_kick d band_data now stamp)))
        = Deque.append (energy_history d) (Detector.kick_energy_of band_data)
        /\ energy_history (fst (fst (Detector.detect_snare d band_data now stamp)))
           = Deque.append (energy_history d) (Detector.snare_energy_of band_data)
        /\ energy_history (fst (fst (Detector.detect_hihat d band_data now stamp)))
           = Deque.append (energy_history d) (Detector.hihat_energy_of band_data)).
Proof.
  intros sqrt self chop_reference d now stamp band_data.
  pose proof (band8_length sqrt self chop_reference) as L. fold band_data in L.
  clearbody band_data.
  assert (A : Detector.admitted d (Detector.Kick band_data) = true
              /\ Detector.admitted d (Detector.Snare band_data) = true
              /\ Detector.admitted d (Detector.Hihat band_data) = true
              /\ Detector.admitted d (Detector.Band band_data 0) = true).
  { cbn [Detector.admitted]. unfold Py.len. rewrite L. repeat split; reflexivity. }
  destruct A as (Ak & As & Ah & Ab).
  split; [exact Ak|]. split; [exact As|]. split; [exact Ah|]. split; [exact Ab|].
  split.
  - do 8 (destruct band_data as [|? band_data]; [discriminate L|]).
    destruct band_data; [|discriminate L].
    unfold Detector.hihat_energy_of.
    match goal with
    | |- context [Py.slice_from ?l (-2)] =>
        match l with
        | [_; _; _; _; _; _; ?a; ?b] => change (Py.slice_from l (-2)) with [a; b]
        end
    end.
    unfold Py.sum. cbn [fold_left nth]. field.
  - intros D.
    assert (E : forall c, Detector.admitted d c = true ->
                  Detector.effective d c now = true).
    { intros c Hc. unfold Detector.effective. now rewrite D, Hc. }
    split; [|split].
    + destruct (Detector.detect_kick d band_data now stamp) as [[s r] f] eqn:H.
      apply (evaluate_effective d (Detector.Kick band_data) now stamp s r f (E _ Ak)).
      cbn. now rewrite H.
    + destruct (Detector.detect_snare d band_data now stamp) as [[s r] f] eqn:H.
      apply (evaluate_effective d (Detector.Snare band_data) now stamp s r f (E _ As)).
      cbn. now rewrite H.
    + destruct (Detector.detect_hihat d band_data now stamp) as [[s r] f] eqn:H.
      apply (evaluate_effective d (Detector.Hihat band_data) now stamp s r f (E _ Ah)).
      cbn. now rewrite H.
Qed.

(** X20 on the zero frame of an absent input. *)
Lemma eight_bands_feed_every_preset_witness :
  let band_data := band8 (a_bands (snd (analyze_chop sqrt_approx (init 2048 (8 # 10)) None))) in
  let d := Detector.init (3 # 10) (5 # 10) 100 in
  energy_history (fst (fst (Detector.detect_kick d band_data 1000 1000)))
  = Deque.append (energy_history d) (Detector.kick_energy_of band_data).
Proof.
  intros band_data d.
  pose proof (eight_bands_feed_every_preset sqrt_approx (init 2048 (8 # 10)) None
                d 1000 1000) as H.
  cbv zeta in H. destruct H as (_ & _ & _ & _ & _ & H).
  exact (proj1 (H eq_refl)).
Defined.

End Pipeline.
